(** * The mlcomp supervisor: one scheduling tick

    A shallow embedding of [mlcomp/server/back/supervisor.py]
    (class [SupervisorBuilder]) and of the two queries of
    [mlcomp/db/providers/task.py] it relies on ([dependency_status] and
    [parent_tasks_stats]), followed by the properties of the tick.

    Conventions.
    - Python integers are [Z]: ids, CPU counts, GPU counts and indices,
      ports.  Memory amounts are Python floats: [float], the binary64 numbers
      of IEEE 754 with the operations Python uses on them ([-] and [>] are
      [PrimFloat.sub] and [PrimFloat.ltb]).
    - A task object of the ORM session is its position in the task table
      [db_tasks]; a computer dict of [self.computers] is its position in
      [computers].  Mutating an object is an update at that position, so
      every alias of the object sees it.
    - An exception aborts the running method and keeps the mutations made
      so far: a computation is a function from the supervisor to an outcome
      and the supervisor left behind.
    - A commit of the session expires its objects.  The columns of a task
      object are read again from the table, which is what reading
      [db_tasks] does anyway; its [dag_rel] was loaded by the query of
      [load_tasks] only and reads [None] from then on ([dag_rel_loaded],
      [commit], [dag_rel_of]).
    - The diagnostic snapshot ([self.auxiliary]) and the logger only record
      what was decided and are left out. *)

From Stdlib Require Import PrimFloat.
From stdpp Require Import gmap strings list fin_maps.
From Stdlib Require Import ZArith Lia Ascii.

Open Scope Z_scope.
#[local] Set Warnings "-inexact-float".

(** ** Enumerations *)

(** Modelled from the spec: the enumeration [mlcomp.db.enums.TaskStatus] is
    not among the sources.  The spec names its seven members (section 4.4:
    NotRan, Queued, InProgress, Success, Failed, Stopped, and Skipped); the
    integer behind each member is not used below, a status column is read
    as the member it stands for. *)
Inductive TaskStatus : Type :=
  | NotRan | Queued | InProgress | Failed | Stopped | Skipped | Success.

#[global] Instance TaskStatus_eq_dec : EqDecision TaskStatus.
Proof. solve_decision. Defined.

Definition TaskStatus_code (e : TaskStatus) : nat :=
  match e with
  | NotRan => 0 | Queued => 1 | InProgress => 2 | Failed => 3
  | Stopped => 4 | Skipped => 5 | Success => 6
  end%nat.

Definition TaskStatus_of_code (n : nat) : TaskStatus :=
  match n with
  | 0 => NotRan | 1 => Queued | 2 => InProgress | 3 => Failed
  | 4 => Stopped | 5 => Skipped | _ => Success
  end%nat.

#[global] Instance TaskStatus_countable : Countable TaskStatus.
Proof.
  apply (inj_countable' TaskStatus_code TaskStatus_of_code).
  by intros [].
Defined.

(** [for e in TaskStatus]: the members in declaration order. *)
Definition TaskStatus_members : list TaskStatus :=
  [NotRan; Queued; InProgress; Failed; Stopped; Skipped; Success].

(** The task types named by the sources ([TaskType.Service] in the
    supervisor, ['User'] and ['Train'] in the task provider). *)
Inductive TaskType : Type := User | Train | Service.

(** ** Rows and objects *)

(** [distr_info], the coordination payload of one rank. *)
Record DistrInfo : Type := mkDistrInfo {
  master_addr : string;
  rank : Z;
  local_rank : Z;
  master_port : Z;
  world_size : Z
}.

(** [task.additional_info], a YAML document: the [distr_info] entry when
    present, and the rest of the document kept as it is. *)
Record AdditionalInfo : Type := mkInfo {
  distr_info : option DistrInfo;
  info_rest : string
}.

Record Dag : Type := mkDag {
  dag_id : Z;
  docker_img : option string
}.

Record Task : Type := mkTask {
  t_id : Z;
  t_name : string;
  t_status : TaskStatus;
  t_type : TaskType;
  t_computer : option string;
  t_cpu : Z;
  t_memory : float;
  t_gpu : Z;
  t_gpu_assigned : option Z;
  t_computer_assigned : option string;
  t_celery_id : option Z;
  t_parent : option Z;
  t_dag : Z;
  t_debug : bool;
  t_additional_info : AdditionalInfo;
  t_started : option Z;
  t_finished : option Z
}.

Record TaskDependence : Type := mkDep {
  task_id : Z;
  depend_id : Z
}.

(** A row of the docker table; [d_ports] is the text ["lo-hi"] once split
    and converted by [list(map(int, docker.ports.split('-')))]. *)
Record Docker : Type := mkDocker {
  d_computer : string;
  d_name : string;
  d_ports : Z * Z
}.

(** What [computer_provider.computers()] gives for one computer, keyed by
    [r_name]. *)
Record RawComputer : Type := mkRaw {
  r_name : string;
  r_ip : string;
  r_cpu : Z;
  r_memory : float;
  r_gpu : Z
}.

(** A computer dict of the tick: [c_gpu] holds, per slot, [0] when free or
    the id of the task on it. *)
Record Computer : Type := mkComputer {
  c_name : string;
  c_ip : string;
  c_cpu : Z;
  c_memory : float;
  c_gpu : list Z;
  c_ports : gset Z;
  c_cpu_total : Z;
  c_memory_total : float;
  c_gpu_total : Z
}.

(** One call of [execute.apply_async((task.id,), queue=queue)]: the id and
    the queue sent to the broker, next to the task object they were read
    from. *)
Record Sent : Type := mkSent {
  sent_task : nat;
  sent_id : Z;
  sent_queue : string
}.

(** The supervisor together with the collaborators it reads and writes. *)
Record Supervisor : Type := mkSupervisor {
  db_tasks : list Task;
  db_deps : list TaskDependence;
  db_dags : gmap Z Dag;
  db_dockers : list Docker;
  db_computers : list RawComputer;
  db_next_id : Z;
  (** the column defaults of the task table: the row a [Task(...)] starts
      from before the constructor's keywords are applied *)
  db_task_default : Task;
  clock : Z;
  celery : list Sent;
  queues : list string;
  not_ran_tasks : list nat;
  dep_status : gmap Z (gset TaskStatus);
  computers : list Computer;
  (** whether the task objects [load_tasks] got from its query still carry
      the [dag_rel] the query loaded into them; see [commit] *)
  dag_rel_loaded : bool
}.

(** ** Field updates *)

Definition task_set_status (v : TaskStatus) (t : Task) : Task :=
  mkTask (t_id t) (t_name t) v (t_type t) (t_computer t) (t_cpu t)
    (t_memory t) (t_gpu t) (t_gpu_assigned t) (t_computer_assigned t)
    (t_celery_id t) (t_parent t) (t_dag t) (t_debug t)
    (t_additional_info t) (t_started t) (t_finished t).

Definition task_set_started (v : option Z) (t : Task) : Task :=
  mkTask (t_id t) (t_name t) (t_status t) (t_type t) (t_computer t) (t_cpu t)
    (t_memory t) (t_gpu t) (t_gpu_assigned t) (t_computer_assigned t)
    (t_celery_id t) (t_parent t) (t_dag t) (t_debug t)
    (t_additional_info t) v (t_finished t).

Definition task_set_finished (v : option Z) (t : Task) : Task :=
  mkTask (t_id t) (t_name t) (t_status t) (t_type t) (t_computer t) (t_cpu t)
    (t_memory t) (t_gpu t) (t_gpu_assigned t) (t_computer_assigned t)
    (t_celery_id t) (t_parent t) (t_dag t) (t_debug t)
    (t_additional_info t) (t_started t) v.

Definition task_set_computer_assigned (v : option string) (t : Task) : Task :=
  mkTask (t_id t) (t_name t) (t_status t) (t_type t) (t_computer t) (t_cpu t)
    (t_memory t) (t_gpu t) (t_gpu_assigned t) v
    (t_celery_id t) (t_parent t) (t_dag t) (t_debug t)
    (t_additional_info t) (t_started t) (t_finished t).

Definition task_set_celery_id (v : option Z) (t : Task) : Task :=
  mkTask (t_id t) (t_name t) (t_status t) (t_type t) (t_computer t) (t_cpu t)
    (t_memory t) (t_gpu t) (t_gpu_assigned t) (t_computer_assigned t)
    v (t_parent t) (t_dag t) (t_debug t)
    (t_additional_info t) (t_started t) (t_finished t).

Definition computer_set_gpu (v : list Z) (c : Computer) : Computer :=
  mkComputer (c_name c) (c_ip c) (c_cpu c) (c_memory c) v (c_ports c)
    (c_cpu_total c) (c_memory_total c) (c_gpu_total c).

Definition computer_set_cpu (v : Z) (c : Computer) : Computer :=
  mkComputer (c_name c) (c_ip c) v (c_memory c) (c_gpu c) (c_ports c)
    (c_cpu_total c) (c_memory_total c) (c_gpu_total c).

Definition computer_set_memory (v : float) (c : Computer) : Computer :=
  mkComputer (c_name c) (c_ip c) (c_cpu c) v (c_gpu c) (c_ports c)
    (c_cpu_total c) (c_memory_total c) (c_gpu_total c).

Definition computer_set_ports (v : gset Z) (c : Computer) : Computer :=
  mkComputer (c_name c) (c_ip c) (c_cpu c) (c_memory c) (c_gpu c) v
    (c_cpu_total c) (c_memory_total c) (c_gpu_total c).

Definition with_tasks (v : list Task) (s : Supervisor) : Supervisor :=
  mkSupervisor v (db_deps s) (db_dags s) (db_dockers s) (db_computers s)
    (db_next_id s) (db_task_default s) (clock s) (celery s) (queues s)
    (not_ran_tasks s) (dep_status s) (computers s)
    (dag_rel_loaded s).

Definition with_next_id (v : Z) (s : Supervisor) : Supervisor :=
  mkSupervisor (db_tasks s) (db_deps s) (db_dags s) (db_dockers s)
    (db_computers s) v (db_task_default s) (clock s) (celery s) (queues s)
    (not_ran_tasks s) (dep_status s) (computers s)
    (dag_rel_loaded s).

Definition with_celery (v : list Sent) (s : Supervisor) : Supervisor :=
  mkSupervisor (db_tasks s) (db_deps s) (db_dags s) (db_dockers s)
    (db_computers s) (db_next_id s) (db_task_default s) (clock s) v
    (queues s) (not_ran_tasks s) (dep_status s) (computers s)
    (dag_rel_loaded s).

Definition with_not_ran_tasks (v : list nat) (s : Supervisor) : Supervisor :=
  mkSupervisor (db_tasks s) (db_deps s) (db_dags s) (db_dockers s)
    (db_computers s) (db_next_id s) (db_task_default s) (clock s) (celery s)
    (queues s) v (dep_status s) (computers s)
    (dag_rel_loaded s).

Definition with_dep_status (v : gmap Z (gset TaskStatus)) (s : Supervisor)
  : Supervisor :=
  mkSupervisor (db_tasks s) (db_deps s) (db_dags s) (db_dockers s)
    (db_computers s) (db_next_id s) (db_task_default s) (clock s) (celery s)
    (queues s) (not_ran_tasks s) v (computers s)
    (dag_rel_loaded s).

Definition with_computers (v : list Computer) (s : Supervisor) : Supervisor :=
  mkSupervisor (db_tasks s) (db_deps s) (db_dags s) (db_dockers s)
    (db_computers s) (db_next_id s) (db_task_default s) (clock s) (celery s)
    (queues s) (not_ran_tasks s) (dep_status s) v
    (dag_rel_loaded s).

Definition with_dag_rel_loaded (v : bool) (s : Supervisor) : Supervisor :=
  mkSupervisor (db_tasks s) (db_deps s) (db_dags s) (db_dockers s)
    (db_computers s) (db_next_id s) (db_task_default s) (clock s) (celery s)
    (queues s) (not_ran_tasks s) (dep_status s) (computers s) v.

(** ** Exceptions and computations *)

Inductive Exn : Type :=
  | KeyError          (* a dict has no such key *)
  | IndexError        (* a list index out of range *)
  | AttributeError    (* the object has no such attribute *)
  | ValueError        (* [list.index] of an absent element *)
  | AllPortsTaken     (* [Exception('All ports in ... are taken')] *)
  | NoResultFound     (* a query for one row that finds none *)
  | NoSuchObject.     (* a position outside the table: no object there *)

Inductive Res (A : Type) : Type :=
  | Ok (a : A)
  | Raise (e : Exn).
Arguments Ok {A} a.
Arguments Raise {A} e.

Definition M (A : Type) : Type := Supervisor -> Res A * Supervisor.

Definition ret {A} (a : A) : M A := fun s => (Ok a, s).

Definition raise {A} (e : Exn) : M A := fun s => (Raise e, s).

Definition bind {A B} (m : M A) (k : A -> M B) : M B :=
  fun s =>
    match m s with
    | (Ok a, s1) => k a s1
    | (Raise e, s1) => (Raise e, s1)
    end.

Definition lift {A} (r : Res A) : M A := fun s => (r, s).

Definition gets {A} (f : Supervisor -> A) : M A := fun s => (Ok (f s), s).

Definition modify (f : Supervisor -> Supervisor) : M unit :=
  fun s => (Ok tt, f s).

Declare Scope sup_scope.
Delimit Scope sup_scope with sup.
Notation "'do' x <- m ; k" := (bind m (fun x => k))
  (at level 10, x pattern, m at level 100, k at level 200) : sup_scope.
Notation "m ;; k" := (bind m (fun _ => k))
  (at level 100, k at level 200, right associativity) : sup_scope.
Open Scope sup_scope.

Definition res_bind {A B} (r : Res A) (k : A -> Res B) : Res B :=
  match r with
  | Ok a => k a
  | Raise e => Raise e
  end.

(** ** Python helpers *)

(** [l[i] = x] on a list: a negative index counts from the end, an index
    outside [-len, len) raises [IndexError]. *)
Definition py_setitem {A} (l : list A) (i : Z) (x : A) : Res (list A) :=
  let n := Z.of_nat (length l) in
  if (0 <=? i) && (i <? n) then Ok (<[Z.to_nat i := x]> l)
  else if (- n <=? i) && (i <? 0) then Ok (<[Z.to_nat (n + i) := x]> l)
  else Raise IndexError.

(** [l.index(x)]: the first position of [x], [ValueError] when absent. *)
Fixpoint py_index (l : list Z) (x : Z) : Res Z :=
  match l with
  | [] => Raise ValueError
  | y :: l' =>
      if decide (y = x) then Ok 0
      else res_bind (py_index l' x) (fun i => Ok (1 + i))
  end.

(** [s.split(sep)] for a one-character separator. *)
Fixpoint py_split (sep : Ascii.ascii) (s : string) : list string :=
  match s with
  | EmptyString => [EmptyString]
  | String a s' =>
      if decide (a = sep) then EmptyString :: py_split sep s'
      else match py_split sep s' with
           | [] => [String a EmptyString]
           | w :: ws => String a w :: ws
           end
  end.

(** [a or b] on an optional string: [None] and the empty string are
    falsy. *)
Definition py_or (a : option string) (b : string) : string :=
  match a with
  | None => b
  | Some EmptyString => b
  | Some x => x
  end.

(** [s.append(x)] on a [set]: sets have [add] and no [append], the
    attribute lookup raises. *)
Definition py_set_append (s : gset TaskStatus) (x : TaskStatus)
  : Res (gset TaskStatus) :=
  Raise AttributeError.

(** The positions, from [i] on, of the elements of [l] satisfying [p]. *)
Fixpoint positions_from {A} (p : A -> bool) (i : nat) (l : list A)
  : list nat :=
  match l with
  | [] => []
  | x :: l' =>
      if p x then i :: positions_from p (S i) l'
      else positions_from p (S i) l'
  end.

(** ** The task provider ([mlcomp/db/providers/task.py]) *)

Definition status_in (sts : list TaskStatus) (t : Task) : bool :=
  bool_decide (t_status t ∈ sts).

(** [by_status]: the task objects with one of the statuses, in
    table order. *)
Definition by_status (sts : list TaskStatus) (s : Supervisor) : list nat :=
  positions_from (status_in sts) 0 (db_tasks s).

(** The objects behind a list of positions. *)
Definition objects (tasks : list Task) (refs : list nat) : list Task :=
  omap (fun i => tasks !! i) refs.

(** The rows of
    [query(TaskDependence, Task).filter(TaskDependence.task_id.in_(task_ids))
       .join(Task, Task.id == TaskDependence.depend_id)]. *)
Definition dependency_items (tasks : list Task) (deps : list TaskDependence)
    (task_ids : list Z) : list (TaskDependence * Task) :=
  flat_map
    (fun item =>
       if bool_decide (task_id item ∈ task_ids)
       then map (fun t => (item, t))
              (List.filter (fun t => bool_decide (t_id t = depend_id item))
                 tasks)
       else [])
    deps.

(** [for item, task in items: res[item.task_id].append(task.status)] *)
Fixpoint dependency_status_loop (items : list (TaskDependence * Task))
    (res : gmap Z (gset TaskStatus)) : Res (gmap Z (gset TaskStatus)) :=
  match items with
  | [] => Ok res
  | (item, task) :: items' =>
      match res !! task_id item with
      | None => Raise KeyError
      | Some deps_of_task =>
          res_bind (py_set_append deps_of_task (t_status task))
            (fun updated =>
               dependency_status_loop items'
                 (<[task_id item := updated]> res))
      end
  end.

Definition dependency_status (db : list Task) (deps : list TaskDependence)
    (tasks : list Task) : Res (gmap Z (gset TaskStatus)) :=
  let res := foldl (fun m t => <[t_id t := ∅]> m) ∅ tasks in
  let task_ids := map t_id tasks in
  dependency_status_loop (dependency_items db deps task_ids) res.

(** One row of [parent_tasks_stats]: the parent object, the earliest start
    and the latest finish among its children, and the number of children
    per status. *)
Definition opt_min (a b : option Z) : option Z :=
  match a, b with
  | Some x, Some y => Some (Z.min x y)
  | Some x, None => Some x
  | None, y => y
  end.

Definition opt_max (a b : option Z) : option Z :=
  match a, b with
  | Some x, Some y => Some (Z.max x y)
  | Some x, None => Some x
  | None, y => y
  end.

(** [func.count(task_child.status).filter(task_child.status == e.value)]
    over the statuses of the children of one parent. *)
Definition count_status (children : list TaskStatus) (e : TaskStatus) : Z :=
  Z.of_nat (length (List.filter (fun c => bool_decide (c = e)) children)).

(** [{e: s for e, s in zip(TaskStatus, statuses)}], the counts being
    selected in the order of [for e in TaskStatus]. *)
Definition status_counts (children : list TaskStatus)
  : list (TaskStatus * Z) :=
  zip TaskStatus_members (map (count_status children) TaskStatus_members).

(** The children joined to a parent: [task_parent.id == task_child.parent]. *)
Definition children_of (db : list Task) (p : Task) : list Task :=
  List.filter (fun c => bool_decide (t_parent c = Some (t_id p))) db.

Definition parent_tasks_stats (db : list Task)
  : list (nat * option Z * option Z * list (TaskStatus * Z)) :=
  flat_map
    (fun i =>
       match db !! i with
       | None => []
       | Some task =>
           let children := children_of db task in
           match children with
           | [] => []                (* the join keeps parents with a child *)
           | _ :: _ =>
               let started := foldr opt_min None (map t_started children) in
               let finished :=
                 foldr opt_max None (map t_finished children) in
               [(i, started, finished,
                 status_counts (map t_status children))]
           end
       end)
    (positions_from (status_in [Queued; InProgress]) 0 db).

(** [statuses[e]] on the dict of a row. *)
Fixpoint stat (statuses : list (TaskStatus * Z)) (e : TaskStatus) : Res Z :=
  match statuses with
  | [] => Raise KeyError
  | (k, v) :: rest => if decide (k = e) then Ok v else stat rest e
  end.

(** ** The supervisor ([mlcomp/server/back/supervisor.py]) *)

Definition get_task (i : nat) : M Task :=
  fun s =>
    match db_tasks s !! i with
    | Some t => (Ok t, s)
    | None => (Raise NoSuchObject, s)
    end.

Definition get_computer (k : nat) : M Computer :=
  fun s =>
    match computers s !! k with
    | Some c => (Ok c, s)
    | None => (Raise NoSuchObject, s)
    end.

Definition update_task (i : nat) (f : Task -> Task) : M unit :=
  modify (fun s => with_tasks (alter f i (db_tasks s)) s).

Definition update_computer (k : nat) (f : Computer -> Computer) : M unit :=
  modify (fun s => with_computers (alter f k (computers s)) s).

(** Modelled from the spec: the session and the [Task] model are not
    among the sources.  The spec has the dispatcher "persist these fields
    transactionally before the tick continues" (section 4.5), which the
    sources do with [provider.update()], [provider.add(...)] and
    [provider.commit()]: each commits the session.  A commit expires the
    objects of the session.  An expired task object reads its columns again
    from the table, but [dag_rel] is a relationship that only the query of
    [by_status] loads ([joinedload(Task.dag_rel)]), and on an expired object
    it reads [None]. *)
Definition commit : M unit := modify (with_dag_rel_loaded false).

(** [task.dag_rel], on a task object of [self.not_ran_tasks]. *)
Definition dag_rel_of (s : Supervisor) (t : Task) : option Dag :=
  if dag_rel_loaded s then db_dags s !! t_dag t else None.
Arguments dag_rel_of : simpl never.

(** [change_status] of the provider; [now()] reads the clock and
    [self.update()] commits. *)
Definition change_status (task : nat) (status : TaskStatus) : M unit :=
  do now <- gets clock;
  (if decide (status = InProgress)
   then update_task task (task_set_started (Some now))
   else if bool_decide (status ∈ [Failed; Stopped; Success])
   then update_task task (task_set_finished (Some now))
   else ret tt) ;;
  update_task task (task_set_status status) ;;
  commit.

Definition load_tasks : M unit :=
  do not_ran <- gets (by_status [NotRan]);
  (* the query loads [dag_rel] into the task objects it returns *)
  modify (with_dag_rel_loaded true) ;;
  do tasks <- gets db_tasks;
  let kept :=
    List.filter
      (fun i => match tasks !! i with
                | Some t => negb (t_debug t)
                | None => false
                end)
      not_ran in
  modify (with_not_ran_tasks kept) ;;
  do deps <- gets db_deps;
  do res <- lift (dependency_status tasks deps (objects tasks kept));
  modify (with_dep_status res).

(** The dict a computer starts the accounting with. *)
Definition init_computer (r : RawComputer) : Computer :=
  let gpu := replicate (Z.to_nat (r_gpu r)) 0 in
  mkComputer (r_name r) (r_ip r) (r_cpu r) (r_memory r) gpu ∅
    (r_cpu r) (r_memory r) (Z.of_nat (length gpu)).

(** The body of the accounting loop of [load_computers] for one Queued or
    InProgress task, on the dict of computers keyed by name. *)
Definition account_task (task : Task) (cs : list Computer)
  : Res (list Computer) :=
  match t_computer_assigned task with
  | None => Ok cs
  | Some assigned =>
      match list_find (fun c => c_name c = assigned) cs with
      | None => Raise KeyError
      | Some (i, c) =>
          let c1 := computer_set_cpu (c_cpu c - t_cpu task) c in
          res_bind
            (match t_gpu_assigned task with
             | None => Ok c1
             | Some g =>
                 res_bind (py_setitem (c_gpu c1) g (t_id task))
                   (fun gpu => Ok (computer_set_gpu gpu c1))
             end)
            (fun c2 =>
               let c3 :=
                 computer_set_memory (c_memory c2 - t_memory task)%float c2 in
               let c4 :=
                 match distr_info (t_additional_info task) with
                 | None => c3
                 | Some dist_info =>
                     if decide (rank dist_info = 0)
                     then computer_set_ports
                            ({[master_port dist_info]} ∪ c_ports c3) c3
                     else c3
                 end in
               Ok (<[i := c4]> cs))
      end
  end.

Fixpoint account_tasks (tasks : list Task) (cs : list Computer)
  : Res (list Computer) :=
  match tasks with
  | [] => Ok cs
  | task :: tasks' => res_bind (account_task task cs) (account_tasks tasks')
  end.

Definition load_computers : M unit :=
  do raw <- gets db_computers;
  let cs := map init_computer raw in
  do running <- gets (by_status [Queued; InProgress]);
  do tasks <- gets db_tasks;
  do cs' <- lift (account_tasks (objects tasks running) cs);
  modify (with_computers cs').

(** [execute.apply_async((task.id,), queue=queue)]; the handle returned is
    the number of the submission. *)
Definition apply_async (task : nat) (id : Z) (queue : string) : M Z :=
  fun s =>
    (Ok (Z.of_nat (length (celery s))),
     with_celery (celery s ++ [mkSent task id queue]) s).

(** The three assignments of [process_to_celery] to the task object. *)
Definition dispatched (r : Z) (computer_name : string) (t : Task) : Task :=
  task_set_celery_id (Some r)
    (task_set_computer_assigned (Some computer_name)
       (task_set_status Queued t)).

(** [process_to_celery]; its last statement, [self.provider.update()],
    commits, and is not reached when the slot assignment raises. *)
Definition process_to_celery (task : nat) (queue : string) (computer : nat)
  : M unit :=
  do t <- get_task task;
  do c <- get_computer computer;
  do r <- apply_async task (t_id t) queue;
  update_task task (dispatched r (c_name c)) ;;
  match t_gpu_assigned t with
  | Some g =>
      do gpu <- lift (py_setitem (c_gpu c) g (t_id t));
      update_computer computer (computer_set_gpu gpu) ;;
      update_computer computer (computer_set_cpu (c_cpu c - t_cpu t)) ;;
      update_computer computer
        (computer_set_memory (c_memory c - t_memory t)%float)
  | None => ret tt
  end ;;
  commit.

(** The row [create_service_task] builds: the keywords of [Task(...)] over
    the column defaults, then [additional_info] with its [distr_info]
    entry replaced when one is given. *)
Definition new_service_task (t dflt : Task) (new_id : Z)
    (gpu_assigned : option Z) (distr : option DistrInfo) : Task :=
  let info := t_additional_info t in
  let info' :=
    match distr with
    | Some d => mkInfo (Some d) (info_rest info)
    | None => info
    end in
  mkTask new_id (t_name t) NotRan Service (t_computer t)
    (t_cpu dflt) (t_memory dflt) (t_gpu dflt) gpu_assigned
    (t_computer_assigned dflt) (t_celery_id dflt) (Some (t_id t))
    (t_dag t) (t_debug dflt) info' (t_started dflt) (t_finished dflt).

(** [provider.add(new_task)]: the row gets the next id of the table and is
    a new object; the session is committed. *)
Definition create_service_task (task : nat) (gpu_assigned : option Z)
    (distr : option DistrInfo) : M nat :=
  do t <- get_task task;
  do dflt <- gets db_task_default;
  do new_id <- gets db_next_id;
  let new_task := new_service_task t dflt new_id gpu_assigned distr in
  do ref <- gets (fun s => length (db_tasks s));
  modify (fun s =>
            with_next_id (new_id + 1)
              (with_tasks (db_tasks s ++ [new_task]) s)) ;;
  commit ;;
  ret ref.

(** Modelled from the spec: [DockerProvider.get], called as
    [self.docker_provider.get(c['name'], docker_name)], is not among the
    sources.  The spec gives the registry the operation "get port range
    for a (computer, worker-image) pair" (section 6) and counts a referenced
    row that is not there as a collaborator error that ends the tick
    (section 7): the row of that computer and name, and [NoResultFound]
    when the table has none. *)
Definition docker_get (ds : list Docker) (computer name : string)
  : Res Docker :=
  match
    List.find
      (fun d => bool_decide (d_computer d = computer ∧ d_name d = name)) ds
  with
  | Some docker => Ok docker
  | None => Raise NoResultFound
  end.

Definition find_port (ds : list Docker) (c : Computer) (docker_name : string)
  : Res Z :=
  res_bind (docker_get ds (c_name c) docker_name)
    (fun docker =>
       let ports := d_ports docker in
       match List.find (fun p => bool_decide (p ∉ c_ports c))
               (seqZ ports.1 (ports.2 + 1 - ports.1)) with
       | Some p => Ok p
       | None => Raise AllPortsTaken
       end).

(** Why [valid_computer] turns a computer down (the source returns the
    text of the reason, and [None] for a computer that will do). *)
Inductive Reject : Type :=
  | OtherComputerPinned | NotEnoughCpu | NotEnoughMemory
  | QueueNotAlive | NoFreeGpu.

(** [f'{c["name"]}_{task.dag_rel.docker_img or "default"}']; reading
    [docker_img] off a missing [dag_rel] raises. *)
Definition queue_of (dag_rel : option Dag) (c : Computer) : Res string :=
  match dag_rel with
  | None => Raise AttributeError
  | Some d => Ok (c_name c +:+ "_" +:+ py_or (docker_img d) "default")
  end.

Definition gpu_is_free (g : Z) : bool := bool_decide (g = 0).

Definition valid_computer (qs : list string) (task : Task)
    (dag_rel : option Dag) (c : Computer) : Res (option Reject) :=
  if match t_computer task with
     | Some pinned => bool_decide (pinned ≠ c_name c)
     | None => false
     end
  then Ok (Some OtherComputerPinned)
  else if c_cpu c <? t_cpu task then Ok (Some NotEnoughCpu)
  else if (c_memory c <? t_memory task)%float then Ok (Some NotEnoughMemory)
  else
    res_bind (queue_of dag_rel c)
      (fun queue =>
         if bool_decide (queue ∉ qs) then Ok (Some QueueNotAlive)
         else if (0 <? t_gpu task) && negb (existsb gpu_is_free (c_gpu c))
         then Ok (Some NoFreeGpu)
         else Ok None).

(** The candidate computers, as positions in [self.computers] from [k]
    on. *)
Fixpoint valid_computers (qs : list string) (task : Task)
    (dag_rel : option Dag) (k : nat) (cs : list Computer) : Res (list nat) :=
  match cs with
  | [] => Ok []
  | c :: cs' =>
      res_bind (valid_computer qs task dag_rel c)
        (fun error =>
           res_bind (valid_computers qs task dag_rel (S k) cs')
             (fun rest =>
                Ok (match error with
                    | None => k :: rest
                    | Some _ => rest
                    end)))
  end.

(** [sum(g == 0 for g in c['gpu'])] *)
Definition free_slots (c : Computer) : Z :=
  Z.of_nat (length (List.filter gpu_is_free (c_gpu c))).

(** [sum(sum(g == 0 for g in c['gpu']) for c in computers)] *)
Definition free_gpu (cs : list Computer) (cands : list nat) : Z :=
  foldr Z.add 0 (map free_slots (omap (fun k => cs !! k) cands)).

(** An entry of [to_send]: the computer, the queue, the GPU index. *)
Definition Assignment : Type := nat * string * Z.

(** The loop over the slots of one computer:
    [index = 0
     for task_taken_gpu in computer['gpu']:
         if task_taken_gpu: continue
         to_send.append([computer, queue, index])
         computer_gpu_taken[computer['name']].append(int(index))
         index += 1
         if len(to_send) >= task.gpu: break]
    started with [index]. *)
Fixpoint take_slots (computer : nat) (name queue : string) (gpu : Z)
    (slots : list Z) (index : Z)
    (to_send : list Assignment) (computer_gpu_taken : gmap string (list Z))
  : list Assignment * gmap string (list Z) :=
  match slots with
  | [] => (to_send, computer_gpu_taken)
  | task_taken_gpu :: slots' =>
      if bool_decide (task_taken_gpu ≠ 0)
      then take_slots computer name queue gpu slots' index
             to_send computer_gpu_taken
      else
        let to_send' := to_send ++ [(computer, queue, index)] in
        let taken' :=
          <[name := (computer_gpu_taken !!! name) ++ [index]]>
            computer_gpu_taken in
        if Z.of_nat (length to_send') >=? gpu then (to_send', taken')
        else take_slots computer name queue gpu slots' (index + 1)
               to_send' taken'
  end.

(** The loop over the candidate computers: collect GPU slots for a task
    that asks for GPUs, dispatch to the first candidate otherwise. *)
Fixpoint place_loop (task : nat) (t : Task) (dag_rel : option Dag)
    (cands : list nat)
    (to_send : list Assignment) (computer_gpu_taken : gmap string (list Z))
  : M (list Assignment * gmap string (list Z)) :=
  match cands with
  | [] => ret (to_send, computer_gpu_taken)
  | computer :: cands' =>
      do c <- get_computer computer;
      do queue <- lift (queue_of dag_rel c);
      if 0 <? t_gpu t then
        let '(to_send', taken') :=
          take_slots computer (c_name c) queue (t_gpu t) (c_gpu c) 0
            to_send computer_gpu_taken in
        if Z.of_nat (length to_send') >=? t_gpu t
        then ret (to_send', taken')
        else place_loop task t dag_rel cands' to_send' taken'
      else
        process_to_celery task queue computer ;;
        ret (to_send, computer_gpu_taken)
  end.

(** The body of the loop over [to_send]: the service task of one entry. *)
Definition send_one (task : nat) (world_size : Z) (main_cmp : nat)
    (master_port : Z) (computer_gpu_taken : gmap string (list Z))
    (rank : Z) (entry : Assignment) : M unit :=
  let '(computer, queue, gpu_assigned) := entry in
  do c <- get_computer computer;
  let gpu_visible := computer_gpu_taken !!! c_name c in
  do m <- get_computer main_cmp;
  let ip :=
    if decide (c_name c = c_name m) then "localhost"%string
    else c_ip m in
  do local <- lift (py_index gpu_visible gpu_assigned);
  let distr := mkDistrInfo ip rank local master_port world_size in
  do service_task <-
    create_service_task task (Some gpu_assigned) (Some distr);
  process_to_celery service_task queue computer.

(** [for computer, queue, gpu_assigned in to_send: ...; rank += 1] *)
Fixpoint send_loop (task : nat) (world_size : Z) (main_cmp : nat)
    (master_port : Z) (computer_gpu_taken : gmap string (list Z))
    (rank : Z) (to_send : list Assignment) : M unit :=
  match to_send with
  | [] => ret tt
  | entry :: rest =>
      send_one task world_size main_cmp master_port computer_gpu_taken
        rank entry ;;
      send_loop task world_size main_cmp master_port computer_gpu_taken
        (rank + 1) rest
  end.

(** [to_send[0][1].split('_')[1]] *)
Definition docker_of_queue (queue : string) : Res string :=
  match py_split "_"%char queue !! 1%nat with
  | Some name => Ok name
  | None => Raise IndexError
  end.

Definition process_task (task : nat) : M unit :=
  do t <- get_task task;
  do dag_rel <- gets (fun s => dag_rel_of s t);
  do qs <- gets queues;
  do cs <- gets computers;
  do cands <- lift (valid_computers qs t dag_rel 0 cs);
  if free_gpu cs cands <? t_gpu t then ret tt
  else
    do (to_send, taken) <- place_loop task t dag_rel cands [] ∅;
    match to_send with
    | [] => ret tt
    | (main_cmp, queue, _) :: _ =>
        do m <- get_computer main_cmp;
        do docker_name <- lift (docker_of_queue queue);
        do ds <- gets db_dockers;
        do master_port <- lift (find_port ds m docker_name);
        send_loop task (t_gpu t) main_cmp master_port taken 0 to_send ;;
        update_task task (task_set_status Queued) ;;
        commit
    end.

(** The body of the loop of [process_tasks] for one task of
    [self.not_ran_tasks]. *)
Definition process_tasks_step (task : nat) : M unit :=
  do t <- get_task task;
  do dag_rel <- gets (fun s => dag_rel_of s t);
  match dag_rel with
  | None => ret tt
  | Some _ =>
      do dep <- gets dep_status;
      match dep !! t_id t with
      | None => raise KeyError
      | Some ds =>
          if bool_decide (Stopped ∈ ds) || bool_decide (Failed ∈ ds)
          then change_status task Skipped
          else if negb (Z.of_nat (size ds) =? 0)
                  && bool_decide (ds ≠ {[Success]})
          then ret tt
          else process_task task
      end
  end.

Fixpoint process_tasks_loop (tasks : list nat) : M unit :=
  match tasks with
  | [] => ret tt
  | task :: tasks' => process_tasks_step task ;; process_tasks_loop tasks'
  end.

Definition process_tasks : M unit :=
  do tasks <- gets not_ran_tasks;
  process_tasks_loop tasks.

(** The scheduling part of [build]: the three calls between
    [process_parent_tasks] and [write_auxiliary]. *)
Definition schedule : M unit :=
  load_tasks ;; load_computers ;; process_tasks.

(** The status [process_parent_tasks] computes for a row of
    [parent_tasks_stats]: the [if]/[elif] chain over the counts. *)
Definition parent_status (status : TaskStatus)
    (statuses : list (TaskStatus * Z)) : Res TaskStatus :=
  res_bind (stat statuses Failed) (fun failed =>
  if 0 <? failed then Ok Failed else
  res_bind (stat statuses Skipped) (fun skipped =>
  if 0 <? skipped then Ok Skipped else
  res_bind (stat statuses Queued) (fun queued =>
  if 0 <? queued then Ok Queued else
  res_bind (stat statuses InProgress) (fun in_progress =>
  if 0 <? in_progress then Ok InProgress else
  res_bind (stat statuses Success) (fun success =>
  if 0 <? success then Ok Success else Ok status))))).

(** ** Definitions used to state the properties *)

(** The precedence of the Status Aggregator as the specification words it:
    the first of Failed, Skipped, Queued, InProgress, Success found among
    the children, if any. *)
Definition precedence (children : list TaskStatus) : option TaskStatus :=
  List.find (fun e => bool_decide (e ∈ children))
    [Failed; Skipped; Queued; InProgress; Success].

(** The requests of the tasks assigned to the computer called [name],
    summed. *)
Definition requested (request : Task -> Z) (tasks : list Task)
    (name : string) : Z :=
  foldr Z.add 0
    (map request
       (List.filter
          (fun t => bool_decide (t_computer_assigned t = Some name)) tasks)).

(** What is left of [available] memory once the requests of the tasks
    assigned to the computer called [name] are subtracted from it one after
    the other, in the order of the list and in floating point, as the
    accounting loop does. *)
Definition memory_left (available : float) (tasks : list Task)
    (name : string) : float :=
  foldl (fun m t => (m - t_memory t)%float) available
    (List.filter
       (fun t => bool_decide (t_computer_assigned t = Some name)) tasks).

(** What a dispatch leaves alone in a computer dict: its name, its
    address and its reserved ports. *)
Definition same_host (c c' : Computer) : Prop :=
  c_name c' = c_name c
  /\ c_ip c' = c_ip c
  /\ c_ports c' = c_ports c.

(** [task] is a rank-0 task assigned to the computer called [name] and
    holding the rendezvous port [p]. *)
Definition reserves (name : string) (p : Z) (task : Task) : Prop :=
  t_computer_assigned task = Some name
  /\ exists di,
       distr_info (t_additional_info task) = Some di
       /\ rank di = 0
       /\ master_port di = p.

(** The task objects a stretch of the tick created: those past the end
    of the table it started with. *)
Definition created (s s' : Supervisor) : list Task :=
  drop (length (db_tasks s)) (db_tasks s').

(** [x] is a service task of the job of [t] whose rendezvous host has
    the given name and address: rank [r] of [world], on GPU [idx] of the
    computer called [cname], dispatched, with the rendezvous address the
    source computes and the port [port]. *)
Definition is_service_of (t : Task) (host_name host_ip : string)
    (port world r : Z) (cname : string) (idx : Z) (x : Task) : Prop :=
  t_parent x = Some (t_id t)
  /\ t_type x = Service
  /\ t_status x = Queued
  /\ t_gpu_assigned x = Some idx
  /\ t_computer_assigned x = Some cname
  /\ exists di,
       distr_info (t_additional_info x) = Some di
       /\ rank di = r
       /\ master_port di = port
       /\ world_size di = world
       /\ master_addr di
          = (if decide (cname = host_name) then "localhost"%string
             else host_ip).

(** An entry of [to_send] that the loop over [to_send] can serve: its
    computer exists, the queue is that computer's, the GPU index is within
    its slots and among the indices recorded for its name. *)
Definition entry_ok (cs : list Computer) (dag_rel : option Dag)
    (taken : gmap string (list Z)) (entry : Assignment) : Prop :=
  exists c,
    cs !! entry.1.1 = Some c
    /\ queue_of dag_rel c = Ok entry.1.2
    /\ 0 <= entry.2 < Z.of_nat (length (c_gpu c))
    /\ entry.2 ∈ taken !!! c_name c.

(** Computer dicts with the same name and address and as many GPU
    slots. *)
Definition same_slots (c c' : Computer) : Prop :=
  c_name c' = c_name c
  /\ c_ip c' = c_ip c
  /\ length (c_gpu c') = length (c_gpu c).

(** The docker whose port range [process_task] scans when [main] is the
    first computer of [to_send]: the second segment of its queue. *)
Definition docker_of (s : Supervisor) (t : Task) (main : nat) : Res string :=
  match computers s !! main with
  | None => Raise NoSuchObject
  | Some m =>
      res_bind (queue_of (dag_rel_of s t) m) docker_of_queue
  end.

(** The rendezvous port [process_task] allocates in that case. *)
Definition master_port_of (s : Supervisor) (t : Task) (main : nat) : Res Z :=
  match computers s !! main with
  | None => Raise NoSuchObject
  | Some m =>
      res_bind (docker_of s t main) (find_port (db_dockers s) m)
  end.

(** What a stretch of the placement phase leaves alone, when the only
    task objects it works on are those in [touched] and those created
    from position [n] on: the tables it only reads, the identity of each
    computer, every other task object below [n]; it submits no other
    task; it loads no [dag_rel] into task objects that have lost theirs;
    and when it has added a task object, it has committed since. *)
Record frame (touched : nat -> Prop) (n : nat) (s s' : Supervisor)
  : Prop := mkFrame {
  fr_deps : db_deps s' = db_deps s;
  fr_dags : db_dags s' = db_dags s;
  fr_dockers : db_dockers s' = db_dockers s;
  fr_raw : db_computers s' = db_computers s;
  fr_default : db_task_default s' = db_task_default s;
  fr_clock : clock s' = clock s;
  fr_queues : queues s' = queues s;
  fr_not_ran : not_ran_tasks s' = not_ran_tasks s;
  fr_dep_status : dep_status s' = dep_status s;
  fr_computers : Forall2 same_host (computers s) (computers s');
  fr_length : (length (db_tasks s) <= length (db_tasks s'))%nat;
  fr_tasks : forall i, (i < n)%nat -> ~ touched i ->
                       db_tasks s' !! i = db_tasks s !! i;
  fr_celery : exists new,
      celery s' = celery s ++ new
      /\ Forall (fun e => touched (sent_task e) \/ (n <= sent_task e)%nat) new;
  fr_loaded : dag_rel_loaded s = false -> dag_rel_loaded s' = false;
  fr_added : length (db_tasks s') = length (db_tasks s)
             \/ dag_rel_loaded s' = false
}.

(** A computation that, started with at least [n] task objects, stays
    within [frame touched n] whatever its outcome, and whose value
    satisfies [Q] when it returns one. *)
Definition framed {A} (touched : nat -> Prop) (n : nat) (Q : A -> Prop)
    (m : M A) : Prop :=
  forall s, (n <= length (db_tasks s))%nat ->
    frame touched n s (m s).2 /\ forall a, (m s).1 = Ok a -> Q a.


(** ** Further definitions of the supervisor and of the statements *)

Definition with_queues (v : list string) (s : Supervisor) : Supervisor :=
  mkSupervisor (db_tasks s) (db_deps s) (db_dags s) (db_dockers s)
    (db_computers s) (db_next_id s) (db_task_default s) (clock s) (celery s)
    v (not_ran_tasks s) (dep_status s) (computers s)
    (dag_rel_loaded s).

(** [create_base]: the alive queues,
    [[f'{d.computer}_{d.name}' for d in self.docker_provider.all()
      if d.last_activity >= now() - datetime.timedelta(seconds=10)]];
    [last_activity] is the heartbeat column of the docker rows, in
    seconds, as [now()] is.  (Creating the providers changes nothing.) *)
Definition create_base (last_activity : Docker -> Z) : M unit :=
  do ds <- gets db_dockers;
  do now <- gets clock;
  modify
    (with_queues
       (map (fun d => d_computer d +:+ "_" +:+ d_name d)
          (List.filter (fun d => now - 10 <=? last_activity d) ds))).

(** What [valid_computer] checks, said at once: the task is not pinned to
    another computer, its CPU and memory requests fit, the queue of the
    computer for the task's dag is alive and, for a task that asks for
    GPUs, a slot is free. *)
Definition accepts (qs : list string) (task : Task) (dag_rel : option Dag)
    (c : Computer) : Prop :=
  (t_computer task = None \/ t_computer task = Some (c_name c))
  /\ t_cpu task <= c_cpu c
  /\ (c_memory c <? t_memory task)%float = false
  /\ exists d,
       dag_rel = Some d
       /\ (c_name c +:+ "_" +:+ py_or (docker_img d) "default") ∈ qs
       /\ (0 < t_gpu task -> 0 ∈ c_gpu c).

(** The character [a] occurs in [s]. *)
Fixpoint has_char (a : Ascii.ascii) (s : string) : bool :=
  match s with
  | EmptyString => false
  | String b s' => if decide (b = a) then true else has_char a s'
  end.

(** What the placement phase may do to a task object: nothing, or give it
    a status of [sts] and record the computer and the job handle; every
    other column is kept. *)
Definition advanced (sts : list TaskStatus) (t t' : Task) : Prop :=
  t' = t
  \/ (t_status t' ∈ sts
      /\ t_id t' = t_id t
      /\ t_name t' = t_name t
      /\ t_type t' = t_type t
      /\ t_computer t' = t_computer t
      /\ t_cpu t' = t_cpu t
      /\ t_memory t' = t_memory t
      /\ t_gpu t' = t_gpu t
      /\ t_gpu_assigned t' = t_gpu_assigned t
      /\ t_parent t' = t_parent t
      /\ t_dag t' = t_dag t
      /\ t_debug t' = t_debug t
      /\ t_additional_info t' = t_additional_info t
      /\ t_started t' = t_started t
      /\ t_finished t' = t_finished t).

(** A task of the gate that [process_tasks] passes over: its [dag_rel]
    reads [None] (it has no dag, or its object has lost it), or its
    dependency statuses hold neither Stopped nor Failed and are neither
    empty nor exactly [{Success}]. *)
Definition passed_over (s : Supervisor) (t : Task) : Prop :=
  dag_rel_of s t = None
  \/ exists ds,
      dep_status s !! t_id t = Some ds
      /\ (Stopped ∉ ds)
      /\ (Failed ∉ ds)
      /\ ds <> ∅
      /\ ds <> {[ Success ]}.



(** Between two states of the task table: no task object is lost and
    each has only [advanced]. *)
Definition evolving (sts : list TaskStatus) (s s' : Supervisor) : Prop :=
  forall i t,
    db_tasks s !! i = Some t ->
    exists t', db_tasks s' !! i = Some t' /\ advanced sts t t'.

(** A computation that, whatever its outcome, only lets task objects
    advance. *)
Definition evolves {A} (sts : list TaskStatus) (m : M A) : Prop :=
  forall s, evolving sts s (m s).2.

(** The accounting loop of [load_computers] can serve [task] on the
    computer dicts [cs]: the task is assigned to no computer, or to one of
    [cs] and, if it holds a GPU, at an index Python accepts for that
    computer's slots. *)
Definition accountable (cs : list Computer) (task : Task) : Prop :=
  forall a,
    t_computer_assigned task = Some a ->
    exists c,
      c ∈ cs
      /\ c_name c = a
      /\ forall g,
           t_gpu_assigned task = Some g ->
           - Z.of_nat (length (c_gpu c)) <= g < Z.of_nat (length (c_gpu c)).

(** What a stretch of the placement phase submits: jobs for task objects
    of [allowed] or for task objects it created, and no two jobs for the
    same task object. *)
Definition submits (allowed : list nat) (s s' : Supervisor) : Prop :=
  (length (db_tasks s) <= length (db_tasks s'))%nat
  /\ exists new,
       celery s' = celery s ++ new
       /\ NoDup (sent_task <$> new)
       /\ Forall
            (fun e =>
               sent_task e ∈ allowed
               \/ (length (db_tasks s) <= sent_task e
                   < length (db_tasks s'))%nat)
            new.

(** Every dependency set of [self.dep_status] is empty. *)
Definition no_dependency (s : Supervisor) : Prop :=
  forall id ds, dep_status s !! id = Some ds -> ds = ∅.

(** ** Concrete tables *)

Module Ex.

Definition info0 : AdditionalInfo := mkInfo None "".

(** The column defaults used in the examples. *)
Definition default : Task :=
  mkTask 0 "" NotRan User None 1 0.1 0 None None None None 0 false info0
    None None.

(** A task of dag 7 in a given status. *)
Definition task (id : Z) (st : TaskStatus) (cpu : Z) (memory : float)
    (gpu : Z) : Task :=
  mkTask id "T" st User None cpu memory gpu None None None None 7 false
    info0 None None.

Definition child (id : Z) (st : TaskStatus) (parent : Z) : Task :=
  mkTask id "T" st Service None 1 0.1 0 None None None (Some parent) 7 false
    info0 None None.

(** Dag 7 runs on the default worker image, dag 8 on the image
    [gpuimg]. *)
Definition dags : gmap Z Dag :=
  {[ 7 := mkDag 7 None; 8 := mkDag 8 (Some "gpuimg"%string) ]}.

Definition sup (tasks : list Task) (deps : list TaskDependence)
    (dockers : list Docker) (qs : list string) (todo : list nat)
    (dep : gmap Z (gset TaskStatus)) (cs : list Computer) : Supervisor :=
  mkSupervisor tasks deps dags dockers [] 100 default 0 [] qs todo dep cs
    true.

(** One NotRan task depending on a finished one. *)
Definition dep_tasks : list Task :=
  [task 1 NotRan 1 1 0; task 2 Success 1 1 0].
Definition dep_edges : list TaskDependence := [mkDep 1 2].

(** The tables before a tick: nothing loaded yet. *)
Definition tables (tasks : list Task) (deps : list TaskDependence)
    (dockers : list Docker) (raws : list RawComputer) (qs : list string)
  : Supervisor :=
  mkSupervisor tasks deps dags dockers raws 100 default 0 [] qs [] ∅ []
    false.

(** A task already dispatched to a computer. *)
Definition running (id : Z) (st : TaskStatus) (cpu : Z) (memory : float)
    (assigned : string) (gpu_assigned : option Z) : Task :=
  mkTask id "R" st User None cpu memory 0 gpu_assigned (Some assigned)
    (Some 0) None 7 false info0 None None.

Definition A : RawComputer := mkRaw "A" "10.0.0.1" 8 16 2.
Definition docker_A : Docker := mkDocker "A" "default" (29500, 29510).

(** Computer A with one task (cpu 2, memory 4) running on it. *)
Definition accounted : Supervisor :=
  tables [running 1 Queued 2 4 "A" None] [] [docker_A] [A] ["A_default"%string].

(** A computer with one CPU holding a task that asks for two. *)
Definition overcommitted : Supervisor :=
  tables [running 1 InProgress 2 4 "B" None] [] []
    [mkRaw "B" "10.0.0.2" 1 1 0] [].

(** A computer with 0.3 of memory and three running tasks that ask for
    0.1 each. *)
Definition tenths : Supervisor :=
  tables
    [running 1 InProgress 1 0.1 "C" None; running 2 InProgress 1 0.1 "C" None;
     running 3 Queued 1 0.1 "C" None]
    [] [] [mkRaw "C" "10.0.0.3" 8 0.3 0] [].

(** The scenario of the specification: computer A (cpu 8, memory 16, two
    free GPUs), queue [A_default] alive, task T asking for cpu 2, memory 4
    and no GPU. *)
Definition scenario_cpu : Supervisor :=
  tables [task 1 NotRan 2 4 0] [] [docker_A] [A] ["A_default"%string].

(** Computer A with slot 0 held by the running task 7 and slot 1 free; a
    task asking for one GPU. *)
Definition scenario_gpu : Supervisor :=
  tables [running 7 InProgress 1 1 "A" (Some 0); task 1 NotRan 1 1 1] []
    [docker_A] [A] ["A_default"%string].

(** A NotRan task with its debug flag set, next to an ordinary one. *)
Definition debug_task : Task :=
  mkTask 1 "D" NotRan User None 2 4 0 None None None None 7 true info0
    None None.

Definition with_debug : Supervisor :=
  tables [debug_task; task 2 NotRan 2 4 0] [] [docker_A] [A]
    ["A_default"%string].


(** The gate's input for two NotRan tasks: task 1 depends on a task whose
    status is [upstream], task 2 depends on nothing. *)
Definition gated (upstream : TaskStatus) : Supervisor :=
  sup [task 1 NotRan 1 1 0; task 2 NotRan 1 1 0] [] [docker_A]
    ["A_default"%string] [0%nat; 1%nat]
    {[ 1 := {[ upstream ]}; 2 := ∅ ]} [init_computer A].


(** A NotRan task of a given dag that asks for GPUs. *)
Definition gpu_task (id dag gpu : Z) : Task :=
  mkTask id "G" NotRan Train None 1 1 gpu None None None None dag false
    info0 None None.

(** Rank 0 of an earlier job, running on GPU 0 of its computer and
    holding the rendezvous port 29500. *)
Definition rank0 (id : Z) (assigned : string) : Task :=
  mkTask id "G" InProgress Service None 1 0 0 (Some 0) (Some assigned)
    (Some 0) (Some 50) 7 false
    (mkInfo (Some (mkDistrInfo "localhost" 0 0 29500 1)) "") None None.

Definition A1 : RawComputer := mkRaw "A" "10.0.0.1" 8 16 1.
Definition B1 : RawComputer := mkRaw "B" "10.0.0.2" 8 16 1.
Definition docker_B : Docker := mkDocker "B" "default" (29500, 29510).
Definition docker_A_one_port : Docker := mkDocker "A" "default" (29500, 29500).

(** Computer A with two free GPUs and one task asking for two. *)
Definition two_gpus : Supervisor :=
  sup [gpu_task 1 7 2] [] [docker_A] ["A_default"%string] [0%nat]
    {[ 1 := ∅ ]} [init_computer A].

(** Computers A and B with one free GPU each and one task asking for
    two. *)
Definition two_computers : Supervisor :=
  sup [gpu_task 1 7 2] [] [docker_A; docker_B]
    ["A_default"%string; "B_default"%string] [0%nat]
    {[ 1 := ∅ ]} [init_computer A1; init_computer B1].

(** Computer A with GPU 0 and its only rendezvous port held by a running
    rank 0, one GPU free, and a task asking for one GPU. *)
Definition port_taken : Supervisor :=
  tables [rank0 9 "A"; gpu_task 1 7 1] [] [docker_A_one_port] [A]
    ["A_default"%string].

(** A computer whose name holds an underscore, with its docker of the
    default image, one free GPU and every port free, and a task asking for
    one GPU. *)
Definition underscored : Supervisor :=
  tables [gpu_task 1 7 1] []
    [mkDocker "gpu_box" "default" (29500, 29510)]
    [mkRaw "gpu_box" "10.0.0.4" 8 16 1] ["gpu_box_default"%string].


(** The supervisor once the tasks and computers of the tick are loaded. *)
Definition loaded (s : Supervisor) : Supervisor :=
  (load_computers (load_tasks s).2).2.

(** The rendezvous ports carried by the task objects of a table. *)
Definition master_ports (tasks : list Task) : list Z :=
  omap (fun x => master_port <$> distr_info (t_additional_info x)) tasks.

(** The rank, the computer and the rendezvous address of the service
    tasks of a table. *)
Definition addresses (tasks : list Task)
  : list (Z * option string * string) :=
  omap
    (fun x =>
       (fun di => (rank di, t_computer_assigned x, master_addr di))
         <$> distr_info (t_additional_info x))
    tasks.

(** Computer A with GPU 0 and port 29500 held by a running rank 0, and
    ports 29500 to 29510 to choose from. *)
Definition port_in_use : Supervisor :=
  tables [rank0 9 "A"; gpu_task 1 7 1] [] [docker_A] [A]
    ["A_default"%string].

(** A task running on a computer that is not registered. *)
Definition unregistered : Supervisor :=
  tables [running 1 InProgress 2 4 "Z" None] [] [docker_A] [A]
    ["A_default"%string].

(** Computer A (two slots) and a task that claims GPU 5. *)
Definition out_of_range : Supervisor :=
  tables
    [mkTask 1 "T" NotRan User None 1 1 0 (Some 5) None None None 7 false
       info0 None None]
    [] [docker_A] [A] ["A_default"%string].

(** A child with its start and finish times. *)
Definition timed_child (id : Z) (st : TaskStatus) (parent : Z)
    (started finished : option Z) : Task :=
  mkTask id "T" st Service None 1 0 0 None None None (Some parent) 7 false
    info0 started finished.

(** A running parent with a finished child, a running one and one that
    has not started. *)
Definition timed : list Task :=
  [task 1 InProgress 1 1 0;
   timed_child 2 Success 1 (Some 3) (Some 9);
   timed_child 3 InProgress 1 (Some 5) None;
   timed_child 4 Queued 1 None None].

End Ex.

(** * Properties *)

(** ** Positions and objects *)

Lemma positions_from_lookup {A} (p : A -> bool) (l : list A) (k i : nat) :
  i ∈ positions_from p k l <->
  (k <= i)%nat /\ exists x, l !! (i - k)%nat = Some x /\ p x = true.
Proof.
  revert k. induction l as [|a l IH]; intros k; simpl.
  - split; [intros H; inversion H | intros (_ & x & H & _); discriminate].
  - assert (Hrec : i ∈ positions_from p (S k) l <->
                   (k < i)%nat /\ exists x, l !! (i - S k)%nat = Some x
                                            /\ p x = true).
    { rewrite IH. split; intros [? ?]; split; auto; lia. }
    destruct (p a) eqn:Hp.
    + rewrite elem_of_cons, Hrec. split.
      * intros [-> | (Hlt & x & Hx & Hpx)].
        -- split; [lia|]. exists a. rewrite Nat.sub_diag. auto.
        -- split; [lia|]. exists x. split; auto.
           replace (i - k)%nat with (S (i - S k)) by lia. exact Hx.
      * intros (Hle & x & Hx & Hpx).
        destruct (decide (i = k)) as [->|Hne]; [by left|right].
        split; [lia|]. exists x. split; auto.
        replace (i - k)%nat with (S (i - S k)) in Hx by lia. exact Hx.
    + rewrite Hrec. split.
      * intros (Hlt & x & Hx & Hpx). split; [lia|]. exists x. split; auto.
        replace (i - k)%nat with (S (i - S k)) by lia. exact Hx.
      * intros (Hle & x & Hx & Hpx).
        destruct (decide (i = k)) as [->|Hne].
        -- rewrite Nat.sub_diag in Hx. simpl in Hx. congruence.
        -- split; [lia|]. exists x. split; auto.
           replace (i - k)%nat with (S (i - S k)) in Hx by lia. exact Hx.
Qed.

Lemma objects_positions_from (p : Task -> bool) (pre l : list Task) :
  objects (pre ++ l) (positions_from p (length pre) l) = List.filter p l.
Proof.
  revert pre. induction l as [|a l IH]; intros pre; simpl; [done|].
  assert (Hnext : objects (pre ++ a :: l)
                    (positions_from p (S (length pre)) l) = List.filter p l).
  { specialize (IH (pre ++ [a])). rewrite <- app_assoc in IH. simpl in IH.
    rewrite length_app in IH. simpl in IH.
    replace (length pre + 1)%nat with (S (length pre)) in IH by lia.
    exact IH. }
  destruct (p a).
  - rewrite <- Hnext. unfold objects. simpl.
    rewrite lookup_app_r by lia. rewrite Nat.sub_diag. done.
  - exact Hnext.
Qed.

(** The objects [by_status] returns are the rows with these statuses. *)
Lemma objects_by_status (sts : list TaskStatus) (s : Supervisor) :
  objects (db_tasks s) (by_status sts s)
  = List.filter (status_in sts) (db_tasks s).
Proof. apply (objects_positions_from (status_in sts) [] (db_tasks s)). Qed.

(** ** The dependency-status query *)

Lemma dependency_status_keys (tasks : list Task) (id : Z) :
  id ∈ map t_id tasks ->
  forall m : gmap Z (gset TaskStatus),
    is_Some (foldl (fun m t => <[t_id t := ∅]> m) m tasks !! id).
Proof.
  induction tasks as [|t tasks IH]; simpl; intros Hin m.
  - inversion Hin.
  - apply elem_of_cons in Hin as [-> | Hin]; [|by apply IH].
    clear IH. revert m. induction tasks as [|u tasks IH]; intros m; simpl.
    + rewrite lookup_insert_eq. eauto.
    + destruct (decide (t_id u = t_id t)) as [Heq|Hne].
      * rewrite Heq, insert_insert_eq. apply IH.
      * rewrite insert_insert_ne by done. apply IH.
Qed.

Lemma dependency_items_task_id db deps ids item task :
  (item, task) ∈ dependency_items db deps ids -> task_id item ∈ ids.
Proof.
  unfold dependency_items. rewrite list_elem_of_In, in_flat_map.
  intros (d & _ & Hin). case_bool_decide as Hd; [|inversion Hin].
  apply in_map_iff in Hin as (t & Heq & _). by inversion Heq; subst.
Qed.

(** Without any dependency edge among the tasks the query returns the
    empty set for each of them. *)
Lemma dependency_status_no_dependency db deps tasks :
  dependency_items db deps (map t_id tasks) = [] ->
  dependency_status db deps tasks
  = Ok (foldl (fun m t => <[t_id t := ∅]> m) ∅ tasks).
Proof. unfold dependency_status. by intros ->. Qed.

(** With at least one dependency edge the query raises: the first row
    reaches [append] on a set. *)
Lemma dependency_status_with_dependency db deps tasks :
  dependency_items db deps (map t_id tasks) <> [] ->
  dependency_status db deps tasks = Raise AttributeError.
Proof.
  unfold dependency_status. intros Hne.
  destruct (dependency_items db deps (map t_id tasks)) as [|[item task] rest]
    eqn:Hitems; [done|].
  simpl.
  assert (Hin : task_id item ∈ map t_id tasks).
  { apply (dependency_items_task_id db deps _ item task).
    rewrite Hitems. left. }
  destruct (dependency_status_keys tasks _ Hin ∅) as [st ->]. done.
Qed.

(** C1, at a failing input: one NotRan task (id 1) that depends on a
    Success task (id 2).  The dependency-status computation does not return
    the mapping [{1: {Success}}]: it raises [AttributeError], and so does
    [load_tasks], leaving [dep_status] as it was. *)
Theorem dependency_status_raises_on_dependency :
  dependency_status Ex.dep_tasks Ex.dep_edges [Ex.task 1 NotRan 1 1 0]
  = Raise AttributeError
  /\ (load_tasks (Ex.sup Ex.dep_tasks Ex.dep_edges [] [] [] ∅ [])).1
     = Raise AttributeError
  /\ dep_status
       (load_tasks (Ex.sup Ex.dep_tasks Ex.dep_edges [] [] [] ∅ [])).2 = ∅.
Proof. repeat split; vm_compute; reflexivity. Qed.

(** ** The Status Aggregator *)

Lemma stat_status_counts (children : list TaskStatus) (e : TaskStatus) :
  stat (status_counts children) e = Ok (count_status children e).
Proof. destruct e; reflexivity. Qed.

Lemma count_status_pos (children : list TaskStatus) (e : TaskStatus) :
  (0 <? count_status children e) = bool_decide (e ∈ children).
Proof.
  unfold count_status. induction children as [|c children IH]; simpl.
  - reflexivity.
  - destruct (decide (c = e)) as [->|Hne].
    + rewrite bool_decide_eq_true_2 by done. simpl length.
      rewrite (bool_decide_eq_true_2 (e ∈ e :: children)) by left.
      apply Z.ltb_lt. lia.
    + rewrite bool_decide_eq_false_2 by done. rewrite IH.
      apply bool_decide_ext. rewrite elem_of_cons.
      split; [tauto | intros [Heq|?]; [congruence | done]].
Qed.

(** On the counts of a row the [if]/[elif] chain is the precedence. *)
Lemma parent_status_counts (current : TaskStatus)
    (children : list TaskStatus) :
  parent_status current (status_counts children)
  = Ok (default current (precedence children)).
Proof.
  unfold parent_status, precedence.
  rewrite !stat_status_counts. simpl.
  rewrite !count_status_pos.
  repeat (case_bool_decide; [reflexivity|]). reflexivity.
Qed.

Lemma parent_tasks_stats_row db i started finished statuses :
  (i, started, finished, statuses) ∈ parent_tasks_stats db ->
  exists task,
    db !! i = Some task
    /\ t_status task ∈ [Queued; InProgress]
    /\ children_of db task <> []
    /\ statuses = status_counts (map t_status (children_of db task)).
Proof.
  unfold parent_tasks_stats. rewrite list_elem_of_In, in_flat_map.
  intros (j & Hj & Hrow).
  apply list_elem_of_In, positions_from_lookup in Hj as (_ & x & Hx & Hp).
  rewrite Nat.sub_0_r in Hx. rewrite Hx in Hrow.
  destruct (children_of db x) as [|c cs] eqn:Hch; [inversion Hrow|].
  destruct Hrow as [Heq | []]. inversion Heq; subst. clear Heq.
  exists x. rewrite Hch. repeat split; auto.
  unfold status_in in Hp. by apply bool_decide_eq_true in Hp.
Qed.

(** C6.  Every parent task that is Queued or InProgress and has at
    least one child gets a row of [parent_tasks_stats], and on any row of
    that parent the status computed by [process_parent_tasks] is the first
    of Failed, Skipped, Queued, InProgress, Success found among the
    children's statuses (the stored status when none of the five
    occurs). *)
Theorem parent_status_precedence (db : list Task) (i : nat) (task : Task) :
  db !! i = Some task ->
  t_status task ∈ [Queued; InProgress] ->
  children_of db task <> [] ->
  (exists started finished statuses,
      (i, started, finished, statuses) ∈ parent_tasks_stats db)
  /\ forall started finished statuses,
       (i, started, finished, statuses) ∈ parent_tasks_stats db ->
       parent_status (t_status task) statuses
       = Ok (default (t_status task)
               (precedence (map t_status (children_of db task)))).
Proof.
  intros Hi Hst Hch. split.
  - destruct (children_of db task) as [|c cs] eqn:Hchildren; [done|].
    do 3 eexists. unfold parent_tasks_stats.
    rewrite list_elem_of_In, in_flat_map. exists i. split.
    + apply list_elem_of_In, positions_from_lookup. split; [lia|].
      exists task. rewrite Nat.sub_0_r. split; [exact Hi|].
      unfold status_in. by apply bool_decide_eq_true_2.
    + rewrite Hi, Hchildren. left. reflexivity.
  - intros started finished statuses Hrow.
    destruct (parent_tasks_stats_row _ _ _ _ _ Hrow)
      as (task' & Hi' & _ & _ & ->).
    rewrite Hi in Hi'. injection Hi' as <-. apply parent_status_counts.
Qed.

(** The three examples of the specification: children [{Success,
    InProgress}] give InProgress, [{Success, Failed}] give Failed, and
    [{Success}] alone gives Success. *)
Lemma parent_status_precedence_witness :
  parent_status Queued (status_counts [Success; InProgress]) = Ok InProgress
  /\ parent_status InProgress (status_counts [Success; Failed]) = Ok Failed
  /\ parent_status InProgress (status_counts [Success]) = Ok Success.
Proof.
  split; [|split].
  - apply (proj2 (parent_status_precedence
                    [Ex.task 1 Queued 1 1 0; Ex.child 2 Success 1;
                     Ex.child 3 InProgress 1]
                    0%nat (Ex.task 1 Queued 1 1 0) eq_refl
                    ltac:(left) ltac:(vm_compute; discriminate))
             None None).
    vm_compute. left.
  - apply (proj2 (parent_status_precedence
                    [Ex.task 1 InProgress 1 1 0; Ex.child 2 Success 1;
                     Ex.child 3 Failed 1]
                    0%nat (Ex.task 1 InProgress 1 1 0) eq_refl
                    ltac:(right; left) ltac:(vm_compute; discriminate))
             None None).
    vm_compute. left.
  - apply (proj2 (parent_status_precedence
                    [Ex.task 1 InProgress 1 1 0; Ex.child 2 Success 1]
                    0%nat (Ex.task 1 InProgress 1 1 0) eq_refl
                    ltac:(right; left) ltac:(vm_compute; discriminate))
             None None).
    vm_compute. left.
Defined.

(** ** Capacity accounting *)

Lemma account_task_inv (task : Task) (cs cs1 : list Computer) :
  account_task task cs = Ok cs1 ->
  (t_computer_assigned task = None /\ cs1 = cs)
  \/ exists i c c',
      t_computer_assigned task = Some (c_name c)
      /\ cs !! i = Some c
      /\ cs1 = <[i := c']> cs
      /\ c_name c' = c_name c
      /\ c_cpu_total c' = c_cpu_total c
      /\ c_memory_total c' = c_memory_total c
      /\ c_cpu c' = c_cpu c - t_cpu task
      /\ c_memory c' = (c_memory c - t_memory task)%float.
Proof.
  unfold account_task.
  destruct (t_computer_assigned task) as [assigned|] eqn:Hassigned;
    [|intros [= <-]; by left].
  destruct (list_find _ cs) as [[i c]|] eqn:Hfind; [|discriminate].
  apply list_find_Some in Hfind as (Hi & Hname & _). subst assigned.
  intros H. right. exists i, c.
  destruct (t_gpu_assigned task) as [g|]; simpl in H.
  - destruct (py_setitem (c_gpu c) g (t_id task)) as [gpu|] eqn:Hset;
      simpl in H; [|discriminate].
    injection H as <-. eexists.
    split; [reflexivity|]. split; [exact Hi|]. split; [reflexivity|].
    destruct (distr_info _) as [di|]; try destruct (decide _);
      repeat split; reflexivity.
  - injection H as <-. eexists.
    split; [reflexivity|]. split; [exact Hi|]. split; [reflexivity|].
    destruct (distr_info _) as [di|]; try destruct (decide _);
      repeat split; reflexivity.
Qed.

Lemma requested_cons_other request task tasks name :
  t_computer_assigned task <> Some name ->
  requested request (task :: tasks) name = requested request tasks name.
Proof.
  intros H. unfold requested. simpl.
  by rewrite bool_decide_eq_false_2.
Qed.

Lemma requested_cons_same request task tasks name :
  t_computer_assigned task = Some name ->
  requested request (task :: tasks) name
  = request task + requested request tasks name.
Proof.
  intros H. unfold requested. simpl.
  by rewrite bool_decide_eq_true_2.
Qed.

Lemma memory_left_cons_other available task tasks name :
  t_computer_assigned task <> Some name ->
  memory_left available (task :: tasks) name
  = memory_left available tasks name.
Proof.
  intros H. unfold memory_left. simpl.
  by rewrite bool_decide_eq_false_2.
Qed.

Lemma memory_left_cons_same available task tasks name :
  t_computer_assigned task = Some name ->
  memory_left available (task :: tasks) name
  = memory_left (available - t_memory task)%float tasks name.
Proof.
  intros H. unfold memory_left. simpl.
  by rewrite bool_decide_eq_true_2.
Qed.

(** The accounting loop subtracts from each computer the requests of the
    tasks assigned to it, and leaves names and totals alone. *)
Lemma account_tasks_inv (tasks : list Task) :
  forall cs cs' : list Computer,
    NoDup (map c_name cs) ->
    account_tasks tasks cs = Ok cs' ->
    length cs' = length cs
    /\ forall k c', cs' !! k = Some c' ->
       exists c,
         cs !! k = Some c
         /\ c_name c' = c_name c
         /\ c_cpu_total c' = c_cpu_total c
         /\ c_memory_total c' = c_memory_total c
         /\ c_cpu c' = c_cpu c - requested t_cpu tasks (c_name c)
         /\ c_memory c' = memory_left (c_memory c) tasks (c_name c).
Proof.
  induction tasks as [|task tasks IH]; intros cs cs' Hnd; simpl.
  - intros [= <-]. split; [done|]. intros k c' Hk. exists c'.
    unfold requested, memory_left. simpl. repeat split; auto; lia.
  - destruct (account_task task cs) as [cs1|] eqn:Hstep; simpl; [|done].
    intros Hrest.
    apply account_task_inv in Hstep
      as [[Hnone ->] | (i & c & c1 & Has & Hi & -> & Hn & Hct & Hmt & Hc & Hm)].
    + destruct (IH _ _ Hnd Hrest) as [Hlen Hall]. split; [done|].
      intros k c' Hk. destruct (Hall k c' Hk) as (c & Hck & ? & ? & ? & ? & ?).
      exists c. rewrite !requested_cons_other by (rewrite Hnone; done).
      rewrite memory_left_cons_other by (rewrite Hnone; done).
      repeat split; auto.
    + assert (Hnames : map c_name (<[i := c1]> cs) = map c_name cs).
      { rewrite list_fmap_insert, Hn. apply list_insert_id.
        by rewrite list_lookup_fmap, Hi. }
      assert (Hnd1 : NoDup (map c_name (<[i := c1]> cs)))
        by (by rewrite Hnames).
      destruct (IH _ _ Hnd1 Hrest) as [Hlen Hall].
      rewrite length_insert in Hlen. split; [done|].
      intros k c' Hk.
      destruct (Hall k c' Hk) as (c0 & Hck & Hn0 & Hct0 & Hmt0 & Hc0 & Hm0).
      destruct (decide (k = i)) as [->|Hne].
      * rewrite list_lookup_insert_eq in Hck
          by (by apply lookup_lt_Some in Hi).
        injection Hck as <-. exists c.
        rewrite !requested_cons_same by done.
        rewrite memory_left_cons_same by done.
        rewrite Hn in *. repeat split; auto; try congruence; lia.
      * rewrite list_lookup_insert_ne in Hck by done.
        exists c0.
        assert (Hother : c_name c0 <> c_name c).
        { intros Heq. apply Hne.
          apply (NoDup_lookup (map c_name cs) k i (c_name c0)); auto.
          - by rewrite list_lookup_fmap, Hck.
          - by rewrite list_lookup_fmap, Hi, Heq. }
        rewrite !requested_cons_other by (rewrite Has; congruence).
        rewrite memory_left_cons_other by (rewrite Has; congruence).
        repeat split; auto.
Qed.

(** C7, as amended.  When Capacity Accounting completes, every computer
    of [self.computers] carries the total capacity it was registered with;
    its available CPU is the total minus the summed CPU requests of the
    Queued or InProgress tasks assigned to it, and is non-negative exactly
    when those requests do not exceed the total; its available memory is
    the total with the memory requests of those tasks subtracted from it
    one after the other, in table order and in floating point. *)
Theorem load_computers_accounting (s s' : Supervisor) :
  NoDup (map r_name (db_computers s)) ->
  load_computers s = (Ok tt, s') ->
  length (computers s') = length (db_computers s)
  /\ forall k c, computers s' !! k = Some c ->
     let running :=
       List.filter (status_in [Queued; InProgress]) (db_tasks s) in
     exists r,
       db_computers s !! k = Some r
       /\ c_name c = r_name r
       /\ c_cpu_total c = r_cpu r
       /\ c_memory_total c = r_memory r
       /\ c_cpu c = c_cpu_total c - requested t_cpu running (c_name c)
       /\ (0 <= c_cpu c <-> requested t_cpu running (c_name c) <= c_cpu_total c)
       /\ c_memory c = memory_left (c_memory_total c) running (c_name c).
Proof.
  intros Hnd. unfold load_computers, bind, gets, lift, modify. simpl.
  rewrite objects_by_status.
  destruct (account_tasks _ _) as [cs'|] eqn:Hacc; [|discriminate].
  intros [= <-]. simpl.
  assert (Hnd' : NoDup (map c_name (map init_computer (db_computers s)))).
  { rewrite map_map. simpl. exact Hnd. }
  destruct (account_tasks_inv _ _ _ Hnd' Hacc) as [Hlen Hall].
  rewrite length_map in Hlen. split; [done|].
  intros k c Hk.
  destruct (Hall k c Hk) as (c0 & Hc0 & Hn & Hct & Hmt & Hc & Hm).
  rewrite list_lookup_fmap in Hc0.
  destruct (db_computers s !! k) as [r|] eqn:Hr; [|discriminate].
  injection Hc0 as <-. simpl in *. exists r.
  rewrite Hn, Hct, Hmt, Hc, Hm.
  repeat split; auto; lia.
Qed.

Lemma load_computers_accounting_witness :
  NoDup (map r_name (db_computers Ex.accounted))
  /\ load_computers Ex.accounted = (Ok tt, (load_computers Ex.accounted).2)
  /\ ((fun c => (c_cpu c, c_memory c))
        <$> computers (load_computers Ex.accounted).2)
     = [(6, 12%float)]
  /\ length (computers (load_computers Ex.accounted).2)
     = length (db_computers Ex.accounted).
Proof.
  assert (Hnd : NoDup (map r_name (db_computers Ex.accounted))).
  { apply (bool_decide_unpack _). vm_compute. exact I. }
  assert (Hrun : load_computers Ex.accounted
                 = (Ok tt, (load_computers Ex.accounted).2)).
  { vm_compute. reflexivity. }
  split; [exact Hnd|]. split; [exact Hrun|]. split; [vm_compute; reflexivity|].
  exact (proj1 (load_computers_accounting _ _ Hnd Hrun)).
Defined.

(** C7 as stated fails.  Accounting leaves a computer with one CPU and a
    running task that asks for two at an available CPU of -1 (and an
    available memory of -3).  And available memory is not the total minus
    the sum of the requests: with a total of 0.3 and three running tasks
    that ask for 0.1 each, the three subtractions leave -2^-55, which is
    negative and is not 0.3 - (0.1 + 0.1 + 0.1). *)
Lemma load_computers_negative :
  (load_computers Ex.overcommitted).1 = Ok tt
  /\ (c_cpu <$> computers (load_computers Ex.overcommitted).2) = [-1]
  /\ (c_memory <$> computers (load_computers Ex.overcommitted).2)
     = [(-3)%float]
  /\ (c_cpu_total <$> computers (load_computers Ex.overcommitted).2) = [1]
  /\ (load_computers Ex.tenths).1 = Ok tt
  /\ (c_memory <$> computers (load_computers Ex.tenths).2)
     = [(-0x1p-55)%float]
  /\ (-0x1p-55 <? 0)%float = true
  /\ (-0x1p-55 =? 0.3 - (0.1 + 0.1 + 0.1))%float = false.
Proof. repeat split; vm_compute; reflexivity. Qed.

(** ** Dispatch and the capacity seen by later placements *)

(** C4, at a failing input: the scenario of the specification.  The tick
    places T on A, and A's available CPU is still 8 (not 6) and its
    available memory still 16: [process_to_celery] subtracts the request
    only under [task.gpu_assigned is not None]. *)
Theorem dispatch_without_gpu_keeps_capacity :
  (schedule Ex.scenario_cpu).1 = Ok tt
  /\ ((fun t => (t_status t, t_computer_assigned t))
        <$> db_tasks (schedule Ex.scenario_cpu).2)
     = [(Queued, Some "A"%string)]
  /\ ((fun c => (c_name c, c_cpu c, c_memory c))
        <$> computers (schedule Ex.scenario_cpu).2)
     = [("A"%string, 8, 16%float)].
Proof. repeat split; vm_compute; reflexivity. Qed.

(** ** Collecting GPU slots *)

(** C5, at a failing input: computer A with slot 0 held by task 7 and slot
    1 free, and a task asking for one GPU.  The entry collected names slot
    0, the occupied one: [index] is not advanced over a taken slot.  The
    service task is given GPU 0 and the dispatch overwrites the slot of
    task 7, while slot 1 stays free. *)
Theorem collected_slot_is_occupied :
  (c_gpu <$> computers (load_computers Ex.scenario_gpu).2) = [[7; 0]]
  /\ take_slots 0 "A" "A_default" 1 [7; 0] 0 [] ∅
     = ([(0%nat, "A_default"%string, 0)], {[ "A"%string := [0] ]})
  /\ (schedule Ex.scenario_gpu).1 = Ok tt
  /\ ((fun t => (t_id t, t_type t, t_gpu_assigned t))
        <$> db_tasks (schedule Ex.scenario_gpu).2)
     = [(7, User, Some 0); (1, User, None); (100, Service, Some 0)]
  /\ (c_gpu <$> computers (schedule Ex.scenario_gpu).2) = [[100; 0]].
Proof. repeat split; vm_compute; reflexivity. Qed.

(** ** What the placement phase leaves alone *)

Lemma same_host_refl c : same_host c c.
Proof. by repeat split. Qed.

Lemma same_host_trans c1 c2 c3 :
  same_host c1 c2 -> same_host c2 c3 -> same_host c1 c3.
Proof.
  intros (? & ? & ?) (? & ? & ?). repeat split; congruence.
Qed.

Lemma same_hosts_refl cs : Forall2 same_host cs cs.
Proof. induction cs; constructor; auto using same_host_refl. Qed.

Lemma same_hosts_trans cs1 cs2 cs3 :
  Forall2 same_host cs1 cs2 -> Forall2 same_host cs2 cs3 ->
  Forall2 same_host cs1 cs3.
Proof.
  intros H. revert cs3. induction H; intros cs3 H3; inversion H3; subst;
    constructor; eauto using same_host_trans.
Qed.

Lemma same_hosts_alter cs k f :
  (forall c, same_host c (f c)) -> Forall2 same_host cs (alter f k cs).
Proof.
  intros Hf. revert k. induction cs as [|c cs IH]; intros [|k].
  - constructor.
  - constructor.
  - constructor; [apply Hf | apply same_hosts_refl].
  - constructor; [apply same_host_refl | apply IH].
Qed.

Lemma frame_refl touched n s : frame touched n s s.
Proof.
  constructor; auto using same_hosts_refl.
  exists []. by rewrite app_nil_r.
Qed.

Lemma frame_trans touched n s1 s2 s3 :
  frame touched n s1 s2 -> frame touched n s2 s3 -> frame touched n s1 s3.
Proof.
  intros [] []. constructor; try congruence.
  - eauto using same_hosts_trans.
  - lia.
  - intros i Hi Ht. rewrite fr_tasks1, fr_tasks0; auto.
  - destruct fr_celery0 as (new1 & E1 & H1).
    destruct fr_celery1 as (new2 & E2 & H2).
    exists (new1 ++ new2). rewrite E2, E1, app_assoc. split; [done|].
    by apply Forall_app.
  - auto.
  - destruct fr_added1 as [Hl1 | ?]; [|by right].
    destruct fr_added0 as [Hl0 | ?]; [left; congruence | right; auto].
Qed.

Lemma frame_dag_rel_none touched n s s' (t : Task) :
  frame touched n s s' -> dag_rel_of s t = None -> dag_rel_of s' t = None.
Proof.
  intros [] H. unfold dag_rel_of in *. rewrite fr_dags0.
  destruct (dag_rel_loaded s).
  - by destruct (dag_rel_loaded s').
  - by rewrite fr_loaded0.
Qed.

Lemma frame_mono (T T' : nat -> Prop) n n' s s' :
  (forall i, T i -> T' i \/ (n' <= i)%nat) -> (n' <= n)%nat ->
  frame T n s s' -> frame T' n' s s'.
Proof.
  intros HT Hn []. constructor; auto.
  - intros i Hi Hnot. apply fr_tasks0; [lia|].
    intros Hti. destruct (HT i Hti); [auto | lia].
  - destruct fr_celery0 as (new & E & Hnew). exists new. split; [done|].
    eapply Forall_impl; [exact Hnew|]. simpl.
    intros e [Ht | Hge]; [destruct (HT _ Ht); auto | right; lia].
Qed.

Section Framed.
Context (touched : nat -> Prop) (n : nat).

Lemma framed_bind {A B} (Q : A -> Prop) (Q' : B -> Prop)
    (m : M A) (k : A -> M B) :
  framed touched n Q m ->
  (forall a, Q a -> framed touched n Q' (k a)) ->
  framed touched n Q' (bind m k).
Proof.
  intros Hm Hk s Hs. unfold bind.
  destruct (Hm s Hs) as [Hf Hq].
  destruct (m s) as [[a|e] s1] eqn:Hms; simpl in *.
  - assert (Hs1 : (n <= length (db_tasks s1))%nat)
      by (pose proof (fr_length _ _ _ _ Hf); lia).
    destruct (Hk a (Hq a eq_refl) s1 Hs1) as [Hf' Hq'].
    split; [eapply frame_trans; eauto | exact Hq'].
  - split; [exact Hf | intros b Hb; discriminate].
Qed.

Lemma framed_weaken {A} (Q Q' : A -> Prop) (m : M A) :
  (forall a, Q a -> Q' a) -> framed touched n Q m -> framed touched n Q' m.
Proof.
  intros HQ Hm s Hs. destruct (Hm s Hs) as [Hf Hq]. split; auto.
Qed.

(** A computation that only reads. *)
Lemma framed_read {A} (m : M A) :
  (forall s, (m s).2 = s) -> framed touched n (fun _ => True) m.
Proof. intros Hm s _. rewrite Hm. split; auto using frame_refl. Qed.

Lemma framed_ret {A} (a : A) (Q : A -> Prop) :
  Q a -> framed touched n Q (ret a).
Proof.
  intros Ha s _. simpl. split; [apply frame_refl|].
  by intros b [= <-].
Qed.

Lemma framed_update_task (j : nat) (f : Task -> Task) :
  touched j \/ (n <= j)%nat ->
  framed touched n (fun _ => True) (update_task j f).
Proof.
  intros Hj s _. split; [|done]. unfold update_task, modify. simpl.
  constructor; simpl; auto using same_hosts_refl.
  - by rewrite length_alter.
  - intros i Hi Ht. apply list_lookup_alter_ne. intros ->.
    destruct Hj; [auto | lia].
  - exists []. by rewrite app_nil_r.
  - left. by rewrite length_alter.
Qed.

Lemma framed_update_computer (k : nat) (f : Computer -> Computer) :
  (forall c, same_host c (f c)) ->
  framed touched n (fun _ => True) (update_computer k f).
Proof.
  intros Hf s _. split; [|done]. unfold update_computer, modify. simpl.
  constructor; simpl; auto using same_hosts_alter.
  exists []. by rewrite app_nil_r.
Qed.

Lemma framed_apply_async (j : nat) (id : Z) (queue : string) :
  touched j \/ (n <= j)%nat ->
  framed touched n (fun _ => True) (apply_async j id queue).
Proof.
  intros Hj s _. split; [|done]. unfold apply_async. simpl.
  constructor; simpl; auto using same_hosts_refl.
  eexists. split; [reflexivity|]. constructor; [exact Hj | constructor].
Qed.

Lemma framed_commit : framed touched n (fun _ => True) commit.
Proof.
  intros s _. split; [|done]. unfold commit, modify. simpl.
  constructor; simpl; auto using same_hosts_refl.
  exists []. by rewrite app_nil_r.
Qed.
End Framed.

Section FramedSteps.
Context (touched : nat -> Prop) (n : nat).

Lemma framed_get_task (i : nat) :
  framed touched n (fun _ => True) (get_task i).
Proof.
  apply framed_read. intros s. unfold get_task.
  by destruct (db_tasks s !! i).
Qed.

Lemma framed_get_computer (k : nat) :
  framed touched n (fun _ => True) (get_computer k).
Proof.
  apply framed_read. intros s. unfold get_computer.
  by destruct (computers s !! k).
Qed.

Lemma framed_gets {A} (f : Supervisor -> A) :
  framed touched n (fun _ => True) (gets f).
Proof. by apply framed_read. Qed.

Lemma framed_lift {A} (r : Res A) :
  framed touched n (fun _ => True) (lift r).
Proof. by apply framed_read. Qed.

Lemma framed_raise {A} (e : Exn) (Q : A -> Prop) :
  framed touched n Q (raise e).
Proof. intros s _. split; [apply frame_refl | intros a H; discriminate]. Qed.

Lemma framed_process_to_celery (j : nat) (queue : string) (k : nat) :
  touched j \/ (n <= j)%nat ->
  framed touched n (fun _ => True) (process_to_celery j queue k).
Proof.
  intros Hj. unfold process_to_celery.
  eapply framed_bind; [apply framed_get_task | intros t _].
  eapply framed_bind; [apply framed_get_computer | intros c _].
  eapply framed_bind; [by apply framed_apply_async | intros r _].
  eapply framed_bind; [by apply framed_update_task | intros _ _].
  eapply framed_bind with (Q := fun _ => True);
    [|intros _ _; apply framed_commit].
  destruct (t_gpu_assigned t) as [g|]; [|by apply framed_ret].
  eapply framed_bind; [apply framed_lift | intros gpu _].
  eapply framed_bind;
    [apply framed_update_computer; intros c'; by repeat split
    | intros _ _].
  eapply framed_bind;
    [apply framed_update_computer; intros c'; by repeat split
    | intros _ _].
  apply framed_update_computer; intros c'; by repeat split.
Qed.

Lemma framed_create_service_task (task : nat) (gpu_assigned : option Z)
    (distr : option DistrInfo) :
  framed touched n (fun ref => (n <= ref)%nat)
    (create_service_task task gpu_assigned distr).
Proof.
  intros s Hs.
  unfold create_service_task, bind, get_task, gets, commit, modify, ret.
  destruct (db_tasks s !! task) as [t|]; simpl;
    [|split; [apply frame_refl | intros a H; discriminate]].
  split; [|by intros a [= <-]].
  constructor; simpl; auto using same_hosts_refl.
  - rewrite length_app. lia.
  - intros i Hi _. apply lookup_app_l. lia.
  - exists []. by rewrite app_nil_r.
Qed.

Lemma framed_send_one (task : nat) (world_size : Z) (main_cmp : nat)
    (master_port : Z) (taken : gmap string (list Z)) (rank : Z)
    (entry : Assignment) :
  framed touched n (fun _ => True)
    (send_one task world_size main_cmp master_port taken rank entry).
Proof.
  destruct entry as [[computer queue] gpu_assigned]. unfold send_one.
  eapply framed_bind; [apply framed_get_computer | intros c _].
  eapply framed_bind; [apply framed_get_computer | intros m _].
  eapply framed_bind; [apply framed_lift | intros local _].
  eapply framed_bind; [apply framed_create_service_task | intros ref Href].
  apply framed_process_to_celery. by right.
Qed.

Lemma framed_send_loop (task : nat) (world_size : Z) (main_cmp : nat)
    (master_port : Z) (taken : gmap string (list Z))
    (to_send : list Assignment) :
  forall rank,
    framed touched n (fun _ => True)
      (send_loop task world_size main_cmp master_port taken rank to_send).
Proof.
  induction to_send as [|entry rest IH]; intros rank; simpl.
  - by apply framed_ret.
  - eapply framed_bind; [apply framed_send_one | intros _ _]. apply IH.
Qed.

Lemma framed_place_loop (task : nat) (t : Task) (dag_rel : option Dag)
    (cands : list nat) :
  touched task \/ (n <= task)%nat ->
  forall to_send taken,
    framed touched n (fun _ => True)
      (place_loop task t dag_rel cands to_send taken).
Proof.
  intros Hj. induction cands as [|k cands IH]; intros to_send taken; simpl.
  - by apply framed_ret.
  - eapply framed_bind; [apply framed_get_computer | intros c _].
    eapply framed_bind; [apply framed_lift | intros queue _].
    destruct (0 <? t_gpu t).
    + destruct (take_slots _ _ _ _ _ _ _ _) as [to_send' taken'].
      destruct (_ >=? _); [by apply framed_ret | apply IH].
    + eapply framed_bind;
        [by apply framed_process_to_celery | intros _ _].
      by apply framed_ret.
Qed.

Lemma framed_process_task (task : nat) :
  touched task \/ (n <= task)%nat ->
  framed touched n (fun _ => True) (process_task task).
Proof.
  intros Hj. unfold process_task.
  eapply framed_bind; [apply framed_get_task | intros t _].
  eapply framed_bind; [apply framed_gets | intros dag_rel _].
  eapply framed_bind; [apply framed_gets | intros qs _].
  eapply framed_bind; [apply framed_gets | intros cs _].
  eapply framed_bind; [apply framed_lift | intros cands _].
  destruct (_ <? _); [by apply framed_ret|].
  eapply framed_bind; [by apply framed_place_loop | intros [to_send taken] _].
  destruct to_send as [|[[main_cmp queue] idx] rest]; [by apply framed_ret|].
  eapply framed_bind; [apply framed_get_computer | intros m _].
  eapply framed_bind; [apply framed_lift | intros docker_name _].
  eapply framed_bind; [apply framed_gets | intros ds _].
  eapply framed_bind; [apply framed_lift | intros master_port _].
  eapply framed_bind; [apply framed_send_loop | intros _ _].
  eapply framed_bind; [by apply framed_update_task | intros _ _].
  apply framed_commit.
Qed.

Lemma framed_change_status (task : nat) (status : TaskStatus) :
  touched task \/ (n <= task)%nat ->
  framed touched n (fun _ => True) (change_status task status).
Proof.
  intros Hj. unfold change_status.
  eapply framed_bind; [apply framed_gets | intros now _].
  eapply framed_bind with (Q := fun _ => True);
    [|intros _ _; eapply framed_bind;
        [by apply framed_update_task | intros _ _; apply framed_commit]].
  destruct (decide _); [by apply framed_update_task|].
  destruct (bool_decide _);
    [by apply framed_update_task | by apply framed_ret].
Qed.

Lemma framed_process_tasks_step (task : nat) :
  touched task \/ (n <= task)%nat ->
  framed touched n (fun _ => True) (process_tasks_step task).
Proof.
  intros Hj. unfold process_tasks_step.
  eapply framed_bind; [apply framed_get_task | intros t _].
  eapply framed_bind; [apply framed_gets | intros dag_rel _].
  destruct dag_rel as [d|]; [|by apply framed_ret].
  eapply framed_bind; [apply framed_gets | intros dep _].
  destruct (dep !! t_id t) as [ds|]; [|apply framed_raise].
  destruct (_ || _); [by apply framed_change_status|].
  destruct (_ && _); [by apply framed_ret | by apply framed_process_task].
Qed.

Lemma framed_process_tasks_loop (tasks : list nat) :
  (forall j, j ∈ tasks -> touched j \/ (n <= j)%nat) ->
  framed touched n (fun _ => True) (process_tasks_loop tasks).
Proof.
  induction tasks as [|task tasks IH]; intros Hall; simpl.
  - by apply framed_ret.
  - eapply framed_bind;
      [apply framed_process_tasks_step, Hall; left | intros _ _].
    apply IH. intros j Hjin. apply Hall. by right.
Qed.
End FramedSteps.

(** ** Debug tasks *)

(** The positions [load_tasks] keeps: NotRan and not debug. *)
Lemma load_tasks_fields (s : Supervisor) :
  db_tasks (load_tasks s).2 = db_tasks s
  /\ celery (load_tasks s).2 = celery s
  /\ not_ran_tasks (load_tasks s).2
     = List.filter
         (fun i => match db_tasks s !! i with
                   | Some t => negb (t_debug t)
                   | None => false
                   end)
         (by_status [NotRan] s).
Proof.
  unfold load_tasks, bind, gets, modify, lift. simpl.
  destruct (dependency_status _ _ _); simpl; auto.
Qed.

Lemma load_computers_fields (s : Supervisor) :
  db_tasks (load_computers s).2 = db_tasks s
  /\ celery (load_computers s).2 = celery s
  /\ not_ran_tasks (load_computers s).2 = not_ran_tasks s.
Proof.
  unfold load_computers, bind, gets, modify, lift. simpl.
  destruct (account_tasks _ _); simpl; auto.
Qed.

(** The loop of [process_tasks] works on the tasks of
    [self.not_ran_tasks] and on the service tasks it creates. *)
Lemma process_tasks_frame (s : Supervisor) :
  frame (fun j => j ∈ not_ran_tasks s) (length (db_tasks s))
    s (process_tasks s).2.
Proof.
  unfold process_tasks, bind, gets. simpl.
  apply (framed_process_tasks_loop _ _ (not_ran_tasks s)); [|lia].
  intros j Hj. by left.
Qed.

(** C10.  A NotRan task whose debug flag is set is not in the not-ran set
    of the tick; whatever the outcome of the tick, the task object is left
    as it was (so it is neither Skipped nor Queued nor assigned a
    computer), and no submission of the tick is made for it. *)
Theorem debug_task_is_passed_over (s : Supervisor) (i : nat) (t : Task) :
  db_tasks s !! i = Some t ->
  t_status t = NotRan ->
  t_debug t = true ->
  (i ∉ not_ran_tasks (schedule s).2)
  /\ db_tasks (schedule s).2 !! i = Some t
  /\ exists new,
       celery (schedule s).2 = celery s ++ new
       /\ Forall (fun e => sent_task e <> i) new.
Proof.
  intros Hi Hst Hdebug.
  destruct (load_tasks_fields s) as (Ht1 & Hc1 & Hn1).
  assert (Hout1 : i ∉ not_ran_tasks (load_tasks s).2).
  { rewrite Hn1, list_elem_of_In, filter_In, Hi, Hdebug. simpl.
    intros [_ ?]. discriminate. }
  assert (Hnil : forall s0 : Supervisor,
             celery s0 = celery s ->
             exists new, celery s0 = celery s ++ new
                         /\ Forall (fun e => sent_task e <> i) new).
  { intros s0 ->. exists []. by rewrite app_nil_r. }
  unfold schedule, bind.
  destruct (load_tasks s) as [[[]|e1] s1] eqn:H1; simpl in *;
    [|rewrite Ht1; auto].
  destruct (load_computers_fields s1) as (Ht2 & Hc2 & Hn2).
  destruct (load_computers s1) as [[[]|e2] s2] eqn:H2; simpl in *;
    [|rewrite Hn2, Ht2, Ht1; split; [done|]; split; [done|];
      apply Hnil; congruence].
  pose proof (process_tasks_frame s2) as Hf.
  destruct (process_tasks s2) as [r s3]; simpl in *.
  destruct Hf. split; [|split].
  - by rewrite fr_not_ran0, Hn2.
  - rewrite fr_tasks0; [by rewrite Ht2, Ht1 | | by rewrite Hn2].
    rewrite Ht2, Ht1. by apply lookup_lt_Some in Hi.
  - destruct fr_celery0 as (new & E & Hnew). exists new.
    split; [by rewrite E, Hc2, Hc1|].
    eapply Forall_impl; [exact Hnew|]. simpl. intros e [Hin | Hge] Heq.
    + rewrite Heq, Hn2 in Hin. done.
    + apply lookup_lt_Some in Hi. rewrite Ht2, Ht1 in Hge. lia.
Qed.

Lemma debug_task_is_passed_over_witness :
  db_tasks Ex.with_debug !! 0%nat = Some Ex.debug_task
  /\ (t_status <$> db_tasks (schedule Ex.with_debug).2) = [NotRan; Queued]
  /\ (0%nat ∉ not_ran_tasks (schedule Ex.with_debug).2)
  /\ db_tasks (schedule Ex.with_debug).2 !! 0%nat = Some Ex.debug_task.
Proof.
  split; [reflexivity|]. split; [vm_compute; reflexivity|].
  destruct (debug_task_is_passed_over Ex.with_debug 0 Ex.debug_task
              eq_refl eq_refl eq_refl) as (H1 & H2 & _).
  split; assumption.
Defined.

(** ** The Dependency Gate *)

Lemma process_tasks_step_passes (s : Supervisor) (i : nat) (t : Task) :
  db_tasks s !! i = Some t ->
  passed_over s t ->
  process_tasks_step i s = (Ok tt, s).
Proof.
  intros Hi Hpass.
  unfold process_tasks_step, bind, get_task, gets. rewrite Hi. cbn.
  destruct (dag_rel_of s t) as [d|] eqn:Hd; [|done].
  destruct Hpass as [Hnone | (ds & Hds & Hs & Hf & Hne & Hnot)];
    [congruence|].
  rewrite Hds.
  rewrite (bool_decide_eq_false_2 _ Hs), (bool_decide_eq_false_2 _ Hf).
  cbn [orb].
  assert (Hsize : (Z.of_nat (size ds) =? 0) = false).
  { apply Z.eqb_neq. intros Hz.
    apply Hne, leibniz_equiv, size_empty_iff. lia. }
  rewrite Hsize, (bool_decide_eq_true_2 _ Hnot). reflexivity.
Qed.

Lemma process_tasks_loop_passes (i : nat) (t : Task) (tasks : list nat) :
  forall s,
    db_tasks s !! i = Some t ->
    passed_over s t ->
    db_tasks (process_tasks_loop tasks s).2 !! i = Some t
    /\ exists new,
         celery (process_tasks_loop tasks s).2 = celery s ++ new
         /\ Forall (fun e => sent_task e <> i) new.
Proof.
  induction tasks as [|j tasks IH]; intros s Hi Hpass; cbn [process_tasks_loop].
  - split; [done|]. exists []. by rewrite app_nil_r.
  - unfold bind.
    destruct (decide (j = i)) as [->|Hne].
    + rewrite (process_tasks_step_passes s i t Hi Hpass). by apply IH.
    + assert (Hlt : (i < length (db_tasks s))%nat)
        by (by apply lookup_lt_Some in Hi).
      destruct (framed_process_tasks_step (fun k => k = j)
                  (length (db_tasks s)) j (or_introl eq_refl) s (le_n _))
        as [Hf _].
      destruct (process_tasks_step j s) as [[[]|e] s1]; cbn [fst snd] in *.
      * assert (Hpass1 : passed_over s1 t).
        { destruct Hpass as [Hnone | Hdeps].
          - left. by apply (frame_dag_rel_none _ _ _ _ _ Hf).
          - right. by rewrite (fr_dep_status _ _ _ _ Hf). }
        destruct Hf.
        assert (Hi1 : db_tasks s1 !! i = Some t)
          by (rewrite fr_tasks0; [done | done | congruence]).
        destruct (IH s1 Hi1 Hpass1) as (H1 & new2 & E2 & Hnew2).
        split; [exact H1|].
        destruct fr_celery0 as (new1 & E1 & Hnew1).
        exists (new1 ++ new2). rewrite E2, E1, app_assoc. split; [done|].
        apply Forall_app. split; [|exact Hnew2].
        eapply Forall_impl; [exact Hnew1|]. cbn beta.
        intros e [-> | Hge]; [congruence | lia].
      * destruct Hf.
        split; [rewrite fr_tasks0; [done | done | congruence]|].
        destruct fr_celery0 as (new1 & E1 & Hnew1).
        exists new1. split; [done|].
        eapply Forall_impl; [exact Hnew1|]. cbn beta.
        intros e' [-> | Hge]; [congruence | lia].
Qed.











(** ** Collecting the slots of a multi-GPU task *)

Lemma free_slots_nonneg (c : Computer) : 0 <= free_slots c.
Proof. unfold free_slots. lia. Qed.

Lemma free_gpu_nonneg (cs : list Computer) (cands : list nat) :
  0 <= free_gpu cs cands.
Proof.
  unfold free_gpu. induction (omap _ cands) as [|c l IH]; simpl; [lia|].
  pose proof (free_slots_nonneg c). lia.
Qed.

Lemma free_gpu_cons (cs : list Computer) (k : nat) (cands : list nat)
    (c : Computer) :
  cs !! k = Some c ->
  free_gpu cs (k :: cands) = free_slots c + free_gpu cs cands.
Proof. intros H. unfold free_gpu. simpl. by rewrite H. Qed.

(** The loop over the slots of one computer appends one entry per free
    slot until the request is met; the indices it records start at [index]
    and count the entries, and they are those added to
    [computer_gpu_taken] under the computer's name. *)
Lemma take_slots_spec (k : nat) (name queue : string) (g : Z)
    (slots : list Z) :
  forall index ts tk,
    exists added,
      (take_slots k name queue g slots index ts tk).1 = ts ++ added
      /\ Forall
           (fun e =>
              e.1 = (k, queue)
              /\ index <= e.2
                 < index + Z.of_nat (length (List.filter gpu_is_free slots))
              /\ e.2 ∈ (take_slots k name queue g slots index ts tk).2
                         !!! name)
           added
      /\ (Z.of_nat (length ts) < g ->
          Z.of_nat (length added)
          = Z.min (g - Z.of_nat (length ts))
              (Z.of_nat (length (List.filter gpu_is_free slots))))
      /\ (existsb gpu_is_free slots = true ->
          exists rest, added = (k, queue, index) :: rest)
      /\ (forall nm idx,
            idx ∈ tk !!! nm ->
            idx ∈ (take_slots k name queue g slots index ts tk).2 !!! nm).
Proof.
  induction slots as [|x slots IH]; intros index ts tk.
  - simpl. exists []. rewrite app_nil_r.
    split; [done|]. split; [constructor|]. split; [simpl; lia|].
    split; [done | auto].
  - cbn [take_slots List.filter existsb].
    destruct (decide (x = 0)) as [->|Hx].
    + change (gpu_is_free 0) with true.
      change (bool_decide (0 ≠ 0)) with false. cbn [orb length].
      set (free := length (List.filter gpu_is_free slots)) in *.
      set (ts1 := ts ++ [(k, queue, index)]).
      set (tk1 := <[name := tk !!! name ++ [index]]> tk).
      assert (Hmono1 : forall nm idx, idx ∈ tk !!! nm -> idx ∈ tk1 !!! nm).
      { intros nm idx Hin. unfold tk1.
        destruct (decide (name = nm)) as [->|Hne].
        - rewrite lookup_total_insert_eq. apply elem_of_app. by left.
        - by rewrite lookup_total_insert_ne. }
      assert (Hidx1 : index ∈ tk1 !!! name).
      { unfold tk1. rewrite lookup_total_insert_eq.
        apply elem_of_app. right. left. }
      assert (Hlen1 : Z.of_nat (length ts1) = Z.of_nat (length ts) + 1).
      { unfold ts1. rewrite length_app. simpl. lia. }
      destruct (Z.of_nat (length ts1) >=? g) eqn:Hge.
      * apply Z.geb_le in Hge.
        cbn [fst snd]. exists [(k, queue, index)].
        split; [done|]. split.
        { constructor; [|constructor]. cbn [fst snd].
          split; [done|]. split; [lia | done]. }
        split; [cbn [length]; lia|]. split; [eauto|]. exact Hmono1.
      * assert (Hlt1 : Z.of_nat (length ts1) < g).
        { destruct (Z.geb_spec (Z.of_nat (length ts1)) g); [done | lia]. }
        destruct (IH (index + 1) ts1 tk1)
          as (added & E & Hall & Hlen & _ & Hmono).
        exists ((k, queue, index) :: added).
        split; [rewrite E; unfold ts1; by rewrite <- app_assoc|].
        split.
        { constructor.
          - cbn [fst snd]. split; [done|]. split; [lia|]. by apply Hmono.
          - eapply Forall_impl; [exact Hall|]. cbn beta.
            intros e (? & ? & ?). split; [done|]. split; [lia | done]. }
        split; [cbn [length]; intros Hlt; rewrite Nat2Z.inj_succ, (Hlen Hlt1);
                lia|].
        split; [eauto|].
        intros nm idx Hin. by apply Hmono, Hmono1.
    + assert (Hfree : gpu_is_free x = false)
        by (by apply bool_decide_eq_false_2).
      rewrite Hfree, (bool_decide_eq_true_2 (x ≠ 0)) by done.
      cbn [orb]. apply IH.
Qed.

Lemma free_slots_le_length (c : Computer) :
  free_slots c <= Z.of_nat (length (c_gpu c)).
Proof.
  unfold free_slots. induction (c_gpu c) as [|x l IH]; simpl; [lia|].
  destruct (gpu_is_free x); simpl; lia.
Qed.

Lemma entry_ok_mono cs dag_rel (tk tk' : gmap string (list Z)) entry :
  (forall nm idx, idx ∈ tk !!! nm -> idx ∈ tk' !!! nm) ->
  entry_ok cs dag_rel tk entry -> entry_ok cs dag_rel tk' entry.
Proof.
  intros Hmono (c & Hc & Hq & Hr & Hin). exists c. repeat split; auto; lia.
Qed.

(** A computer accepted by [valid_computer] has a dag to name its queue
    after and, for a task that asks for GPUs, a free slot. *)
Lemma valid_computer_accepts qs t dag_rel c :
  valid_computer qs t dag_rel c = Ok None ->
  is_Some dag_rel
  /\ (0 < t_gpu t -> existsb gpu_is_free (c_gpu c) = true).
Proof.
  unfold valid_computer.
  destruct (match t_computer t with Some _ => _ | None => _ end); [done|].
  destruct (_ <? _); [done|]. destruct (_ <? _)%float; [done|].
  destruct dag_rel as [d|]; simpl; [|done].
  destruct (bool_decide _); [done|].
  destruct (0 <? t_gpu t) eqn:Hg; simpl.
  - destruct (existsb gpu_is_free (c_gpu c)); simpl; [|done].
    intros _. split; eauto.
  - intros _. split; [eauto|]. apply Z.ltb_ge in Hg. lia.
Qed.

Lemma valid_computers_spec qs t dag_rel (cs : list Computer) :
  forall k0 cands,
    valid_computers qs t dag_rel k0 cs = Ok cands ->
    Forall
      (fun k =>
         (k0 <= k)%nat
         /\ exists c,
             cs !! (k - k0)%nat = Some c
             /\ is_Some dag_rel
             /\ (0 < t_gpu t -> existsb gpu_is_free (c_gpu c) = true))
      cands.
Proof.
  induction cs as [|c cs IH]; intros k0 cands; simpl.
  - intros [= <-]. constructor.
  - destruct (valid_computer qs t dag_rel c) as [error|] eqn:Hc; simpl;
      [|done].
    destruct (valid_computers qs t dag_rel (S k0) cs) as [rest|] eqn:Hrest;
      simpl; [|done].
    intros [= <-].
    assert (Hshift : Forall
              (fun k =>
                 (k0 <= k)%nat
                 /\ exists c0,
                     (c :: cs) !! (k - k0)%nat = Some c0
                     /\ is_Some dag_rel
                     /\ (0 < t_gpu t ->
                         existsb gpu_is_free (c_gpu c0) = true))
              rest).
    { eapply Forall_impl; [apply (IH _ _ Hrest)|]. simpl.
      intros k (Hk & c0 & Hc0 & Hrel). split; [lia|]. exists c0.
      split; [|exact Hrel].
      replace (k - k0)%nat with (S (k - S k0)) by lia. exact Hc0. }
    destruct error as [reason|]; [exact Hshift|].
    constructor; [|exact Hshift].
    split; [lia|]. exists c. rewrite Nat.sub_diag.
    split; [done|]. by apply valid_computer_accepts in Hc.
Qed.

(** For a task that asks for GPUs the loop over the candidates only
    reads: it returns the entries collected, [min] of what is still asked
    for and what the candidates have free, starting with slot index 0 of
    the first candidate. *)
Lemma place_loop_gpu (task : nat) (t : Task) (dag_rel : option Dag) :
  0 < t_gpu t ->
  forall cands ts tk s,
    Forall (fun k => is_Some (computers s !! k)) cands ->
    is_Some dag_rel ->
    exists ts' tk' added,
      place_loop task t dag_rel cands ts tk s = (Ok (ts', tk'), s)
      /\ ts' = ts ++ added
      /\ Forall (entry_ok (computers s) dag_rel tk') added
      /\ (Z.of_nat (length ts) < t_gpu t ->
          Z.of_nat (length added)
          = Z.min (t_gpu t - Z.of_nat (length ts))
              (free_gpu (computers s) cands))
      /\ (forall k cands' c,
            cands = k :: cands' ->
            computers s !! k = Some c ->
            existsb gpu_is_free (c_gpu c) = true ->
            exists q rest,
              queue_of dag_rel c = Ok q /\ added = (k, q, 0) :: rest)
      /\ (forall nm idx, idx ∈ tk !!! nm -> idx ∈ tk' !!! nm).
Proof.
  intros Hg cands. induction cands as [|k cands IH];
    intros ts tk s Hvalid [d ->].
  - simpl. exists ts, tk, []. rewrite app_nil_r.
    split; [done|]. split; [done|]. split; [constructor|].
    split; [unfold free_gpu; simpl; lia|]. split; [done | auto].
  - apply Forall_cons in Hvalid as [[c Hc] Hvalid].
    cbn [place_loop]. unfold bind at 1, get_computer. rewrite Hc.
    unfold bind at 1, lift. cbn [queue_of].
    set (queue := c_name c +:+ "_" +:+ py_or (docker_img d) "default").
    assert (Hpos : (0 <? t_gpu t) = true) by (apply Z.ltb_lt; lia).
    rewrite Hpos.
    destruct (take_slots_spec k (c_name c) queue (t_gpu t) (c_gpu c) 0 ts tk)
      as (added1 & E1 & Hall1 & Hlen1 & Hhead1 & Hmono1).
    destruct (take_slots k (c_name c) queue (t_gpu t) (c_gpu c) 0 ts tk)
      as [ts1 tk1] eqn:Htake.
    cbn [fst snd] in *. subst ts1.
    assert (Hok1 : Forall (entry_ok (computers s) (Some d) tk1) added1).
    { eapply Forall_impl; [exact Hall1|]. cbn beta.
      intros [[k' q'] idx] (Heq & Hrange & Hin). cbn [fst snd] in *.
      injection Heq as -> ->. exists c. cbn [fst snd].
      pose proof (free_slots_le_length c) as Hle. unfold free_slots in Hle.
      repeat split; auto; lia. }
    rewrite (free_gpu_cons _ _ _ _ Hc).
    pose proof (free_gpu_nonneg (computers s) cands) as Hnn.
    pose proof (free_slots_nonneg c) as Hnn'.
    assert (Hhead : forall k0 cands' c0,
               k :: cands = k0 :: cands' ->
               computers s !! k0 = Some c0 ->
               existsb gpu_is_free (c_gpu c0) = true ->
               forall more,
               exists q rest,
                 queue_of (Some d) c0 = Ok q
                 /\ added1 ++ more = (k0, q, 0) :: rest).
    { intros k0 cands' c0 [= <- <-] Hc0 Hfree more.
      rewrite Hc in Hc0. injection Hc0 as <-.
      destruct (Hhead1 Hfree) as (rest & ->).
      exists queue, (rest ++ more). split; [done|]. by simplify_list_eq. }
    destruct (Z.of_nat (length (ts ++ added1)) >=? t_gpu t) eqn:Hge.
    + apply Z.geb_le in Hge. rewrite length_app in Hge.
      exists (ts ++ added1), tk1, added1. unfold ret.
      split; [done|]. split; [done|]. split; [exact Hok1|].
      split; [intros Hlt; specialize (Hlen1 Hlt); unfold free_slots; lia|].
      split; [|exact Hmono1].
      intros k0 cands' c0 Heq Hc0 Hfree.
      destruct (Hhead k0 cands' c0 Heq Hc0 Hfree []) as (q & rest & Hq & E).
      rewrite app_nil_r in E. eauto.
    + assert (Hlt1 : Z.of_nat (length (ts ++ added1)) < t_gpu t).
      { destruct (Z.geb_spec (Z.of_nat (length (ts ++ added1))) (t_gpu t));
          [done | lia]. }
      destruct (IH (ts ++ added1) tk1 s Hvalid (ex_intro _ d eq_refl))
        as (ts' & tk' & added2 & Hrun & -> & Hok2 & Hlen2 & _ & Hmono2).
      exists ((ts ++ added1) ++ added2), tk', (added1 ++ added2).
      split; [exact Hrun|]. split; [by rewrite app_assoc|].
      split.
      { apply Forall_app. split; [|exact Hok2].
        eapply Forall_impl; [exact Hok1|]. intros e.
        by apply entry_ok_mono. }
      split.
      { intros Hlt. specialize (Hlen1 Hlt). specialize (Hlen2 Hlt1).
        rewrite length_app in *. unfold free_slots. lia. }
      split; [|intros nm idx Hin; by apply Hmono2, Hmono1].
      intros k0 cands' c0 Heq Hc0 Hfree. eapply Hhead; eauto.
Qed.

(** ** Serving the entries of [to_send] *)

Lemma py_setitem_length {A} (l l' : list A) (i : Z) (x : A) :
  py_setitem l i x = Ok l' -> length l' = length l.
Proof.
  unfold py_setitem. destruct (_ && _).
  - intros [= <-]. apply length_insert.
  - destruct (_ && _); [|done]. intros [= <-]. apply length_insert.
Qed.

Lemma py_setitem_in_range {A} (l : list A) (i : Z) (x : A) :
  0 <= i < Z.of_nat (length l) -> exists l', py_setitem l i x = Ok l'.
Proof.
  intros Hi. unfold py_setitem.
  assert (H : (0 <=? i) && (i <? Z.of_nat (length l)) = true).
  { apply andb_true_iff. split; [apply Z.leb_le | apply Z.ltb_lt]; lia. }
  rewrite H. eauto.
Qed.

Lemma py_index_found (l : list Z) (x : Z) :
  x ∈ l -> exists i, py_index l x = Ok i.
Proof.
  induction l as [|y l IH]; intros Hin; [inversion Hin|]. simpl.
  destruct (decide (y = x)); [eauto|].
  apply elem_of_cons in Hin as [->|Hin]; [done|].
  destruct (IH Hin) as [i ->]. simpl. eauto.
Qed.

Lemma same_slots_refl cs : Forall2 same_slots cs cs.
Proof. induction cs; constructor; auto. by repeat split. Qed.

Lemma same_slots_trans cs1 cs2 cs3 :
  Forall2 same_slots cs1 cs2 -> Forall2 same_slots cs2 cs3 ->
  Forall2 same_slots cs1 cs3.
Proof.
  apply Forall2_trans. intros x y z (? & ? & ?) (? & ? & ?).
  repeat split; congruence.
Qed.

(** The dispatch of a task that has a GPU assigned. *)
Lemma process_to_celery_service (s : Supervisor) (j : nat) (queue : string)
    (k : nat) (t : Task) (c : Computer) (g : Z) :
  db_tasks s !! j = Some t ->
  computers s !! k = Some c ->
  t_gpu_assigned t = Some g ->
  exists res s',
    process_to_celery j queue k s = (res, s')
    /\ db_tasks s'
       = alter (dispatched (Z.of_nat (length (celery s))) (c_name c)) j
           (db_tasks s)
    /\ Forall2 same_slots (computers s) (computers s')
    /\ (0 <= g < Z.of_nat (length (c_gpu c)) -> res = Ok tt).
Proof.
  intros Hj Hk Hg.
  unfold process_to_celery, bind, get_task, get_computer, apply_async,
    update_task, update_computer, modify, lift, ret.
  rewrite Hj. cbn. rewrite Hk. cbn. rewrite Hg.
  destruct (py_setitem (c_gpu c) g (t_id t)) as [gpu|e] eqn:Hset; cbn.
  - do 2 eexists. split; [reflexivity|]. cbn. split; [reflexivity|].
    split; [|done].
    apply py_setitem_length in Hset.
    repeat apply Forall2_alter_r; [apply same_slots_refl | ..];
      intros x y Hx Hy (Hn & Hi & Hl); repeat split; cbn; congruence.
  - do 2 eexists. split; [reflexivity|]. cbn. split; [reflexivity|].
    split; [apply same_slots_refl|].
    intros Hr. destruct (py_setitem_in_range (c_gpu c) g (t_id t) Hr)
      as [l' Hl']. congruence.
Qed.

(** One iteration of the loop over [to_send]: either it stops before
    creating anything, or it adds one service task, the one of its entry;
    it does not stop when the entry is one it can serve. *)
Lemma send_one_spec (task : nat) (world main_port : Z) (main_cmp : nat)
    (taken : gmap string (list Z)) (r : Z) (k : nat) (queue : string)
    (idx : Z) (s : Supervisor) (t : Task) (m : Computer) :
  db_tasks s !! task = Some t ->
  computers s !! main_cmp = Some m ->
  exists res s',
    send_one task world main_cmp main_port taken r (k, queue, idx) s
    = (res, s')
    /\ Forall2 same_slots (computers s) (computers s')
    /\ ((db_tasks s' = db_tasks s /\ res <> Ok tt)
        \/ exists c x,
            computers s !! k = Some c
            /\ db_tasks s' = db_tasks s ++ [x]
            /\ is_service_of t (c_name m) (c_ip m) main_port world r
                 (c_name c) idx x)
    /\ (forall c,
          computers s !! k = Some c ->
          idx ∈ taken !!! c_name c ->
          0 <= idx < Z.of_nat (length (c_gpu c)) ->
          res = Ok tt).
Proof.
  intros Ht Hm. unfold send_one. unfold bind at 1, get_computer at 1.
  destruct (computers s !! k) as [c|] eqn:Hk.
  2:{ do 2 eexists. split; [reflexivity|]. split; [apply same_slots_refl|].
      split; [by left | intros c Hc; discriminate]. }
  unfold bind at 1, get_computer at 1. rewrite Hm.
  unfold bind at 1, lift at 1.
  destruct (py_index (taken !!! c_name c) idx) as [local|e] eqn:Hlocal.
  2:{ do 2 eexists. split; [reflexivity|]. split; [apply same_slots_refl|].
      split; [by left|]. intros c0 [= <-] Hin _.
      destruct (py_index_found _ _ Hin) as [i Hi]. congruence. }
  unfold bind at 1.
  set (distr := mkDistrInfo _ r local main_port world).
  assert (Hcreate :
            create_service_task task (Some idx) (Some distr) s
            = (Ok (length (db_tasks s)),
               with_dag_rel_loaded false
                 (with_next_id (db_next_id s + 1)
                    (with_tasks
                       (db_tasks s
                        ++ [new_service_task t (db_task_default s)
                              (db_next_id s) (Some idx) (Some distr)]) s)))).
  { unfold create_service_task, bind, get_task, gets, commit, modify, ret.
    rewrite Ht. reflexivity. }
  rewrite Hcreate.
  set (row := new_service_task t (db_task_default s) (db_next_id s)
                (Some idx) (Some distr)).
  set (s1 := with_dag_rel_loaded _ _).
  destruct (process_to_celery_service s1 (length (db_tasks s)) queue k
              row c idx) as (res & s' & Hrun & Htasks & Hslots & Hok).
  { unfold s1. cbn. by rewrite lookup_app_r, Nat.sub_diag by lia. }
  { exact Hk. }
  { reflexivity. }
  exists res, s'. split; [exact Hrun|]. split; [exact Hslots|].
  split.
  - right. eexists c, _. split; [done|]. split.
    + rewrite Htasks. unfold s1. cbn.
      rewrite alter_app_r_alt, Nat.sub_diag by lia. reflexivity.
    + unfold is_service_of. cbn. repeat split.
      exists distr. repeat split.
  - intros c0 [= <-] _ Hr. by apply Hok.
Qed.

Lemma entry_ok_same_slots cs cs' dag_rel taken entry :
  Forall2 same_slots cs cs' ->
  entry_ok cs dag_rel taken entry -> entry_ok cs' dag_rel taken entry.
Proof.
  intros Hcs (c & Hc & Hq & Hr & Hin).
  destruct (Forall2_lookup_l _ _ _ _ _ Hcs Hc) as (c' & Hc' & Hn & _ & Hl).
  exists c'. split; [done|]. rewrite Hn, Hl. split; [|done].
  destruct dag_rel; simpl in *; [|done]. by rewrite Hn.
Qed.

(** The loop over [to_send] appends service tasks to the table, one per
    entry in order, with ranks counted from [r]; it serves every entry when
    it returns, and it returns when every entry can be served. *)
Lemma send_loop_spec (task : nat) (world main_port : Z) (main_cmp : nat)
    (taken : gmap string (list Z)) (dag_rel : option Dag)
    (to_send : list Assignment) :
  forall (r : Z) (s : Supervisor) (t : Task) (m : Computer),
    db_tasks s !! task = Some t ->
    computers s !! main_cmp = Some m ->
    exists res s' svcs,
      send_loop task world main_cmp main_port taken r to_send s = (res, s')
      /\ db_tasks s' = db_tasks s ++ svcs
      /\ Forall2 same_slots (computers s) (computers s')
      /\ (res = Ok tt -> length svcs = length to_send)
      /\ (forall i x,
            svcs !! i = Some x ->
            exists k q idx c,
              to_send !! i = Some (k, q, idx)
              /\ computers s !! k = Some c
              /\ is_service_of t (c_name m) (c_ip m) main_port world
                   (r + Z.of_nat i) (c_name c) idx x)
      /\ (Forall (entry_ok (computers s) dag_rel taken) to_send ->
          res = Ok tt).
Proof.
  induction to_send as [|[[k q] idx] rest IH]; intros r s t m Ht Hm.
  - exists (Ok tt), s, []. simpl. rewrite app_nil_r.
    split; [done|]. split; [done|]. split; [apply same_slots_refl|].
    split; [done|]. split; [|done]. intros i x Hx. discriminate.
  - destruct (send_one_spec task world main_port main_cmp taken r k q idx
                s t m Ht Hm) as (res1 & s1 & Hrun1 & Hslots1 & Hcase & Hok1).
    cbn [send_loop]. unfold bind at 1. rewrite Hrun1.
    destruct res1 as [[]|e].
    + destruct Hcase as [[_ Hne] | (c & x & Hk & Htasks1 & Hx)]; [done|].
      assert (Ht1 : db_tasks s1 !! task = Some t).
      { rewrite Htasks1. apply lookup_app_l_Some. exact Ht. }
      destruct (Forall2_lookup_l _ _ _ _ _ Hslots1 Hm)
        as (m1 & Hm1 & Hmn & Hmi & _).
      destruct (IH (r + 1) s1 t m1 Ht1 Hm1)
        as (res & s' & svcs & Hrun & Htasks & Hslots & Hlen & Hall & Hok).
      exists res, s', (x :: svcs).
      split; [exact Hrun|].
      split; [rewrite Htasks, Htasks1; by rewrite <- app_assoc|].
      split; [eapply same_slots_trans; eauto|].
      split; [intros Hres; simpl; by rewrite Hlen|].
      split.
      * intros [|i] y Hy.
        -- injection Hy as <-. exists k, q, idx, c.
           rewrite Z.add_0_r. split; [reflexivity|]. split; assumption.
        -- destruct (Hall i y Hy) as (k' & q' & idx' & c1 & Hi & Hc1 & Hy').
           destruct (Forall2_lookup_r _ _ _ _ _ Hslots1 Hc1)
             as (c0 & Hc0 & Hn0 & _).
           exists k', q', idx', c0. split; [exact Hi|]. split; [exact Hc0|].
           rewrite <- Hn0, <- Hmn, <- Hmi.
           replace (r + Z.of_nat (S i)) with (r + 1 + Z.of_nat i) by lia.
           exact Hy'.
      * intros Hentries. apply Forall_cons in Hentries as [_ Hrest].
        apply Hok. eapply Forall_impl; [exact Hrest|].
        intros e. by apply entry_ok_same_slots.
    + exists (Raise e), s1.
      destruct Hcase as [[Htasks1 _] | (c & x & Hk & Htasks1 & Hx)].
      * exists []. rewrite app_nil_r.
        split; [done|]. split; [done|]. split; [done|].
        split; [done|]. split; [intros i x Hx; discriminate|].
        intros Hentries. apply Forall_cons in Hentries as [Hentry _].
        destruct Hentry as (c & Hc & _ & Hr & Hin). cbn in *.
        by apply (Hok1 c).
      * exists [x]. split; [done|]. split; [done|]. split; [done|].
        split; [done|]. split.
        -- intros [|i] y Hy; [|destruct i; discriminate].
           injection Hy as <-. exists k, q, idx, c.
           rewrite Z.add_0_r. split; [reflexivity|]. split; assumption.
        -- intros Hentries. apply Forall_cons in Hentries as [Hentry _].
           destruct Hentry as (c' & Hc & _ & Hr & Hin). cbn in *.
           by apply (Hok1 c').
Qed.

(** ** The docker named by a queue, and its ports *)

Lemma py_split_no_sep (sep : Ascii.ascii) (s : string) :
  has_char sep s = false -> py_split sep s = [s].
Proof.
  induction s as [|a s IH]; simpl; [done|].
  destruct (decide (a = sep)); [done|]. intros H. by rewrite (IH H).
Qed.

Lemma py_split_app (sep : Ascii.ascii) (a b : string) :
  has_char sep a = false ->
  py_split sep (a +:+ String sep b) = a :: py_split sep b.
Proof.
  induction a as [|x a IH]; simpl.
  - intros _. by rewrite decide_True.
  - destruct (decide (x = sep)); [done|]. intros H. by rewrite (IH H).
Qed.

Lemma py_split_two (sep : Ascii.ascii) (a b : string) :
  exists x y rest, py_split sep (a +:+ String sep b) = x :: y :: rest.
Proof.
  induction a as [|c a (x & y & rest & IH)]; simpl.
  - rewrite decide_True by done.
    destruct (py_split sep b) as [|y rest] eqn:Hb; [|eauto].
    destruct b; simpl in Hb; [done|].
    destruct (decide _); [done|]. by destruct (py_split sep b).
  - destruct (decide (c = sep)); [|rewrite IH; eauto].
    rewrite IH. eauto.
Qed.

Lemma has_char_app (sep : Ascii.ascii) (a b : string) :
  has_char sep (a +:+ String sep b) = true.
Proof.
  induction a as [|x a IH]; simpl.
  - by rewrite decide_True.
  - by destruct (decide (x = sep)).
Qed.

(** A text [a_b] is cut in one way only when neither [a] nor [b] holds
    the separator. *)
Lemma queue_name_inj (sep : Ascii.ascii) (a b a' b' : string) :
  has_char sep a = false ->
  has_char sep b = false ->
  a +:+ String sep b = a' +:+ String sep b' ->
  a = a' /\ b = b'.
Proof.
  intros Ha Hb. revert a' Ha. induction a as [|x a IH]; intros [|y a'] Ha;
    simpl in *.
  - by intros [= ->].
  - intros [= <- ->]. by rewrite has_char_app in Hb.
  - intros [= -> _]. by rewrite decide_True in Ha.
  - destruct (decide (x = sep)); [done|].
    intros [= <- Heq]. destruct (IH a' Ha Heq) as [-> ->]. done.
Qed.

Lemma docker_of_queue_plain (name image : string) :
  has_char "_" name = false ->
  has_char "_" image = false ->
  docker_of_queue (name +:+ "_" +:+ image) = Ok image.
Proof.
  intros Hname Himg. unfold docker_of_queue.
  change ("_" +:+ image) with (String "_" image).
  by rewrite (py_split_app _ _ _ Hname), (py_split_no_sep _ _ Himg).
Qed.

Lemma find_seqZ_first (P : Z -> bool) (len : nat) :
  forall lo,
    match List.find P (seqZ lo (Z.of_nat len)) with
    | Some p =>
        lo <= p < lo + Z.of_nat len
        /\ P p = true
        /\ forall q, lo <= q < p -> P q = false
    | None => forall q, lo <= q < lo + Z.of_nat len -> P q = false
    end.
Proof.
  induction len as [|len IH]; intros lo.
  - rewrite seqZ_nil by lia. simpl. intros q Hq. lia.
  - rewrite seqZ_cons by lia.
    replace (Z.pred (Z.of_nat (S len))) with (Z.of_nat len) by lia.
    simpl. destruct (P lo) eqn:Hlo.
    + split; [lia|]. split; [done|]. intros q Hq. lia.
    + specialize (IH (Z.succ lo)).
      destruct (List.find P (seqZ (Z.succ lo) (Z.of_nat len))) as [p|].
      * destruct IH as (Hr & Hp & Hfirst). split; [lia|]. split; [done|].
        intros q Hq. destruct (decide (q = lo)) as [->|Hne]; [done|].
        apply Hfirst. lia.
      * intros q Hq. destruct (decide (q = lo)) as [->|Hne]; [done|].
        apply IH. lia.
Qed.

Lemma docker_get_outcome (ds : list Docker) (computer name : string) :
  match docker_get ds computer name with
  | Ok docker =>
      docker ∈ ds /\ d_computer docker = computer /\ d_name docker = name
  | Raise e =>
      e = NoResultFound
      /\ forall d, d ∈ ds -> ~ (d_computer d = computer /\ d_name d = name)
  end.
Proof.
  unfold docker_get.
  destruct (List.find _ ds) as [docker|] eqn:Hfind.
  - apply find_some in Hfind as [Hin Hd].
    apply bool_decide_eq_true in Hd. split; [by apply list_elem_of_In | done].
  - split; [done|]. intros d Hd Hmatch.
    apply list_elem_of_In in Hd.
    pose proof (find_none _ _ Hfind d Hd) as Hno. cbn beta in Hno.
    by rewrite bool_decide_eq_true_2 in Hno.
Qed.

(** With the docker there and a port of its range not reserved on the
    computer, [find_port] returns: the first such port. *)
Lemma find_port_free (ds : list Docker) (c : Computer)
    (docker_name : string) (docker : Docker) (p : Z) :
  docker_get ds (c_name c) docker_name = Ok docker ->
  (d_ports docker).1 <= p <= (d_ports docker).2 ->
  p ∉ c_ports c ->
  exists port,
    find_port ds c docker_name = Ok port
    /\ (d_ports docker).1 <= port <= p
    /\ (port ∉ c_ports c)
    /\ forall q, (d_ports docker).1 <= q < port -> q ∈ c_ports c.
Proof.
  intros Hget Hrange Hfree. unfold find_port. rewrite Hget. cbn [res_bind].
  destruct (d_ports docker) as [lo hi]. cbn [fst snd] in *.
  set (P := fun p => bool_decide (p ∉ c_ports c)).
  pose proof (find_seqZ_first P (Z.to_nat (hi + 1 - lo)) lo) as Hfind.
  rewrite Z2Nat.id in Hfind by lia.
  destruct (List.find P (seqZ lo (hi + 1 - lo))) as [port|].
  - destruct Hfind as (Hr & Hp & Hfirst). exists port.
    split; [done|].
    assert (Hport : port ∉ c_ports c)
      by (unfold P in Hp; by apply bool_decide_eq_true in Hp).
    split; [|split; [exact Hport|]].
    + split; [lia|]. destruct (Z_le_gt_dec port p) as [|Hgt]; [done|].
      specialize (Hfirst p ltac:(lia)). unfold P in Hfirst.
      by apply bool_decide_eq_false in Hfirst.
    + intros q Hq. specialize (Hfirst q Hq). unfold P in Hfirst.
      apply bool_decide_eq_false in Hfirst. by apply dec_stable.
  - specialize (Hfind p ltac:(lia)). unfold P in Hfind.
    by apply bool_decide_eq_false in Hfind.
Qed.

(** ** Placing a multi-GPU task *)

(** With enough free slots among the candidates, [process_task] gets as
    far as the port allocation with [to_send] holding as many entries as
    GPUs asked for, the first one on the first candidate. *)
Lemma process_task_plan (s : Supervisor) (task : nat) (t : Task)
    (h : nat) (rest : list nat) :
  db_tasks s !! task = Some t ->
  0 < t_gpu t ->
  valid_computers (queues s) t (dag_rel_of s t) 0 (computers s)
  = Ok (h :: rest) ->
  t_gpu t <= free_gpu (computers s) (h :: rest) ->
  exists m q more taken,
    computers s !! h = Some m
    /\ queue_of (dag_rel_of s t) m = Ok q
    /\ Z.of_nat (length ((h, q, 0) :: more)) = t_gpu t
    /\ Forall (entry_ok (computers s) (dag_rel_of s t) taken)
         ((h, q, 0) :: more)
    /\ process_task task s
       = bind (lift (docker_of_queue q)) (fun docker_name =>
         bind (gets db_dockers) (fun ds =>
         bind (lift (find_port ds m docker_name)) (fun master_port =>
         bind (send_loop task (t_gpu t) h master_port taken 0
                 ((h, q, 0) :: more))
           (fun _ =>
              bind (update_task task (task_set_status Queued))
                (fun _ => commit))))) s.
Proof.
  intros Ht Hg Hvalid Hfree.
  pose proof (valid_computers_spec _ _ _ _ _ _ Hvalid) as Hcands.
  assert (Hrefs : Forall (fun k => is_Some (computers s !! k)) (h :: rest)).
  { eapply Forall_impl; [exact Hcands|]. cbn beta.
    intros k (_ & c & Hc & _). rewrite Nat.sub_0_r in Hc. eauto. }
  apply Forall_cons in Hcands as [(_ & m & Hm & Hdag & Hslot) _].
  rewrite Nat.sub_0_r in Hm.
  destruct (place_loop_gpu task t (dag_rel_of s t) Hg (h :: rest) [] ∅ s
              Hrefs Hdag)
    as (ts' & tk' & added & Hrun & -> & Hok & Hlen & Hhead & _).
  destruct (Hhead h rest m eq_refl Hm (Hslot Hg)) as (q & more & Hq & ->).
  exists m, q, more, tk'. split; [exact Hm|]. split; [exact Hq|].
  split.
  { assert (Hl := Hlen ltac:(simpl; lia)).
    unfold Assignment in *. simpl length in *. lia. }
  split; [exact Hok|].
  unfold process_task. unfold bind at 1, get_task. rewrite Ht.
  unfold bind at 1, gets at 1. unfold bind at 1, gets at 1.
  unfold bind at 1, gets at 1. unfold bind at 1, lift at 1.
  rewrite Hvalid.
  assert (Hlt : (free_gpu (computers s) (h :: rest) <? t_gpu t) = false)
    by (apply Z.ltb_ge; lia).
  rewrite Hlt. unfold bind at 1. rewrite Hrun. cbn [app].
  unfold bind at 1, get_computer. rewrite Hm. reflexivity.
Qed.

(** When, moreover, the rendezvous port can be allocated, the placement
    returns, with one service task per GPU asked for and the parent
    Queued. *)
Lemma process_task_gpu_placed (s : Supervisor) (task : nat) (t : Task)
    (h : nat) (rest : list nat) (port : Z) :
  db_tasks s !! task = Some t ->
  0 < t_gpu t ->
  valid_computers (queues s) t (dag_rel_of s t) 0 (computers s)
  = Ok (h :: rest) ->
  t_gpu t <= free_gpu (computers s) (h :: rest) ->
  master_port_of s t h = Ok port ->
  exists s' svcs m,
    process_task task s = (Ok tt, s')
    /\ computers s !! h = Some m
    /\ db_tasks s'
       = alter (task_set_status Queued) task (db_tasks s) ++ svcs
    /\ Z.of_nat (length svcs) = t_gpu t
    /\ (forall i x,
          svcs !! i = Some x ->
          exists c idx,
            c ∈ computers s
            /\ (i = 0%nat -> c = m)
            /\ is_service_of t (c_name m) (c_ip m) port (t_gpu t)
                 (Z.of_nat i) (c_name c) idx x).
Proof.
  intros Ht Hg Hvalid Hfree Hport.
  destruct (process_task_plan s task t h rest Ht Hg Hvalid Hfree)
    as (m & q & more & taken & Hm & Hq & Hlen & Hok & Hrun).
  unfold master_port_of, docker_of in Hport. rewrite Hm, Hq in Hport.
  cbn [res_bind] in Hport.
  destruct (docker_of_queue q) as [dn|] eqn:Hdn; [|done].
  cbn [res_bind] in Hport.
  destruct (send_loop_spec task (t_gpu t) port h taken
              (dag_rel_of s t) ((h, q, 0) :: more) 0 s t m Ht Hm)
    as (res & s1 & svcs & Hsend & Htasks & _ & Hcount & Hall & Hret).
  specialize (Hret Hok). subst res. specialize (Hcount eq_refl).
  eexists _, svcs, m. split.
  { rewrite Hrun. unfold bind at 1, lift at 1.
    unfold bind at 1, gets at 1. unfold bind at 1, lift at 1.
    rewrite Hport. unfold bind at 1. rewrite Hsend. reflexivity. }
  split; [exact Hm|]. split.
  { cbn. rewrite Htasks. apply alter_app_l. by apply lookup_lt_Some in Ht. }
  split; [rewrite Hcount; exact Hlen|].
  intros i x Hx.
  destruct (Hall i x Hx) as (k & q' & idx & c & Hi & Hc & Hsvc).
  exists c, idx. split; [by apply list_elem_of_lookup_2 in Hc|].
  split; [|by rewrite Z.add_0_l in Hsvc].
  intros ->. cbn in Hi. injection Hi as <- <- <-. congruence.
Qed.

Lemma process_to_celery_length (s : Supervisor) (j : nat) (queue : string)
    (k : nat) :
  length (db_tasks (process_to_celery j queue k s).2) = length (db_tasks s).
Proof.
  unfold process_to_celery, bind, get_task, get_computer, apply_async,
    update_task, update_computer, modify, lift, ret.
  destruct (db_tasks s !! j) as [t|]; cbn; [|done].
  destruct (computers s !! k) as [c|]; cbn; [|done].
  destruct (t_gpu_assigned t) as [g|]; cbn; [|by rewrite length_alter].
  destruct (py_setitem _ _ _); cbn; by rewrite length_alter.
Qed.

(** For a task that asks for no GPU the loop over the candidates creates
    no task object and collects nothing. *)
Lemma place_loop_no_gpu (task : nat) (t : Task) (dag_rel : option Dag) :
  t_gpu t <= 0 ->
  forall cands ts tk s,
    length (db_tasks (place_loop task t dag_rel cands ts tk s).2)
    = length (db_tasks s)
    /\ forall ts' tk',
         (place_loop task t dag_rel cands ts tk s).1 = Ok (ts', tk') ->
         ts' = ts.
Proof.
  intros Hg [|k cands] ts tk s; cbn [place_loop].
  - split; [done|]. by intros ts' tk' [= <- <-].
  - unfold bind, get_computer, lift.
    destruct (computers s !! k) as [c|]; cbn [fst snd];
      [|split; [done | intros ? ? ?; discriminate]].
    destruct (queue_of dag_rel c) as [queue|]; cbn [fst snd];
      [|split; [done | intros ? ? ?; discriminate]].
    assert (Hz : (0 <? t_gpu t) = false) by (apply Z.ltb_ge; lia).
    rewrite Hz.
    pose proof (process_to_celery_length s task queue k) as Hl.
    destruct (process_to_celery task queue k s) as [[[]|e] s1];
      cbn [fst snd] in *; (split; [exact Hl|]).
    + by intros ts' tk' [= <- <-].
    + intros ? ? ?; discriminate.
Qed.

Lemma created_same_length (s s' : Supervisor) :
  length (db_tasks s') = length (db_tasks s) -> created s s' = [].
Proof. intros H. unfold created. apply drop_ge. lia. Qed.

(** Whatever its outcome, [process_task] either creates no task object,
    or it creates service tasks of the task for a rendezvous host that is
    the first candidate computer, with the port allocated there. *)
Lemma process_task_services (s s' : Supervisor) (task : nat) (t : Task)
    (res : Res unit) :
  db_tasks s !! task = Some t ->
  process_task task s = (res, s') ->
  created s s' = []
  \/ exists h rest m port,
      0 < t_gpu t
      /\ valid_computers (queues s) t (dag_rel_of s t) 0 (computers s)
         = Ok (h :: rest)
      /\ computers s !! h = Some m
      /\ master_port_of s t h = Ok port
      /\ (res = Ok tt -> Z.of_nat (length (created s s')) = t_gpu t)
      /\ forall i x,
           created s s' !! i = Some x ->
           exists c idx,
             c ∈ computers s
             /\ (i = 0%nat -> c = m)
             /\ is_service_of t (c_name m) (c_ip m) port (t_gpu t)
                  (Z.of_nat i) (c_name c) idx x.
Proof.
  intros Ht Hrun.
  assert (Hnone : created s s = []) by (by apply created_same_length).
  destruct (valid_computers (queues s) t (dag_rel_of s t) 0
              (computers s)) as [cands|e] eqn:Hvalid.
  2:{ left. unfold process_task, bind, get_task, gets, lift in Hrun.
      rewrite Ht, Hvalid in Hrun. by injection Hrun as <- <-. }
  destruct (free_gpu (computers s) cands <? t_gpu t) eqn:Hfree.
  { left. unfold process_task, bind, get_task, gets, lift in Hrun.
    rewrite Ht, Hvalid, Hfree in Hrun. by injection Hrun as <- <-. }
  apply Z.ltb_ge in Hfree.
  destruct (decide (0 < t_gpu t)) as [Hg|Hg].
  - destruct cands as [|h rest]; [unfold free_gpu in Hfree; simpl in Hfree; lia|].
    destruct (process_task_plan s task t h rest Ht Hg Hvalid Hfree)
      as (m & q & more & taken & Hm & Hq & Hlen & Hok & Hplan).
    rewrite Hplan in Hrun. clear Hplan.
    unfold bind at 1, lift at 1 in Hrun.
    destruct (docker_of_queue q) as [dn|] eqn:Hdn;
      [|left; by injection Hrun as <- <-].
    unfold bind at 1, gets at 1 in Hrun. unfold bind at 1, lift at 1 in Hrun.
    destruct (find_port (db_dockers s) m dn) as [port|] eqn:Hport;
      [|left; by injection Hrun as <- <-].
    destruct (send_loop_spec task (t_gpu t) port h taken
                (dag_rel_of s t) ((h, q, 0) :: more) 0 s t m Ht Hm)
      as (res1 & s1 & svcs & Hsend & Htasks & _ & Hcount & Hall & _).
    unfold bind at 1 in Hrun. rewrite Hsend in Hrun.
    assert (Hcreated : created s s' = svcs
                       /\ (res = Ok tt -> res1 = Ok tt)).
    { unfold created. destruct res1 as [[]|e1].
      - injection Hrun as <- <-. cbn. split; [|done].
        rewrite drop_alter_lt by (by apply lookup_lt_Some in Ht).
        rewrite Htasks. apply drop_app_length.
      - injection Hrun as <- <-. split; [|done].
        rewrite Htasks. apply drop_app_length. }
    destruct Hcreated as [-> Hres].
    right. exists h, rest, m, port.
    split; [exact Hg|]. split; [done|]. split; [exact Hm|].
    split.
    { unfold master_port_of, docker_of. rewrite Hm, Hq. cbn [res_bind].
      rewrite Hdn. exact Hport. }
    split.
    { intros Hr. rewrite (Hcount (Hres Hr)). exact Hlen. }
    intros i x Hx.
    destruct (Hall i x Hx) as (k & q' & idx & c & Hi & Hc & Hsvc).
    exists c, idx. split; [by apply list_elem_of_lookup_2 in Hc|].
    split; [|by rewrite Z.add_0_l in Hsvc].
    intros ->. cbn in Hi. injection Hi as <- <- <-. congruence.
  - left. apply created_same_length.
    unfold process_task, bind, get_task, gets, lift in Hrun.
    rewrite Ht, Hvalid in Hrun.
    assert (Hlt : (free_gpu (computers s) cands <? t_gpu t) = false)
      by (apply Z.ltb_ge; lia).
    rewrite Hlt in Hrun.
    destruct (place_loop_no_gpu task t (dag_rel_of s t)
                ltac:(lia) cands [] ∅ s) as [Hl Hts].
    destruct (place_loop task t (dag_rel_of s t) cands [] ∅ s)
      as [[[ts' tk']|e] s1]; cbn [fst snd] in *.
    + rewrite (Hts ts' tk' eq_refl) in Hrun. unfold ret in Hrun.
      by injection Hrun as <- <-.
    + by injection Hrun as <- <-.
Qed.

Lemma valid_computers_sublist qs t dag_rel (cs : list Computer) :
  forall k0 cands,
    valid_computers qs t dag_rel k0 cs = Ok cands ->
    cands `sublist_of` seq k0 (length cs).
Proof.
  induction cs as [|c cs IH]; intros k0 cands; simpl.
  - intros [= <-]. constructor.
  - destruct (valid_computer qs t dag_rel c) as [error|]; simpl; [|done].
    destruct (valid_computers qs t dag_rel (S k0) cs) as [rest|] eqn:Hrest;
      simpl; [|done].
    intros [= <-]. specialize (IH _ _ Hrest).
    destruct error; [by apply sublist_cons | by apply sublist_skip].
Qed.

Lemma free_gpu_step (cs : list Computer) (x : nat) (l : list nat) :
  free_gpu cs (x :: l)
  = match cs !! x with
    | Some c => free_slots c
    | None => 0
    end + free_gpu cs l.
Proof. unfold free_gpu. simpl. by destruct (cs !! x). Qed.

Lemma free_gpu_sublist (cs : list Computer) (l1 l2 : list nat) :
  l1 `sublist_of` l2 -> free_gpu cs l1 <= free_gpu cs l2.
Proof.
  induction 1 as [|x l1 l2 _ IH|x l1 l2 _ IH]; [done | |];
    rewrite ?free_gpu_step.
  - lia.
  - destruct (cs !! x) as [c|]; [|lia].
    pose proof (free_slots_nonneg c). lia.
Qed.

(** C3, as amended.  For a task asking for g >= 1 GPUs: when exactly g
    slots are free across the candidate computers, there is a first
    candidate, the rendezvous host.  The docker whose ports are scanned is
    the one named by the second segment, between underscores, of the queue
    name made of the host's name and the worker image (or "default"); it is
    the image itself when neither name holds an underscore.  If the host
    has that docker and a port of its range is not reserved on the host,
    the placement returns having created exactly g service tasks, of ranks
    0..g-1 in creation order, all carrying the first such port and
    world_size g, with the parent Queued.  When fewer than g slots are
    free across the candidates, or cluster-wide, the placement changes
    nothing: no service task, and the parent is left as it was. *)
Theorem gpu_task_placement (s : Supervisor) (task : nat) (t : Task)
    (cands : list nat) :
  db_tasks s !! task = Some t ->
  1 <= t_gpu t ->
  valid_computers (queues s) t (dag_rel_of s t) 0 (computers s)
  = Ok cands ->
  (free_gpu (computers s) cands = t_gpu t ->
   exists h rest m d,
     cands = h :: rest
     /\ computers s !! h = Some m
     /\ dag_rel_of s t = Some d
     /\ (has_char "_" (c_name m) = false ->
         has_char "_" (py_or (docker_img d) "default") = false ->
         docker_of_queue
           (c_name m +:+ "_" +:+ py_or (docker_img d) "default")
         = Ok (py_or (docker_img d) "default"))
     /\ forall dn docker p,
          docker_of_queue
            (c_name m +:+ "_" +:+ py_or (docker_img d) "default")
          = Ok dn ->
          docker_get (db_dockers s) (c_name m) dn = Ok docker ->
          (d_ports docker).1 <= p <= (d_ports docker).2 ->
          p ∉ c_ports m ->
          exists port s' svcs,
            (d_ports docker).1 <= port <= p
            /\ (port ∉ c_ports m)
            /\ (forall q, (d_ports docker).1 <= q < port -> q ∈ c_ports m)
            /\ process_task task s = (Ok tt, s')
            /\ db_tasks s'
               = alter (task_set_status Queued) task (db_tasks s) ++ svcs
            /\ Z.of_nat (length svcs) = t_gpu t
            /\ forall i x,
                 svcs !! i = Some x ->
                 t_parent x = Some (t_id t)
                 /\ t_type x = Service
                 /\ exists di,
                      distr_info (t_additional_info x) = Some di
                      /\ rank di = Z.of_nat i
                      /\ master_port di = port
                      /\ world_size di = t_gpu t)
  /\ (free_gpu (computers s) cands < t_gpu t
      \/ free_gpu (computers s) (seq 0 (length (computers s))) < t_gpu t ->
      process_task task s = (Ok tt, s)).
Proof.
  intros Ht Hg Hvalid. split.
  - intros Hfree. destruct cands as [|h rest].
    { unfold free_gpu in Hfree. simpl in Hfree. lia. }
    pose proof (valid_computers_spec _ _ _ _ _ _ Hvalid) as Hcands.
    apply Forall_cons in Hcands as [(_ & m & Hm & [d Hd] & _) _].
    rewrite Nat.sub_0_r in Hm.
    exists h, rest, m, d. split; [done|]. split; [exact Hm|].
    split; [exact Hd|]. split; [apply docker_of_queue_plain|].
    intros dn docker p Hdn Hget Hrange Hp.
    destruct (find_port_free (db_dockers s) m dn docker p Hget Hrange Hp)
      as (port & Hport & Hle & Hnot & Hfirst).
    assert (Hmaster : master_port_of s t h = Ok port).
    { unfold master_port_of, docker_of. rewrite Hm, Hd. cbn [queue_of res_bind].
      rewrite Hdn. exact Hport. }
    destruct (process_task_gpu_placed s task t h rest port Ht ltac:(lia)
                Hvalid ltac:(lia) Hmaster)
      as (s' & svcs & m' & Hrun & Hm' & Htasks & Hlen & Hall).
    exists port, s', svcs. split; [exact Hle|]. split; [exact Hnot|].
    split; [exact Hfirst|].
    split; [exact Hrun|]. split; [exact Htasks|].
    split; [exact Hlen|]. intros i x Hx.
    destruct (Hall i x Hx)
      as (c & idx & _ & _ & Hp' & Hty & _ & _ & _ & di & Hdi & Hr & Hmp & Hw & _).
    split; [exact Hp'|]. split; [exact Hty|]. exists di. by repeat split.
  - intros Hfew.
    assert (Hlt : free_gpu (computers s) cands < t_gpu t).
    { destruct Hfew as [H|H]; [exact H|].
      pose proof (free_gpu_sublist (computers s) _ _
                    (valid_computers_sublist _ _ _ _ _ _ Hvalid)). lia. }
    unfold process_task, bind, get_task, gets, lift. rewrite Ht, Hvalid.
    apply Z.ltb_lt in Hlt. by rewrite Hlt.
Qed.

Lemma gpu_task_placement_witness :
  exists s' svcs,
    process_task 0 Ex.two_gpus = (Ok tt, s')
    /\ db_tasks s'
       = alter (task_set_status Queued) 0%nat (db_tasks Ex.two_gpus) ++ svcs
    /\ Z.of_nat (length svcs) = 2
    /\ Ex.master_ports svcs = [29500; 29500].
Proof.
  destruct (gpu_task_placement Ex.two_gpus 0 (Ex.gpu_task 1 7 2) [0%nat]
              eq_refl ltac:(simpl; lia) ltac:(vm_compute; reflexivity))
    as [Hexact _].
  destruct (Hexact ltac:(vm_compute; reflexivity))
    as (h & rest & m & d & Heq & Hm & Hd & Hplain & Hplace).
  injection Heq as <- <-.
  injection Hm as <-. injection Hd as <-.
  destruct (Hplace "default"%string Ex.docker_A 29500
              (Hplain eq_refl eq_refl) eq_refl ltac:(simpl; lia)
              ltac:(apply (bool_decide_unpack _); vm_compute; exact I))
    as (port & s' & svcs & Hle & _ & _ & Hrun & Htasks & Hlen & _).
  exists s', svcs. split; [exact Hrun|]. split; [exact Htasks|].
  split; [exact Hlen|].
  assert (Hs' : s' = (process_task 0 Ex.two_gpus).2) by (by rewrite Hrun).
  rewrite Hs' in Htasks. vm_compute in Htasks.
  injection Htasks as <-. reflexivity.
Defined.

(** C3 as stated fails when no rendezvous port can be allocated.  First
    input: computer A is the only candidate and has exactly one free slot
    for a task asking for one GPU, but the single port of its docker is
    reserved by a running rank 0.  Second input: the only candidate is the
    computer [gpu_box], with one free slot, its docker [default] and every
    port free; the docker looked up is [box], the second segment of the
    queue name [gpu_box_default], and the computer has none of that name.
    In both the placement raises, no service task is created and the task
    stays NotRan. *)
Lemma gpu_task_without_port :
  (valid_computers (queues (Ex.loaded Ex.port_taken))
     (Ex.gpu_task 1 7 1) (Ex.dags !! 7) 0
     (computers (Ex.loaded Ex.port_taken))
   = Ok [0%nat]
   /\ free_gpu (computers (Ex.loaded Ex.port_taken)) [0%nat] = 1
   /\ (schedule Ex.port_taken).1 = Raise AllPortsTaken
   /\ db_tasks (schedule Ex.port_taken).2 = db_tasks Ex.port_taken)
  /\ (valid_computers (queues (Ex.loaded Ex.underscored))
        (Ex.gpu_task 1 7 1) (Ex.dags !! 7) 0
        (computers (Ex.loaded Ex.underscored))
      = Ok [0%nat]
      /\ free_gpu (computers (Ex.loaded Ex.underscored)) [0%nat] = 1
      /\ (c_ports <$> computers (Ex.loaded Ex.underscored)) = [∅]
      /\ (schedule Ex.underscored).1 = Raise NoResultFound
      /\ db_tasks (schedule Ex.underscored).2 = db_tasks Ex.underscored).
Proof. repeat split; vm_compute; reflexivity. Qed.

(** ** The rendezvous address *)

(** C8, as amended.  Among the service tasks a placement creates, ranks
    follow creation order; rank 0 is on the rendezvous host and its
    rendezvous address is "localhost"; every rank's address is "localhost"
    when its computer has the name of the rendezvous host, and the IP of
    the rendezvous host otherwise. *)
Theorem rendezvous_address (s s' : Supervisor) (task : nat) (t : Task)
    (res : Res unit) :
  db_tasks s !! task = Some t ->
  process_task task s = (res, s') ->
  created s s' = []
  \/ exists host,
      host ∈ computers s
      /\ forall i x,
           created s s' !! i = Some x ->
           exists di,
             distr_info (t_additional_info x) = Some di
             /\ rank di = Z.of_nat i
             /\ (i = 0%nat ->
                 t_computer_assigned x = Some (c_name host)
                 /\ master_addr di = "localhost"%string)
             /\ master_addr di
                = (if decide (t_computer_assigned x = Some (c_name host))
                   then "localhost"%string
                   else c_ip host).
Proof.
  intros Ht Hrun.
  destruct (process_task_services s s' task t res Ht Hrun)
    as [Hnone | (h & rest & m & port & _ & _ & Hm & _ & _ & Hall)];
    [by left|].
  right. exists m. split; [by apply list_elem_of_lookup_2 in Hm|].
  intros i x Hx.
  destruct (Hall i x Hx)
    as (c & idx & _ & Hfirst & _ & _ & _ & _ & Hca & di & Hdi & Hr & _ & _
        & Haddr).
  exists di. split; [exact Hdi|]. split; [exact Hr|]. split.
  - intros Hi. specialize (Hfirst Hi). subst c.
    split; [exact Hca|]. rewrite Haddr. by destruct (decide _).
  - rewrite Haddr, Hca.
    destruct (decide (c_name c = c_name m)) as [Heq|Hne];
      destruct (decide (Some (c_name c) = Some (c_name m))) as [Heq'|Hne'];
      congruence.
Qed.

Lemma rendezvous_address_witness :
  Ex.addresses (db_tasks (process_task 0 Ex.two_computers).2)
  = [(0, Some "A", "localhost"); (1, Some "B", "10.0.0.1")]%string
  /\ (created Ex.two_computers (process_task 0 Ex.two_computers).2 = []
      \/ exists host,
          host ∈ computers Ex.two_computers
          /\ forall i x,
               created Ex.two_computers (process_task 0 Ex.two_computers).2
                 !! i = Some x ->
               exists di,
                 distr_info (t_additional_info x) = Some di
                 /\ rank di = Z.of_nat i
                 /\ (i = 0%nat ->
                     t_computer_assigned x = Some (c_name host)
                     /\ master_addr di = "localhost"%string)
                 /\ master_addr di
                    = (if decide (t_computer_assigned x
                                  = Some (c_name host))
                       then "localhost"%string
                       else c_ip host)).
Proof.
  split; [vm_compute; reflexivity|].
  apply (rendezvous_address Ex.two_computers _ 0 (Ex.gpu_task 1 7 2)
           (process_task 0 Ex.two_computers).1 eq_refl).
  apply surjective_pairing.
Defined.

(** C8 as stated fails for a rank that shares the computer of rank 0:
    with both GPUs of the job on computer A (IP 10.0.0.1), rank 1 is given
    the address "localhost", not the IP of rank 0's computer. *)
Lemma rank_beside_rank0_gets_localhost :
  (process_task 0 Ex.two_gpus).1 = Ok tt
  /\ Ex.addresses (db_tasks (process_task 0 Ex.two_gpus).2)
     = [(0, Some "A", "localhost"); (1, Some "A", "localhost")]%string
  /\ ((fun c => (c_name c, c_ip c)) <$> computers Ex.two_gpus)
     = [("A", "10.0.0.1")]%string.
Proof. repeat split; vm_compute; reflexivity. Qed.

(** ** The rendezvous port *)

Lemma account_task_ports (task : Task) (cs cs1 : list Computer) :
  account_task task cs = Ok cs1 ->
  (t_computer_assigned task = None /\ cs1 = cs)
  \/ exists i c c',
      t_computer_assigned task = Some (c_name c)
      /\ cs !! i = Some c
      /\ cs1 = <[i := c']> cs
      /\ c_name c' = c_name c
      /\ forall p,
           p ∈ c_ports c' <->
           p ∈ c_ports c
           \/ exists di,
               distr_info (t_additional_info task) = Some di
               /\ rank di = 0
               /\ master_port di = p.
Proof.
  unfold account_task.
  destruct (t_computer_assigned task) as [assigned|] eqn:Hassigned;
    [|intros [= <-]; by left].
  destruct (list_find _ cs) as [[i c]|] eqn:Hfind; [|discriminate].
  apply list_find_Some in Hfind as (Hi & Hname & _). subst assigned.
  intros H. right. exists i, c.
  assert (Hgpu : exists c2,
             match t_gpu_assigned task with
             | Some g =>
                 res_bind
                   (py_setitem
                      (c_gpu (computer_set_cpu (c_cpu c - t_cpu task) c)) g
                      (t_id task))
                   (fun gpu =>
                      Ok (computer_set_gpu gpu
                            (computer_set_cpu (c_cpu c - t_cpu task) c)))
             | None => Ok (computer_set_cpu (c_cpu c - t_cpu task) c)
             end = Ok c2
             /\ c_name c2 = c_name c /\ c_ports c2 = c_ports c).
  { destruct (t_gpu_assigned task) as [g|]; [|eauto].
    destruct (py_setitem _ g (t_id task)) as [gpu|]; [|done].
    cbn. eauto. }
  destruct Hgpu as (c2 & Hc2 & Hn2 & Hp2). rewrite Hc2 in H. cbn in H.
  injection H as <-. eexists.
  split; [reflexivity|]. split; [exact Hi|]. split; [reflexivity|].
  destruct (distr_info (t_additional_info task)) as [di|].
  - destruct (decide (rank di = 0)) as [Hr|Hr]; cbn.
    + split; [exact Hn2|]. intros p. rewrite Hp2, elem_of_union,
        elem_of_singleton. split.
      * intros [-> | Hin]; [right; eauto | by left].
      * intros [Hin | (di' & [= <-] & _ & <-)]; [by right | by left].
    + split; [exact Hn2|]. intros p. rewrite Hp2. split; [by left|].
      intros [Hin | (di' & [= <-] & Hr' & _)]; [done | congruence].
  - cbn. split; [exact Hn2|]. intros p. rewrite Hp2. split; [by left|].
    intros [Hin | (di' & ? & _)]; [done | discriminate].
Qed.

(** The reserved ports after the accounting loop: those reserved before,
    and the rendezvous ports of the rank-0 tasks accounted to the
    computer. *)
Lemma account_tasks_ports (tasks : list Task) :
  forall cs cs' : list Computer,
    NoDup (map c_name cs) ->
    account_tasks tasks cs = Ok cs' ->
    forall k c', cs' !! k = Some c' ->
      exists c,
        cs !! k = Some c
        /\ c_name c' = c_name c
        /\ forall p,
             p ∈ c_ports c' <->
             p ∈ c_ports c
             \/ exists task, task ∈ tasks /\ reserves (c_name c) p task.
Proof.
  induction tasks as [|task tasks IH]; intros cs cs' Hnd; simpl.
  - intros [= <-] k c' Hk. exists c'. split; [done|]. split; [done|].
    intros p. split; [by left|].
    intros [Hin | (task & Hin & _)]; [done | inversion Hin].
  - destruct (account_task task cs) as [cs1|] eqn:Hstep; simpl; [|done].
    intros Hrest k c' Hk.
    apply account_task_ports in Hstep
      as [[Hnone ->] | (i & c & c1 & Has & Hi & -> & Hn & Hports)].
    + destruct (IH _ _ Hnd Hrest k c' Hk) as (c & Hck & Hname & Hp).
      exists c. split; [done|]. split; [done|]. intros p. rewrite Hp.
      split.
      * intros [Hin | (u & Hu & Hres)]; [by left|].
        right. exists u. split; [by right | done].
      * intros [Hin | (u & Hu & Hres)]; [by left|].
        apply elem_of_cons in Hu as [-> | Hu].
        -- destruct Hres as [Hres _]. congruence.
        -- right. eauto.
    + assert (Hnames : map c_name (<[i := c1]> cs) = map c_name cs).
      { rewrite list_fmap_insert, Hn. apply list_insert_id.
        by rewrite list_lookup_fmap, Hi. }
      assert (Hnd1 : NoDup (map c_name (<[i := c1]> cs)))
        by (by rewrite Hnames).
      destruct (IH _ _ Hnd1 Hrest k c' Hk) as (c0 & Hck & Hname & Hp).
      destruct (decide (k = i)) as [->|Hne].
      * rewrite list_lookup_insert_eq in Hck
          by (by apply lookup_lt_Some in Hi).
        injection Hck as <-. exists c. split; [done|].
        split; [congruence|]. intros p. rewrite Hp, Hports, Hn. split.
        -- intros [[Hin | (di & Hdi & Hr & Hmp)] | (u & Hu & Hres)].
           ++ by left.
           ++ right. exists task. split; [left|]. split; eauto.
           ++ right. exists u. split; [by right | done].
        -- intros [Hin | (u & Hu & Hres)]; [by left; left|].
           apply elem_of_cons in Hu as [-> | Hu].
           ++ left. right. by destruct Hres as [_ Hres].
           ++ right. eauto.
      * rewrite list_lookup_insert_ne in Hck by done.
        exists c0. split; [done|]. split; [done|].
        assert (Hother : c_name c0 <> c_name c).
        { intros Heq. apply Hne.
          apply (NoDup_lookup (map c_name cs) k i (c_name c0)); auto.
          - by rewrite list_lookup_fmap, Hck.
          - by rewrite list_lookup_fmap, Hi, Heq. }
        intros p. rewrite Hp. split.
        -- intros [Hin | (u & Hu & Hres)]; [by left|].
           right. exists u. split; [by right | done].
        -- intros [Hin | (u & Hu & Hres)]; [by left|].
           apply elem_of_cons in Hu as [-> | Hu].
           ++ destruct Hres as [Hres _]. congruence.
           ++ right. eauto.
Qed.

(** After Capacity Accounting the reserved ports of a computer are the
    rendezvous ports of the Queued or InProgress rank-0 tasks assigned to
    it. *)
Lemma load_computers_ports (s s' : Supervisor) :
  NoDup (map r_name (db_computers s)) ->
  load_computers s = (Ok tt, s') ->
  forall c p,
    c ∈ computers s' ->
    p ∈ c_ports c <->
    exists task,
      task ∈ db_tasks s
      /\ t_status task ∈ [Queued; InProgress]
      /\ reserves (c_name c) p task.
Proof.
  intros Hnd. unfold load_computers, bind, gets, lift, modify. simpl.
  rewrite objects_by_status.
  destruct (account_tasks _ _) as [cs'|] eqn:Hacc; [|discriminate].
  intros [= <-] c p Hc. simpl in Hc.
  apply list_elem_of_lookup_1 in Hc as [k Hk].
  assert (Hnd' : NoDup (map c_name (map init_computer (db_computers s)))).
  { rewrite map_map. simpl. exact Hnd. }
  destruct (account_tasks_ports _ _ _ Hnd' Hacc k c Hk)
    as (c0 & Hc0 & Hname & Hp).
  rewrite list_lookup_fmap in Hc0.
  destruct (db_computers s !! k) as [r|]; [|discriminate].
  injection Hc0 as <-. rewrite Hp, Hname. simpl. split.
  - intros [Hin | (task & Hin & Hres)]; [by apply elem_of_empty in Hin|].
    apply list_elem_of_In, filter_In in Hin as [Hin Hst].
    exists task. split; [by apply list_elem_of_In|]. split; [|done].
    unfold status_in in Hst. by apply bool_decide_eq_true in Hst.
  - intros (task & Hin & Hst & Hres). right. exists task. split; [|done].
    apply list_elem_of_In, filter_In. split; [by apply list_elem_of_In|].
    unfold status_in. by apply bool_decide_eq_true_2.
Qed.







(** * Further properties of the supervisor and of the task provider *)

(** ** Port allocation *)

(** [find_port] is first fit over the range of the docker: the port it
    returns lies in the range, is not reserved on the computer, and every
    port of the range below it is reserved.  It fails with the error of the
    docker lookup exactly when the computer has no docker of that name,
    and with the all-ports-taken exception exactly when that docker is
    there and every port of its range is reserved (an empty range
    included). *)
Theorem find_port_first_fit (ds : list Docker) (c : Computer)
    (docker_name : string) :
  match find_port ds c docker_name with
  | Ok p =>
      exists docker,
        docker_get ds (c_name c) docker_name = Ok docker
        /\ (d_ports docker).1 <= p <= (d_ports docker).2
        /\ (p ∉ c_ports c)
        /\ forall q, (d_ports docker).1 <= q < p -> q ∈ c_ports c
  | Raise e =>
      (e = NoResultFound
       /\ forall d,
            d ∈ ds -> ~ (d_computer d = c_name c /\ d_name d = docker_name))
      \/ (e = AllPortsTaken
          /\ exists docker,
              docker_get ds (c_name c) docker_name = Ok docker
              /\ forall q,
                   (d_ports docker).1 <= q <= (d_ports docker).2 ->
                   q ∈ c_ports c)
  end.
Proof.
  unfold find_port.
  pose proof (docker_get_outcome ds (c_name c) docker_name) as Hget.
  destruct (docker_get ds (c_name c) docker_name) as [docker|e];
    cbn [res_bind]; [|by left].
  destruct (d_ports docker) as [lo hi] eqn:Hports. cbn [fst snd].
  set (P := fun p => bool_decide (p ∉ c_ports c)).
  assert (HP : forall q, P q = false -> q ∈ c_ports c).
  { intros q Hq. unfold P in Hq. apply bool_decide_eq_false in Hq.
    by apply dec_stable. }
  destruct (Z_le_gt_dec (hi + 1 - lo) 0) as [Hempty|Hlen].
  - rewrite seqZ_nil by lia. simpl. right. split; [done|].
    exists docker. split; [done|]. rewrite Hports. cbn [fst snd].
    intros q Hq. lia.
  - pose proof (find_seqZ_first P (Z.to_nat (hi + 1 - lo)) lo) as Hfind.
    rewrite Z2Nat.id in Hfind by lia.
    destruct (List.find P (seqZ lo (hi + 1 - lo))) as [p|].
    + destruct Hfind as (Hr & Hp & Hfirst). exists docker.
      rewrite Hports. cbn [fst snd].
      split; [done|]. split; [lia|]. split.
      * unfold P in Hp. by apply bool_decide_eq_true in Hp.
      * intros q Hq. by apply HP, Hfirst.
    + right. split; [done|]. exists docker. rewrite Hports. cbn [fst snd].
      split; [done|]. intros q Hq. apply HP, Hfind. lia.
Qed.

Lemma find_port_unreserved (ds : list Docker) (c : Computer)
    (docker_name : string) (p : Z) :
  find_port ds c docker_name = Ok p -> p ∉ c_ports c.
Proof.
  unfold find_port.
  destruct (docker_get ds (c_name c) docker_name) as [docker|]; [|done].
  cbn [res_bind]. cbn zeta.
  destruct (List.find _ _) as [q|] eqn:Hfind; [|done].
  intros [= <-]. apply find_some in Hfind as [_ Hq].
  by apply bool_decide_eq_true in Hq.
Qed.

(** After Capacity Accounting, a port [find_port] returns for a computer
    is the rendezvous port of no Queued or InProgress rank-0 task assigned
    to that computer. *)
Theorem allocated_port_is_not_in_use (s s' : Supervisor) (c : Computer)
    (docker_name : string) (p : Z) (task : Task) :
  NoDup (map r_name (db_computers s)) ->
  load_computers s = (Ok tt, s') ->
  c ∈ computers s' ->
  find_port (db_dockers s') c docker_name = Ok p ->
  task ∈ db_tasks s ->
  t_status task ∈ [Queued; InProgress] ->
  ~ reserves (c_name c) p task.
Proof.
  intros Hnd Hload Hc Hport Hin Hst Hres.
  apply (find_port_unreserved _ _ _ _ Hport).
  apply (load_computers_ports s s' Hnd Hload c p Hc). eauto.
Qed.

Lemma allocated_port_is_not_in_use_witness :
  exists c,
    computers (load_computers Ex.port_in_use).2 !! 0%nat = Some c
    /\ find_port (db_dockers (load_computers Ex.port_in_use).2) c "default"
       = Ok 29501
    /\ reserves (c_name c) 29500 (Ex.rank0 9 "A")
    /\ ~ reserves (c_name c) 29501 (Ex.rank0 9 "A").
Proof.
  eexists. split; [vm_compute; reflexivity|].
  split; [vm_compute; reflexivity|].
  split.
  - split; [reflexivity|]. eexists. repeat split.
  - eapply (allocated_port_is_not_in_use Ex.port_in_use
              (load_computers Ex.port_in_use).2 _ "default" 29501
              (Ex.rank0 9 "A")).
    + apply (bool_decide_unpack _). vm_compute. exact I.
    + vm_compute. reflexivity.
    + apply list_elem_of_lookup_2 with 0%nat. vm_compute. reflexivity.
    + vm_compute. reflexivity.
    + left.
    + right. left.
Defined.

(** ** The candidate computers *)

Lemma existsb_gpu_is_free (slots : list Z) :
  existsb gpu_is_free slots = true <-> 0 ∈ slots.
Proof.
  rewrite existsb_exists. unfold gpu_is_free. split.
  - intros (x & Hin & Hx). apply bool_decide_eq_true in Hx. subst x.
    by apply list_elem_of_In.
  - intros Hin. exists 0. split; [by apply list_elem_of_In | done].
Qed.

Lemma valid_computer_accepts_iff qs t dag_rel c :
  valid_computer qs t dag_rel c = Ok None <-> accepts qs t dag_rel c.
Proof.
  unfold valid_computer, accepts.
  assert (Hpin : match t_computer t with
                 | Some pinned => bool_decide (pinned ≠ c_name c)
                 | None => false
                 end = false
                 <-> t_computer t = None \/ t_computer t = Some (c_name c)).
  { destruct (t_computer t) as [pinned|]; [|by split; [left|]].
    rewrite bool_decide_eq_false. split.
    - intros Hp. right. f_equal. by apply dec_stable.
    - intros [?|[= ->]]; [done|]. by intros Hp. }
  destruct (match t_computer t with Some _ => _ | None => _ end).
  { split; [done|]. intros (Hp & _). apply Hpin in Hp. done. }
  destruct (Z.ltb_spec (c_cpu c) (t_cpu t)) as [Hcpu|Hcpu].
  { split; [done|]. intros (_ & ? & _). lia. }
  destruct (c_memory c <? t_memory t)%float eqn:Hmem.
  { split; [done|]. intros (_ & _ & ? & _). done. }
  destruct dag_rel as [d|]; cbn [queue_of res_bind].
  2:{ split; [done|]. intros (_ & _ & _ & d & ? & _). done. }
  case_bool_decide as Hq.
  { split; [done|]. intros (_ & _ & _ & d' & [= <-] & Hin & _). done. }
  destruct (Z.ltb_spec 0 (t_gpu t)) as [Hg|Hg]; cbn [andb].
  - destruct (existsb gpu_is_free (c_gpu c)) eqn:Hfree; cbn [negb].
    + apply existsb_gpu_is_free in Hfree. split; [|done]. intros _.
      split; [by apply Hpin|]. split; [done|]. split; [done|]. eauto.
    + split; [done|]. intros (_ & _ & _ & d' & _ & _ & Hslot).
      apply existsb_gpu_is_free in Hslot; [congruence | done].
  - split; [|done]. intros _.
    split; [by apply Hpin|]. split; [done|]. split; [done|].
    exists d. split; [done|]. split; [done|]. lia.
Qed.

Lemma valid_computer_raises qs t dag_rel c e :
  valid_computer qs t dag_rel c = Raise e ->
  e = AttributeError /\ dag_rel = None.
Proof.
  unfold valid_computer.
  destruct (match t_computer t with Some _ => _ | None => _ end); [done|].
  destruct (_ <? _); [done|]. destruct (_ <? _)%float; [done|].
  destruct dag_rel as [d|]; cbn; [|by intros [= <-]].
  destruct (bool_decide _); [done|]. by destruct (_ && _).
Qed.

Lemma valid_computers_members qs t dag_rel (cs : list Computer) :
  forall k0 cands,
    valid_computers qs t dag_rel k0 cs = Ok cands ->
    forall k,
      k ∈ cands <->
      (k0 <= k)%nat
      /\ exists c, cs !! (k - k0)%nat = Some c /\ accepts qs t dag_rel c.
Proof.
  induction cs as [|c cs IH]; intros k0 cands; simpl.
  - intros [= <-] k. split; [intros H; inversion H|].
    intros (_ & c & Hc & _). discriminate.
  - destruct (valid_computer qs t dag_rel c) as [error|] eqn:Hc; simpl;
      [|done].
    destruct (valid_computers qs t dag_rel (S k0) cs) as [rest|] eqn:Hrest;
      simpl; [|done].
    intros [= <-] k. specialize (IH _ _ Hrest k).
    assert (Hhere : error = None <-> accepts qs t dag_rel c).
    { rewrite <- valid_computer_accepts_iff, Hc. split; congruence. }
    assert (Hlater : k ∈ rest <->
              (k0 < k)%nat
              /\ exists c0, (c :: cs) !! (k - k0)%nat = Some c0
                            /\ accepts qs t dag_rel c0).
    { rewrite IH. split.
      - intros (Hk & c0 & Hc0 & Hacc). split; [lia|]. exists c0.
        split; [|done].
        replace (k - k0)%nat with (S (k - S k0)) by lia. exact Hc0.
      - intros (Hk & c0 & Hc0 & Hacc). split; [lia|]. exists c0.
        split; [|done].
        replace (k - k0)%nat with (S (k - S k0)) in Hc0 by lia. exact Hc0. }
    destruct error as [reason|].
    + rewrite Hlater. split.
      * intros (Hk & Hrest'). split; [lia | done].
      * intros (Hk & c0 & Hc0 & Hacc).
        destruct (decide (k = k0)) as [->|Hne]; [|split; [lia | eauto]].
        rewrite Nat.sub_diag in Hc0. injection Hc0 as <-.
        apply Hhere in Hacc. done.
    + rewrite elem_of_cons, Hlater. split.
      * intros [-> | (Hk & Hrest')]; [|split; [lia | done]].
        split; [lia|]. exists c. rewrite Nat.sub_diag.
        split; [done | by apply Hhere].
      * intros (Hk & c0 & Hc0 & Hacc).
        destruct (decide (k = k0)) as [->|Hne]; [by left|].
        right. split; [lia | eauto].
Qed.

Lemma valid_computers_raises qs t dag_rel (cs : list Computer) :
  forall k0 e,
    valid_computers qs t dag_rel k0 cs = Raise e ->
    e = AttributeError /\ dag_rel = None.
Proof.
  induction cs as [|c cs IH]; intros k0 e; simpl; [done|].
  destruct (valid_computer qs t dag_rel c) as [error|e1] eqn:Hc; simpl.
  - destruct (valid_computers qs t dag_rel (S k0) cs) as [rest|e2] eqn:Hrest;
      simpl; [done|].
    intros [= <-]. by apply (IH (S k0)).
  - intros [= <-]. by apply valid_computer_raises in Hc.
Qed.

(** The candidates of a task are the computers of [self.computers] that
    pass the five checks, each once and in the order of [self.computers];
    collecting them fails only for a task without dag, with
    [AttributeError]. *)
Theorem valid_computers_candidates (qs : list string) (t : Task)
    (dag_rel : option Dag) (cs : list Computer) :
  match valid_computers qs t dag_rel 0 cs with
  | Ok cands =>
      cands `sublist_of` seq 0 (length cs)
      /\ forall k,
           k ∈ cands <-> exists c, cs !! k = Some c /\ accepts qs t dag_rel c
  | Raise e => e = AttributeError /\ dag_rel = None
  end.
Proof.
  destruct (valid_computers qs t dag_rel 0 cs) as [cands|e] eqn:Hvalid.
  - split; [by apply (valid_computers_sublist qs t dag_rel)|].
    intros k. rewrite (valid_computers_members _ _ _ _ _ _ Hvalid).
    rewrite Nat.sub_0_r. split; [by intros [_ ?] | intros ?; split; [lia|done]].
  - by apply (valid_computers_raises qs t dag_rel cs 0).
Qed.

(** ** The tasks of a tick *)

Lemma positions_from_sublist {A} (p : A -> bool) (l : list A) :
  forall k, positions_from p k l `sublist_of` seq k (length l).
Proof.
  induction l as [|x l IH]; intros k; simpl; [constructor|].
  destruct (p x); [apply sublist_skip | apply sublist_cons]; apply IH.
Qed.

Lemma filter_sublist {A} (f : A -> bool) (l : list A) :
  List.filter f l `sublist_of` l.
Proof.
  induction l as [|x l IH]; simpl; [constructor|].
  destruct (f x); [by apply sublist_skip | by apply sublist_cons].
Qed.

Lemma not_ran_tasks_members (s : Supervisor) (i : nat) :
  i ∈ not_ran_tasks (load_tasks s).2 <->
  exists t,
    db_tasks s !! i = Some t
    /\ t_status t = NotRan
    /\ t_debug t = false.
Proof.
  destruct (load_tasks_fields s) as (_ & _ & ->).
  rewrite list_elem_of_In, filter_In, <- list_elem_of_In.
  unfold by_status. rewrite positions_from_lookup, Nat.sub_0_r. split.
  - intros [(_ & t & Ht & Hst) Hdebug]. rewrite Ht in Hdebug.
    exists t. split; [done|]. split.
    + unfold status_in in Hst. apply bool_decide_eq_true in Hst.
      by apply list_elem_of_singleton in Hst.
    + by destruct (t_debug t).
  - intros (t & Ht & Hst & Hdebug). rewrite Ht, Hdebug. split; [|done].
    split; [lia|]. exists t. split; [done|].
    unfold status_in. apply bool_decide_eq_true_2. rewrite Hst. left.
Qed.

Lemma not_ran_tasks_sublist (s : Supervisor) :
  not_ran_tasks (load_tasks s).2 `sublist_of` seq 0 (length (db_tasks s)).
Proof.
  destruct (load_tasks_fields s) as (_ & _ & ->).
  etransitivity; [apply filter_sublist|]. unfold by_status.
  apply positions_from_sublist.
Qed.

(** Whether or not the dependency query then fails, [load_tasks] sets
    [not_ran_tasks] to the tasks that are NotRan and not debug, and to
    nothing else, each once and in table order. *)
Theorem load_tasks_not_ran (s : Supervisor) :
  not_ran_tasks (load_tasks s).2 `sublist_of` seq 0 (length (db_tasks s))
  /\ forall i,
       i ∈ not_ran_tasks (load_tasks s).2 <->
       exists t,
         db_tasks s !! i = Some t
         /\ t_status t = NotRan
         /\ t_debug t = false.
Proof.
  split; [apply not_ran_tasks_sublist | apply not_ran_tasks_members].
Qed.

(** ** The dependency-status query, in general *)

Lemma dependency_status_init_lookup (tasks : list Task) (id : Z) :
  forall m : gmap Z (gset TaskStatus),
    foldl (fun m t => <[t_id t := ∅]> m) m tasks !! id
    = if decide (id ∈ map t_id tasks) then Some ∅ else m !! id.
Proof.
  induction tasks as [|t tasks IH]; intros m; simpl.
  - done.
  - rewrite IH.
    destruct (decide (id ∈ map t_id tasks)) as [Hin|Hout].
    + rewrite decide_True; [done | by right].
    + destruct (decide (id = t_id t)) as [->|Hne].
      * rewrite lookup_insert_eq, decide_True; [done | left].
      * rewrite lookup_insert_ne by done.
        rewrite decide_False; [done|].
        intros H. apply elem_of_cons in H as [?|?]; done.
Qed.

(** [dependency_status] returns exactly when the join is empty, that
    is, when no task of the list has an edge to an existing task (an edge
    to a missing task is not joined); it then maps the id of every task of
    the list to the empty set and holds no other key.  With one joined
    edge it raises [AttributeError]. *)
Theorem dependency_status_outcome (db : list Task)
    (deps : list TaskDependence) (tasks : list Task) :
  ((exists item depend,
       item ∈ deps
       /\ task_id item ∈ map t_id tasks
       /\ depend ∈ db
       /\ t_id depend = depend_id item)
   /\ dependency_status db deps tasks = Raise AttributeError)
  \/ ((~ exists item depend,
         item ∈ deps
         /\ task_id item ∈ map t_id tasks
         /\ depend ∈ db
         /\ t_id depend = depend_id item)
      /\ exists res,
          dependency_status db deps tasks = Ok res
          /\ forall id,
               res !! id
               = if decide (id ∈ map t_id tasks) then Some ∅ else None).
Proof.
  destruct (dependency_items db deps (map t_id tasks)) as [|[item depend] rest]
    eqn:Hitems.
  - right. split.
    + intros (item & depend & Hitem & Hid & Hdep & Heq).
      assert (Hin : In (item, depend)
                      (dependency_items db deps (map t_id tasks))).
      { unfold dependency_items. apply in_flat_map. exists item.
        split; [by apply list_elem_of_In|].
        rewrite bool_decide_eq_true_2 by done.
        apply in_map, filter_In. split; [by apply list_elem_of_In|].
        by apply bool_decide_eq_true_2. }
      by rewrite Hitems in Hin.
    + eexists. split; [by apply dependency_status_no_dependency|].
      intros id. by rewrite dependency_status_init_lookup, lookup_empty.
  - left. split.
    + assert (Hin : In (item, depend)
                      (dependency_items db deps (map t_id tasks)))
        by (rewrite Hitems; left; done).
      unfold dependency_items in Hin. apply in_flat_map in Hin
        as (item' & Hitem & Hin).
      case_bool_decide as Hid; [|destruct Hin].
      apply in_map_iff in Hin as (depend' & [= <- <-] & Hdep).
      apply filter_In in Hdep as [Hdep Heq].
      apply bool_decide_eq_true in Heq.
      exists item', depend'. repeat split; auto; by apply list_elem_of_In.
    + apply dependency_status_with_dependency. by rewrite Hitems.
Qed.

(** ** The rows of the status aggregator *)

Lemma status_counts_sum (children : list TaskStatus) :
  foldr Z.add 0 (status_counts children).*2 = Z.of_nat (length children).
Proof.
  unfold status_counts, count_status, TaskStatus_members.
  induction children as [|c children IH]; [reflexivity|].
  cbn [map zip zip_with fmap list_fmap foldr snd List.filter] in *.
  destruct c;
    repeat match goal with
           | |- context [bool_decide (?a = ?b)] =>
               first [ change (bool_decide (a = b)) with true
                     | change (bool_decide (a = b)) with false ]
           end;
    cbn [length]; lia.
Qed.

(** [parent_tasks_stats] has a row for a task exactly when the task is
    Queued or InProgress and has a child; on a row the per-status counts
    are those of the children and add up to the number of children. *)
Theorem parent_tasks_stats_rows (db : list Task) (i : nat) :
  ((exists started finished statuses,
       (i, started, finished, statuses) ∈ parent_tasks_stats db)
   <-> exists task,
         db !! i = Some task
         /\ t_status task ∈ [Queued; InProgress]
         /\ children_of db task <> [])
  /\ forall started finished statuses,
       (i, started, finished, statuses) ∈ parent_tasks_stats db ->
       exists task,
         db !! i = Some task
         /\ foldr Z.add 0 statuses.*2
            = Z.of_nat (length (children_of db task))
         /\ forall e,
              stat statuses e
              = Ok (Z.of_nat
                      (length
                         (List.filter
                            (fun c => bool_decide (t_status c = e))
                            (children_of db task)))).
Proof.
  split; [split|].
  - intros (started & finished & statuses & Hrow).
    destruct (parent_tasks_stats_row _ _ _ _ _ Hrow)
      as (task & Hi & Hst & Hch & _). eauto.
  - intros (task & Hi & Hst & Hch).
    destruct (children_of db task) as [|c cs] eqn:Hchildren; [done|].
    do 3 eexists. unfold parent_tasks_stats.
    rewrite list_elem_of_In, in_flat_map. exists i. split.
    + apply list_elem_of_In, positions_from_lookup. split; [lia|].
      exists task. rewrite Nat.sub_0_r. split; [exact Hi|].
      unfold status_in. by apply bool_decide_eq_true_2.
    + rewrite Hi, Hchildren. left. reflexivity.
  - intros started finished statuses Hrow.
    destruct (parent_tasks_stats_row _ _ _ _ _ Hrow)
      as (task & Hi & _ & _ & ->).
    exists task. split; [done|]. split.
    + by rewrite status_counts_sum, length_map.
    + intros e. rewrite stat_status_counts. unfold count_status.
      do 2 f_equal. clear Hrow.
      induction (children_of db task) as [|c l IH]; [done|].
      simpl. destruct (bool_decide (t_status c = e)); simpl; by rewrite IH.
Qed.

(** The chain of [process_parent_tasks] never fails on the counts of a
    row; its result is the stored status or the status of a child, and
    Stopped and NotRan children never decide: with only such children the
    stored status is kept. *)
Theorem parent_status_result (current : TaskStatus)
    (children : list TaskStatus) :
  exists r,
    parent_status current (status_counts children) = Ok r
    /\ (r = current
        \/ (r ∈ children /\ r ∈ [Failed; Skipped; Queued; InProgress; Success]))
    /\ ((forall c, c ∈ children -> c = Stopped \/ c = NotRan) -> r = current).
Proof.
  rewrite parent_status_counts. eexists. split; [reflexivity|].
  unfold precedence. simpl.
  repeat (let H := fresh "H" in
          case_bool_decide as H;
          [simpl; split;
           [right; split; [exact H | set_solver]
           | intros Hall; destruct (Hall _ H); discriminate]
          |]).
  simpl. split; [by left | done].
Qed.

(** ** Queue names *)

(** A queue name built by [process_task] always splits into at least two
    segments, so reading the docker name off it never raises; the name
    read is the worker image of the dag (or "default") when neither the
    computer's name nor the image contains an underscore. *)
Theorem docker_of_queue_of (c : Computer) (d : Dag) (queue : string) :
  queue_of (Some d) c = Ok queue ->
  (exists docker_name, docker_of_queue queue = Ok docker_name)
  /\ (has_char "_" (c_name c) = false ->
      has_char "_" (py_or (docker_img d) "default") = false ->
      docker_of_queue queue = Ok (py_or (docker_img d) "default")).
Proof.
  intros [= <-]. unfold docker_of_queue.
  change ("_" +:+ py_or (docker_img d) "default")
    with (String "_" (py_or (docker_img d) "default")).
  split.
  - destruct (py_split_two "_" (c_name c) (py_or (docker_img d) "default"))
      as (x & y & rest & ->). simpl. eauto.
  - intros Hname Himg.
    by rewrite (py_split_app _ _ _ Hname), (py_split_no_sep _ _ Himg).
Qed.

Lemma docker_of_queue_of_witness :
  docker_of_queue "A_gpuimg" = Ok "gpuimg"%string
  /\ docker_of_queue "gpu_box_default" = Ok "box"%string.
Proof.
  split; [|reflexivity].
  apply (proj2 (docker_of_queue_of (init_computer Ex.A)
                  (mkDag 8 (Some "gpuimg"%string)) "A_gpuimg" eq_refl));
    reflexivity.
Defined.

(** ** The alive queues *)

(** [create_base] leaves in [self.queues] exactly the queue names of the
    dockers heard of within the last 10 seconds.  A computer that
    [valid_computer] accepts for a task has the queue name made of its name
    and the task's worker image (or "default") among them: the name of an
    alive docker reads the same, and when neither the computer's name nor
    the image holds an underscore, that docker is a docker of this computer
    named after the image. *)
Theorem create_base_alive (last_activity : Docker -> Z) (s : Supervisor) :
  (create_base last_activity s).1 = Ok tt
  /\ (forall q,
        q ∈ queues (create_base last_activity s).2 <->
        exists d,
          d ∈ db_dockers s
          /\ clock s - 10 <= last_activity d
          /\ q = d_computer d +:+ "_" +:+ d_name d)
  /\ forall t dag_rel c,
       valid_computer (queues (create_base last_activity s).2) t dag_rel c
       = Ok None ->
       exists d img,
         d ∈ db_dockers s
         /\ clock s - 10 <= last_activity d
         /\ docker_img <$> dag_rel = Some img
         /\ d_computer d +:+ "_" +:+ d_name d
            = c_name c +:+ "_" +:+ py_or img "default"
         /\ (has_char "_" (c_name c) = false ->
             has_char "_" (py_or img "default") = false ->
             d_computer d = c_name c /\ d_name d = py_or img "default").
Proof.
  assert (Hq : forall q,
             q ∈ queues (create_base last_activity s).2 <->
             exists d,
               d ∈ db_dockers s
               /\ clock s - 10 <= last_activity d
               /\ q = d_computer d +:+ "_" +:+ d_name d).
  { intros q. unfold create_base, bind, gets, modify. cbn.
    rewrite list_elem_of_In, in_map_iff. split.
    - intros (d & <- & Hd). apply filter_In in Hd as [Hd Hrecent].
      exists d. split; [by apply list_elem_of_In|].
      split; [by apply Z.leb_le | done].
    - intros (d & Hd & Hrecent & ->). exists d. split; [done|].
      apply filter_In. split; [by apply list_elem_of_In | by apply Z.leb_le]. }
  split; [reflexivity|]. split; [exact Hq|].
  intros t dag_rel c Hvalid.
  apply valid_computer_accepts_iff in Hvalid
    as (_ & _ & _ & dg & -> & Hin & _).
  apply Hq in Hin as (d & Hd & Hrecent & Heq).
  exists d, (docker_img dg).
  split; [exact Hd|]. split; [exact Hrecent|]. split; [reflexivity|].
  split; [by rewrite Heq|].
  intros Hname Himg.
  destruct (queue_name_inj "_" (c_name c) (py_or (docker_img dg) "default")
              (d_computer d) (d_name d) Hname Himg Heq) as [-> ->].
  done.
Qed.

(** With an underscore in a name the queue does not tell the docker: the
    only docker is [b_c] of computer [a], and the computer [a_b] is
    accepted for a task of the image [c]. *)
Lemma create_base_alive_witness :
  queues
    (create_base (fun _ => 0)
       (Ex.tables [] [] [mkDocker "a" "b_c" (29500, 29510)] [] [])).2
  = ["a_b_c"%string]
  /\ valid_computer ["a_b_c"%string] (Ex.task 1 NotRan 1 1 0)
       (Some (mkDag 9 (Some "c"%string)))
       (init_computer (mkRaw "a_b" "10.0.0.5" 8 16 0))
     = Ok None
  /\ exists d img,
       d ∈ [mkDocker "a" "b_c" (29500, 29510)]
       /\ Some (Some "c"%string) = Some img
       /\ d_computer d +:+ "_" +:+ d_name d
          = ("a_b" +:+ "_" +:+ py_or img "default")%string.
Proof.
  split; [vm_compute; reflexivity|]. split; [vm_compute; reflexivity|].
  destruct (proj2 (proj2
              (create_base_alive (fun _ => 0)
                 (Ex.tables [] [] [mkDocker "a" "b_c" (29500, 29510)] [] [])))
              (Ex.task 1 NotRan 1 1 0) (Some (mkDag 9 (Some "c"%string)))
              (init_computer (mkRaw "a_b" "10.0.0.5" 8 16 0))
              ltac:(vm_compute; reflexivity))
    as (d & img & Hd & _ & Himg & Heq & _).
  exists d, img. split; [exact Hd|]. split; [exact Himg | exact Heq].
Defined.

(** ** Tasks the gate passes over *)

(** A task whose [dag_rel] reads [None], or whose dependency statuses hold
    neither Stopped nor Failed and are neither empty nor exactly
    [{Success}], comes out of [process_tasks] as it went in, whatever the
    outcome of the run, and nothing is submitted for it. *)
Theorem passed_over_task_is_left (s : Supervisor) (i : nat) (t : Task) :
  db_tasks s !! i = Some t ->
  passed_over s t ->
  db_tasks (process_tasks s).2 !! i = Some t
  /\ exists new,
       celery (process_tasks s).2 = celery s ++ new
       /\ Forall (fun e => sent_task e <> i) new.
Proof.
  intros Hi Hpass. unfold process_tasks, bind, gets. cbn.
  by apply process_tasks_loop_passes.
Qed.

Lemma passed_over_task_is_left_witness :
  (t_status <$> db_tasks (process_tasks (Ex.gated InProgress)).2)
  = [NotRan; Queued]
  /\ db_tasks (process_tasks (Ex.gated InProgress)).2 !! 0%nat
     = Some (Ex.task 1 NotRan 1 1 0).
Proof.
  split; [vm_compute; reflexivity|].
  refine (proj1 (passed_over_task_is_left (Ex.gated InProgress) 0
                   (Ex.task 1 NotRan 1 1 0) eq_refl _)).
  right. exists {[ InProgress ]}. split; [vm_compute; reflexivity|].
  split; [|split; [|split]];
    apply (bool_decide_unpack _); vm_compute; exact I.
Defined.

(** ** What the placement phase does to task objects *)

Section Evolution.
Variable sts : list TaskStatus.
Hypothesis queued_allowed : Queued ∈ sts.

Lemma advanced_refl (t : Task) : advanced sts t t.
Proof. by left. Qed.

Lemma advanced_trans (t1 t2 t3 : Task) :
  advanced sts t1 t2 -> advanced sts t2 t3 -> advanced sts t1 t3.
Proof.
  intros [->|H12] [->|H23]; [by left | by right | by right |].
  right.
  destruct H12 as (_ & ? & ? & ? & ? & ? & ? & ? & ? & ? & ? & ? & ? & ? & ?).
  destruct H23 as (? & ? & ? & ? & ? & ? & ? & ? & ? & ? & ? & ? & ? & ? & ?).
  repeat split; congruence.
Qed.

Lemma advanced_set_status (st : TaskStatus) (t : Task) :
  st ∈ sts -> advanced sts t (task_set_status st t).
Proof. intros Hst. right. by repeat split. Qed.

Lemma advanced_dispatched (r : Z) (name : string) (t : Task) :
  advanced sts t (dispatched r name t).
Proof. right. by repeat split. Qed.

Lemma evolving_refl (s : Supervisor) : evolving sts s s.
Proof. intros i t Hi. eauto using advanced_refl. Qed.

Lemma evolving_trans (s1 s2 s3 : Supervisor) :
  evolving sts s1 s2 -> evolving sts s2 s3 -> evolving sts s1 s3.
Proof.
  intros H12 H23 i t Hi.
  destruct (H12 i t Hi) as (t2 & Hi2 & Ha).
  destruct (H23 i t2 Hi2) as (t3 & Hi3 & Hb).
  eauto using advanced_trans.
Qed.

Lemma evolves_bind {A B} (m : M A) (k : A -> M B) :
  evolves sts m -> (forall a, evolves sts (k a)) -> evolves sts (bind m k).
Proof.
  intros Hm Hk s. unfold bind. specialize (Hm s).
  destruct (m s) as [[a|e] s1]; cbn [snd] in *; [|done].
  eapply evolving_trans; [exact Hm | apply Hk].
Qed.

(** A computation that leaves the task table alone. *)
Lemma evolves_same_tasks {A} (m : M A) :
  (forall s, db_tasks (m s).2 = db_tasks s) -> evolves sts m.
Proof. intros Hm s i t Hi. rewrite Hm. eauto using advanced_refl. Qed.

Lemma evolves_update_task (j : nat) (f : Task -> Task) :
  (forall t, advanced sts t (f t)) -> evolves sts (update_task j f).
Proof.
  intros Hf s i t Hi. unfold update_task, modify. cbn.
  destruct (decide (i = j)) as [->|Hne].
  - rewrite list_lookup_alter_eq, Hi. cbn. eauto.
  - rewrite list_lookup_alter_ne by done. eauto using advanced_refl.
Qed.

Lemma evolves_get_task (i : nat) : evolves sts (get_task i).
Proof.
  apply evolves_same_tasks. intros s. unfold get_task.
  by destruct (db_tasks s !! i).
Qed.

Lemma evolves_get_computer (k : nat) : evolves sts (get_computer k).
Proof.
  apply evolves_same_tasks. intros s. unfold get_computer.
  by destruct (computers s !! k).
Qed.

Lemma evolves_commit : evolves sts commit.
Proof. by apply evolves_same_tasks. Qed.

Lemma evolves_process_to_celery (j : nat) (queue : string) (k : nat) :
  evolves sts (process_to_celery j queue k).
Proof.
  unfold process_to_celery.
  apply evolves_bind; [apply evolves_get_task | intros t].
  apply evolves_bind; [apply evolves_get_computer | intros c].
  apply evolves_bind; [by apply evolves_same_tasks | intros r].
  apply evolves_bind;
    [apply evolves_update_task, advanced_dispatched | intros _].
  apply evolves_bind; [|intros _; apply evolves_commit].
  destruct (t_gpu_assigned t) as [g|]; [|by apply evolves_same_tasks].
  apply evolves_bind;
    [apply evolves_same_tasks; intros s; unfold lift;
     by destruct (py_setitem _ _ _) | intros gpu].
  apply evolves_bind; [by apply evolves_same_tasks | intros _].
  apply evolves_bind; [by apply evolves_same_tasks | intros _].
  by apply evolves_same_tasks.
Qed.

Lemma evolves_create_service_task (task : nat) (gpu_assigned : option Z)
    (distr : option DistrInfo) :
  evolves sts (create_service_task task gpu_assigned distr).
Proof.
  intros s i t Hi.
  unfold create_service_task, bind, get_task, gets, commit, modify, ret.
  destruct (db_tasks s !! task); cbn; [|eauto using advanced_refl].
  exists t. split; [by apply lookup_app_l_Some | apply advanced_refl].
Qed.

Lemma evolves_send_loop (task : nat) (world_size : Z) (main_cmp : nat)
    (master_port : Z) (taken : gmap string (list Z))
    (to_send : list Assignment) :
  forall rank,
    evolves sts
      (send_loop task world_size main_cmp master_port taken rank to_send).
Proof.
  induction to_send as [|[[k q] idx] rest IH]; intros rank;
    cbn [send_loop]; [by apply evolves_same_tasks|].
  apply evolves_bind; [|intros _; apply IH].
  unfold send_one.
  apply evolves_bind; [apply evolves_get_computer | intros c].
  apply evolves_bind; [apply evolves_get_computer | intros m].
  apply evolves_bind; [by apply evolves_same_tasks | intros local].
  apply evolves_bind; [apply evolves_create_service_task | intros ref].
  apply evolves_process_to_celery.
Qed.

Lemma evolves_place_loop (task : nat) (t : Task) (dag_rel : option Dag)
    (cands : list nat) :
  forall to_send taken,
    evolves sts (place_loop task t dag_rel cands to_send taken).
Proof.
  induction cands as [|k cands IH]; intros to_send taken; cbn [place_loop];
    [by apply evolves_same_tasks|].
  apply evolves_bind; [apply evolves_get_computer | intros c].
  apply evolves_bind; [by apply evolves_same_tasks | intros queue].
  destruct (0 <? t_gpu t).
  - destruct (take_slots _ _ _ _ _ _ _ _) as [to_send' taken'].
    destruct (_ >=? _); [by apply evolves_same_tasks | apply IH].
  - apply evolves_bind; [apply evolves_process_to_celery | intros _].
    by apply evolves_same_tasks.
Qed.

Lemma evolves_process_task (task : nat) : evolves sts (process_task task).
Proof.
  unfold process_task.
  apply evolves_bind; [apply evolves_get_task | intros t].
  apply evolves_bind; [by apply evolves_same_tasks | intros dag_rel].
  apply evolves_bind; [by apply evolves_same_tasks | intros qs].
  apply evolves_bind; [by apply evolves_same_tasks | intros cs].
  apply evolves_bind; [by apply evolves_same_tasks | intros cands].
  destruct (_ <? _); [by apply evolves_same_tasks|].
  apply evolves_bind; [apply evolves_place_loop | intros [to_send taken]].
  destruct to_send as [|[[main_cmp queue] idx] rest];
    [by apply evolves_same_tasks|].
  apply evolves_bind; [apply evolves_get_computer | intros m].
  apply evolves_bind; [by apply evolves_same_tasks | intros docker_name].
  apply evolves_bind; [by apply evolves_same_tasks | intros ds].
  apply evolves_bind; [by apply evolves_same_tasks | intros master_port].
  apply evolves_bind; [apply evolves_send_loop | intros _].
  apply evolves_bind; [|intros _; apply evolves_commit].
  apply evolves_update_task. intros t0. by apply advanced_set_status.
Qed.
End Evolution.

Lemma evolves_process_tasks_step (task : nat) :
  evolves [Queued; Skipped] (process_tasks_step task).
Proof.
  assert (Hq : Queued ∈ [Queued; Skipped]) by left.
  unfold process_tasks_step.
  apply evolves_bind; [apply evolves_get_task | intros t].
  apply evolves_bind; [by apply evolves_same_tasks | intros dag_rel].
  destruct dag_rel as [d|]; [|by apply evolves_same_tasks].
  apply evolves_bind; [by apply evolves_same_tasks | intros dep].
  destruct (dep !! t_id t) as [ds|]; [|by apply evolves_same_tasks].
  destruct (_ || _).
  - unfold change_status.
    apply evolves_bind; [by apply evolves_same_tasks | intros now].
    apply evolves_bind; [by apply evolves_same_tasks | intros _].
    apply evolves_bind; [|intros _; by apply evolves_commit].
    apply evolves_update_task. intros t0. apply advanced_set_status.
    right. left.
  - destruct (_ && _);
      [by apply evolves_same_tasks | by apply evolves_process_task].
Qed.

Lemma evolves_process_tasks : evolves [Queued; Skipped] process_tasks.
Proof.
  unfold process_tasks.
  apply evolves_bind; [by apply evolves_same_tasks | intros tasks].
  induction tasks as [|j tasks IH]; cbn [process_tasks_loop];
    [by apply evolves_same_tasks|].
  apply evolves_bind; [apply evolves_process_tasks_step | intros _; exact IH].
Qed.

(** Whatever its outcome, [process_tasks] keeps every task object; an
    object it changes belongs to a task of [not_ran_tasks], is now Queued or
    Skipped, and differs from what it was in its status, its assigned
    computer and its job handle only. *)
Theorem process_tasks_transitions (s : Supervisor) (i : nat) (t : Task) :
  db_tasks s !! i = Some t ->
  exists t',
    db_tasks (process_tasks s).2 !! i = Some t'
    /\ advanced [Queued; Skipped] t t'
    /\ (t' <> t -> i ∈ not_ran_tasks s).
Proof.
  intros Hi. destruct (evolves_process_tasks s i t Hi) as (t' & Hi' & Hadv).
  exists t'. split; [exact Hi'|]. split; [exact Hadv|]. intros Hne.
  destruct (decide (i ∈ not_ran_tasks s)) as [Hin|Hout]; [done|].
  exfalso. apply Hne.
  pose proof (fr_tasks _ _ _ _ (process_tasks_frame s) i
                (lookup_lt_Some _ _ _ Hi) Hout) as Hsame.
  congruence.
Qed.

Lemma process_tasks_transitions_witness :
  exists t',
    db_tasks (process_tasks (Ex.gated Failed)).2 !! 0%nat = Some t'
    /\ t_status t' = Skipped
    /\ advanced [Queued; Skipped] (Ex.task 1 NotRan 1 1 0) t'.
Proof.
  destruct (process_tasks_transitions (Ex.gated Failed) 0
              (Ex.task 1 NotRan 1 1 0) eq_refl) as (t' & Hi & Hadv & _).
  exists t'. split; [exact Hi|]. split; [|exact Hadv].
  assert (H : t_status <$> db_tasks (process_tasks (Ex.gated Failed)).2
                             !! 0%nat
              = Some Skipped) by (vm_compute; reflexivity).
  rewrite Hi in H. by injection H.
Defined.

(** ** A whole tick *)

(** When [load_tasks] returns, every dependency set it has stored is
    empty. *)
Lemma load_tasks_no_dependency (s s' : Supervisor) :
  load_tasks s = (Ok tt, s') -> no_dependency s'.
Proof.
  unfold load_tasks, bind, gets, modify, lift. cbn -[dependency_status].
  set (tasks := objects (db_tasks s) _).
  destruct (dependency_items (db_tasks s) (db_deps s) (map t_id tasks))
    as [|x l] eqn:Hitems.
  - rewrite (dependency_status_no_dependency _ _ _ Hitems). cbn.
    intros [= <-] id ds. cbn. rewrite dependency_status_init_lookup.
    destruct (decide _); [by intros [= <-] | by rewrite lookup_empty].
  - rewrite dependency_status_with_dependency by (by rewrite Hitems). done.
Qed.

Lemma load_computers_dep_status (s : Supervisor) :
  dep_status (load_computers s).2 = dep_status s.
Proof.
  unfold load_computers, bind, gets, modify, lift. simpl.
  destruct (account_tasks _ _); simpl; auto.
Qed.

(** With empty dependency sets the gate never skips. *)
Lemma process_tasks_step_no_dependency (task : nat) (s : Supervisor) :
  no_dependency s ->
  evolving [Queued] s (process_tasks_step task s).2
  /\ no_dependency (process_tasks_step task s).2.
Proof.
  intros Hnone. split.
  - assert (Hq : Queued ∈ [Queued]) by left.
    unfold process_tasks_step, bind, get_task, gets.
    destruct (db_tasks s !! task) as [t|]; cbn; [|by apply evolving_refl].
    destruct (dag_rel_of s t) as [d|]; cbn; [|by apply evolving_refl].
    destruct (dep_status s !! t_id t) as [ds|] eqn:Hds; cbn;
      [|by apply evolving_refl].
    rewrite (Hnone _ _ Hds).
    rewrite (bool_decide_eq_false_2 (Stopped ∈ (∅ : gset TaskStatus)))
      by set_solver.
    rewrite (bool_decide_eq_false_2 (Failed ∈ (∅ : gset TaskStatus)))
      by set_solver.
    rewrite size_empty. cbn. by apply evolves_process_task.
  - destruct (framed_process_tasks_step (fun _ => True) 0 task
                (or_introl I) s (Nat.le_0_l _)) as [Hframe _].
    unfold no_dependency. rewrite (fr_dep_status _ _ _ _ Hframe). exact Hnone.
Qed.

Lemma process_tasks_loop_no_dependency (tasks : list nat) :
  forall s,
    no_dependency s -> evolving [Queued] s (process_tasks_loop tasks s).2.
Proof.
  induction tasks as [|task tasks IH]; intros s Hnone;
    cbn [process_tasks_loop]; [apply evolving_refl|].
  destruct (process_tasks_step_no_dependency task s Hnone) as [Hstep Hnone1].
  unfold bind.
  destruct (process_tasks_step task s) as [[[]|e] s1]; cbn [snd] in *;
    [|exact Hstep].
  eapply evolving_trans; [exact Hstep | by apply IH].
Qed.

Lemma evolving_schedule (s : Supervisor) :
  evolving [Queued] s (schedule s).2.
Proof.
  unfold schedule, bind.
  destruct (load_tasks_fields s) as (Ht1 & _).
  pose proof (load_tasks_no_dependency s) as Hnone.
  destruct (load_tasks s) as [[[]|e1] s1]; cbn [fst snd] in *;
    [|intros i t Hi; rewrite Ht1; eauto using advanced_refl].
  specialize (Hnone s1 eq_refl).
  destruct (load_computers_fields s1) as (Ht2 & _).
  pose proof (load_computers_dep_status s1) as Hd2.
  destruct (load_computers s1) as [[[]|e2] s2]; cbn [fst snd] in *;
    [|intros i t Hi; rewrite Ht2, Ht1; eauto using advanced_refl].
  assert (Hnone2 : no_dependency s2).
  { unfold no_dependency. rewrite Hd2. exact Hnone. }
  intros i t Hi. rewrite <- Ht1, <- Ht2 in Hi.
  unfold process_tasks, bind, gets. cbn.
  by apply (process_tasks_loop_no_dependency (not_ran_tasks s2) s2 Hnone2).
Qed.

(** The tick leaves alone every task object that [load_tasks] did not
    put in [not_ran_tasks], and submits nothing for it. *)
Lemma schedule_untouched (s : Supervisor) (i : nat) :
  (i < length (db_tasks s))%nat ->
  i ∉ not_ran_tasks (load_tasks s).2 ->
  db_tasks (schedule s).2 !! i = db_tasks s !! i
  /\ exists new,
       celery (schedule s).2 = celery s ++ new
       /\ Forall (fun e => sent_task e <> i) new.
Proof.
  intros Hlt Hout.
  destruct (load_tasks_fields s) as (Ht1 & Hc1 & _).
  assert (Hnil : forall s0 : Supervisor,
             celery s0 = celery s ->
             exists new, celery s0 = celery s ++ new
                         /\ Forall (fun e => sent_task e <> i) new).
  { intros s0 ->. exists []. by rewrite app_nil_r. }
  unfold schedule, bind.
  destruct (load_tasks s) as [[[]|e1] s1] eqn:H1; cbn [fst snd] in *;
    [|rewrite Ht1; auto].
  destruct (load_computers_fields s1) as (Ht2 & Hc2 & Hn2).
  destruct (load_computers s1) as [[[]|e2] s2] eqn:H2; cbn [fst snd] in *;
    [|rewrite Ht2, Ht1; split; [done|]; apply Hnil; congruence].
  pose proof (process_tasks_frame s2) as Hf.
  destruct (process_tasks s2) as [r s3]; cbn [fst snd] in *.
  destruct Hf. split.
  - rewrite fr_tasks0; [by rewrite Ht2, Ht1 | by rewrite Ht2, Ht1
                        | by rewrite Hn2].
  - destruct fr_celery0 as (new & E & Hnew). exists new.
    split; [by rewrite E, Hc2, Hc1|].
    eapply Forall_impl; [exact Hnew|]. cbn beta. intros e [Hin | Hge] Heq.
    + rewrite Heq, Hn2 in Hin. done.
    + rewrite Ht2, Ht1 in Hge. lia.
Qed.

(** Through a tick ([load_tasks], [load_computers], [process_tasks]),
    whatever its outcome, every task object is kept; an object that is
    changed was NotRan and not debug, is now Queued, and differs from what
    it was in its status, its assigned computer and its job handle only.
    In particular no tick marks a task Skipped: when [load_tasks] returns,
    every dependency set is empty. *)
Theorem schedule_transitions (s : Supervisor) (i : nat) (t : Task) :
  db_tasks s !! i = Some t ->
  exists t',
    db_tasks (schedule s).2 !! i = Some t'
    /\ advanced [Queued] t t'
    /\ (t' <> t -> t_status t = NotRan /\ t_debug t = false).
Proof.
  intros Hi. destruct (evolving_schedule s i t Hi) as (t' & Hi' & Hadv).
  exists t'. split; [exact Hi'|]. split; [exact Hadv|]. intros Hne.
  destruct (decide (t_status t = NotRan)) as [Hst|Hst];
    destruct (t_debug t) eqn:Hdebug; [| done | |];
    exfalso; apply Hne;
    (assert (Hout : i ∉ not_ran_tasks (load_tasks s).2);
     [rewrite not_ran_tasks_members; intros (u & Hu & Hus & Hud);
      rewrite Hi in Hu; injection Hu as <-; congruence|]);
    destruct (schedule_untouched s i (lookup_lt_Some _ _ _ Hi) Hout)
      as [Hsame _];
    congruence.
Qed.

Lemma schedule_transitions_witness :
  exists t',
    db_tasks (schedule Ex.scenario_cpu).2 !! 0%nat = Some t'
    /\ t_status t' = Queued
    /\ advanced [Queued] (Ex.task 1 NotRan 2 4 0) t'.
Proof.
  destruct (schedule_transitions Ex.scenario_cpu 0 (Ex.task 1 NotRan 2 4 0)
              eq_refl) as (t' & Hi & Hadv & _).
  exists t'. split; [exact Hi|]. split; [|exact Hadv].
  assert (H : t_status <$> db_tasks (schedule Ex.scenario_cpu).2 !! 0%nat
              = Some Queued) by (vm_compute; reflexivity).
  rewrite Hi in H. by injection H.
Defined.

(** ** The placement of a task without GPUs *)

(** A task that asks for no GPU and has none assigned is left alone when
    no computer qualifies; otherwise it goes to the first candidate
    computer and to no other: its object is marked Queued with that
    computer and the job handle, one job is submitted, to that computer's
    queue, and the dicts of all computers are left as they were, the
    available CPU and memory of the chosen one included. *)
Theorem process_task_without_gpu (s : Supervisor) (task : nat) (t : Task)
    (cands : list nat) :
  db_tasks s !! task = Some t ->
  t_gpu t <= 0 ->
  t_gpu_assigned t = None ->
  valid_computers (queues s) t (dag_rel_of s t) 0 (computers s)
  = Ok cands ->
  match cands with
  | [] => process_task task s = (Ok tt, s)
  | h :: _ =>
      exists c queue s',
        computers s !! h = Some c
        /\ queue_of (dag_rel_of s t) c = Ok queue
        /\ process_task task s = (Ok tt, s')
        /\ db_tasks s'
           = alter (dispatched (Z.of_nat (length (celery s))) (c_name c)) task
               (db_tasks s)
        /\ celery s' = celery s ++ [mkSent task (t_id t) queue]
        /\ computers s' = computers s
  end.
Proof.
  intros Ht Hg Hnone Hvalid.
  pose proof (free_gpu_nonneg (computers s) cands) as Hfree.
  assert (Hlt : (free_gpu (computers s) cands <? t_gpu t) = false)
    by (apply Z.ltb_ge; lia).
  assert (Hz : (0 <? t_gpu t) = false) by (apply Z.ltb_ge; lia).
  destruct cands as [|h rest].
  - unfold process_task, bind, get_task, gets, lift. rewrite Ht. cbn.
    rewrite Hvalid. cbn -[free_gpu]. by rewrite Hlt.
  - pose proof (valid_computers_spec _ _ _ _ _ _ Hvalid) as Hcands.
    apply Forall_cons in Hcands as [(_ & c & Hc & [d Hd] & _) _].
    rewrite Nat.sub_0_r in Hc.
    exists c. rewrite Hd in *. cbn [queue_of].
    eexists _, _. split; [exact Hc|]. split; [reflexivity|].
    unfold process_task, bind, get_task, gets, lift. rewrite Ht. cbn.
    rewrite Hd, Hvalid. cbn -[free_gpu place_loop]. rewrite Hlt.
    cbn [place_loop]. unfold bind, get_computer, lift. rewrite Hc. cbn.
    rewrite Hz.
    unfold process_to_celery, bind, get_task, get_computer, apply_async,
      update_task, modify, ret. rewrite Ht. cbn. rewrite Hc. cbn.
    rewrite Hnone. cbn. done.
Qed.

Lemma process_task_without_gpu_witness :
  exists s',
    process_task 0 (Ex.loaded Ex.scenario_cpu) = (Ok tt, s')
    /\ ((fun x => (t_status x, t_computer_assigned x, t_celery_id x))
          <$> db_tasks s')
       = [(Queued, Some "A"%string, Some 0)]
    /\ celery s' = [mkSent 0 1 "A_default"]
    /\ computers s' = computers (Ex.loaded Ex.scenario_cpu).
Proof.
  destruct (process_task_without_gpu (Ex.loaded Ex.scenario_cpu) 0
              (Ex.task 1 NotRan 2 4 0) [0%nat] eq_refl ltac:(done) eq_refl
              eq_refl)
    as (c & queue & s' & Hc & Hq & Hrun & Htasks & Hcelery & Hcs).
  injection Hc as <-. injection Hq as <-.
  exists s'. split; [exact Hrun|]. split; [by rewrite Htasks|].
  split; [exact Hcelery | exact Hcs].
Defined.

(** ** The GPU indices a placement records *)

(** Started below the request, the loop over the slots of one computer
    takes as many free slots as the request still lacks, or all of them if
    there are fewer; the GPU indices it records for them, in [to_send] and
    under the computer's name in [computer_gpu_taken], are consecutive
    from [index] on: the n-th free slot gets the index of the n-th entry,
    whatever the position of the slot. *)
Theorem take_slots_indices (k : nat) (name queue : string) (g : Z)
    (slots : list Z) :
  forall index ts tk,
    Z.of_nat (length ts) < g ->
    let n := Z.min (g - Z.of_nat (length ts))
               (Z.of_nat (length (List.filter gpu_is_free slots))) in
    let out := take_slots k name queue g slots index ts tk in
    out.1 = ts ++ map (fun j => (k, queue, j)) (seqZ index n)
    /\ out.2 !!! name = tk !!! name ++ seqZ index n
    /\ forall other, other <> name -> out.2 !!! other = tk !!! other.
Proof.
  induction slots as [|x slots IH]; intros index ts tk Hlt; cbn zeta.
  - cbn [take_slots List.filter length fst snd].
    rewrite Z.min_r by lia. rewrite seqZ_nil by lia. cbn.
    by rewrite !app_nil_r.
  - cbn [take_slots List.filter].
    destruct (decide (x = 0)) as [->|Hx].
    + change (gpu_is_free 0) with true.
      change (bool_decide (0 ≠ 0)) with false. cbn [length].
      set (free := length (List.filter gpu_is_free slots)) in *.
      set (ts1 := ts ++ [(k, queue, index)]).
      set (tk1 := <[name := tk !!! name ++ [index]]> tk).
      assert (Hlen1 : Z.of_nat (length ts1) = Z.of_nat (length ts) + 1).
      { unfold ts1. rewrite length_app. simpl. lia. }
      destruct (Z.of_nat (length ts1) >=? g) eqn:Hge.
      * apply Z.geb_le in Hge. cbn [fst snd].
        replace (Z.min (g - Z.of_nat (length ts)) (Z.of_nat (S free)))
          with 1 by lia.
        change (seqZ index 1) with [index]. cbn [map].
        split; [done|]. split; [unfold tk1; by rewrite lookup_total_insert_eq|].
        intros other Hne. unfold tk1. by rewrite lookup_total_insert_ne.
      * assert (Hlt1 : Z.of_nat (length ts1) < g).
        { destruct (Z.geb_spec (Z.of_nat (length ts1)) g); [done | lia]. }
        destruct (IH (index + 1) ts1 tk1 Hlt1) as (E1 & E2 & E3).
        fold free in E1, E2.
        set (n1 := Z.min (g - Z.of_nat (length ts1)) (Z.of_nat free)) in *.
        assert (Hn : Z.min (g - Z.of_nat (length ts)) (Z.of_nat (S free))
                     = Z.succ n1) by lia.
        rewrite Hn. rewrite (seqZ_cons index) by lia.
        replace (Z.pred (Z.succ n1)) with n1 by lia.
        replace (Z.succ index) with (index + 1) by lia.
        split; [rewrite E1; unfold ts1; by rewrite <- app_assoc|].
        split.
        -- rewrite E2. unfold tk1. rewrite lookup_total_insert_eq.
           by rewrite <- app_assoc.
        -- intros other Hne. rewrite (E3 other Hne). unfold tk1.
           by rewrite lookup_total_insert_ne.
    + assert (Hfree : gpu_is_free x = false)
        by (by apply bool_decide_eq_false_2).
      rewrite Hfree, (bool_decide_eq_true_2 (x ≠ 0)) by done.
      apply (IH index ts tk Hlt).
Qed.

Lemma take_slots_indices_witness :
  (take_slots 0 "A" "A_default" 2 [7; 0; 9; 0] 0 [] ∅).1
  = [(0%nat, "A_default"%string, 0); (0%nat, "A_default"%string, 1)].
Proof.
  exact (proj1 (take_slots_indices 0 "A" "A_default" 2 [7; 0; 9; 0] 0 [] ∅
                  ltac:(done))).
Defined.

(** ** Capacity Accounting: when it fails, and the slots it fills *)

Lemma py_setitem_outcome {A} (l : list A) (i : Z) (x : A) :
  match py_setitem l i x with
  | Ok l' =>
      - Z.of_nat (length l) <= i < Z.of_nat (length l)
      /\ forall j y,
           l' !! j = Some y ->
           l !! j = Some y
           \/ (y = x
               /\ (i = Z.of_nat j \/ i = Z.of_nat j - Z.of_nat (length l)))
  | Raise e =>
      e = IndexError
      /\ ~ (- Z.of_nat (length l) <= i < Z.of_nat (length l))
  end.
Proof.
  unfold py_setitem.
  destruct (Z.leb_spec 0 i) as [H0|H0];
    destruct (Z.ltb_spec i (Z.of_nat (length l))) as [H1|H1]; cbn [andb].
  - split; [lia|]. intros j y Hj.
    apply list_lookup_insert_Some in Hj as [(<- & <- & _) | [_ ?]];
      [right; split; [done | left; lia] | by left].
  - destruct (Z.leb_spec (- Z.of_nat (length l)) i);
      destruct (Z.ltb_spec i 0); cbn [andb]; try lia; split; (done || lia).
  - destruct (Z.leb_spec (- Z.of_nat (length l)) i) as [H2|H2];
      destruct (Z.ltb_spec i 0) as [H3|H3]; cbn [andb]; try lia.
    + split; [lia|]. intros j y Hj.
      apply list_lookup_insert_Some in Hj as [(<- & <- & _) | [_ ?]];
        [right; split; [done | right; lia] | by left].
    + split; [done | lia].
  - destruct (Z.leb_spec (- Z.of_nat (length l)) i);
      destruct (Z.ltb_spec i 0); cbn [andb]; try lia; split; (done || lia).
Qed.

Lemma same_slots_sym (cs cs' : list Computer) :
  Forall2 same_slots cs cs' -> Forall2 same_slots cs' cs.
Proof.
  intros H. apply Forall2_flip. eapply Forall2_impl; [exact H|].
  intros c c' (? & ? & ?). by repeat split.
Qed.

Lemma same_slots_names (cs cs' : list Computer) :
  Forall2 same_slots cs cs' -> map c_name cs' = map c_name cs.
Proof.
  induction 1 as [|c c' cs cs' (Hn & _) _ IH]; simpl; [done|].
  by rewrite Hn, IH.
Qed.

Lemma accountable_same_slots (cs cs' : list Computer) (task : Task) :
  Forall2 same_slots cs cs' -> accountable cs task -> accountable cs' task.
Proof.
  intros Hcs Hacc a Ha. destruct (Hacc a Ha) as (c & Hin & Hname & Hg).
  apply list_elem_of_lookup_1 in Hin as [i Hi].
  destruct (Forall2_lookup_l _ _ _ _ _ Hcs Hi) as (c' & Hi' & Hn & _ & Hl).
  exists c'. split; [by eapply list_elem_of_lookup_2|].
  split; [congruence|]. rewrite Hl. exact Hg.
Qed.

(** One step of the accounting loop: it fails with [KeyError] on a task
    assigned to a computer that is not registered, with [IndexError] on a
    GPU index outside the computer's slots, and not otherwise. *)
Lemma account_task_outcome (task : Task) (cs : list Computer) :
  match account_task task cs with
  | Ok cs' => Forall2 same_slots cs cs' /\ accountable cs task
  | Raise e =>
      exists a,
        t_computer_assigned task = Some a
        /\ ((e = KeyError /\ a ∉ map c_name cs)
            \/ (e = IndexError
                /\ exists c g,
                    c ∈ cs
                    /\ c_name c = a
                    /\ t_gpu_assigned task = Some g
                    /\ ~ (- Z.of_nat (length (c_gpu c)) <= g
                          < Z.of_nat (length (c_gpu c)))))
  end.
Proof.
  unfold account_task, accountable.
  destruct (t_computer_assigned task) as [a|];
    [|split; [apply same_slots_refl | done]].
  destruct (list_find _ cs) as [[i c]|] eqn:Hfind.
  - apply list_find_Some in Hfind as (Hi & Hname & _).
    assert (Hin : c ∈ cs) by (by eapply list_elem_of_lookup_2).
    assert (Hkeep : forall c4 : Computer,
               same_slots c c4 -> Forall2 same_slots cs (<[i := c4]> cs)).
    { intros c4 Hc4. rewrite <- (list_insert_id cs i c Hi) at 1.
      apply Forall2_insert; [apply same_slots_refl | exact Hc4]. }
    destruct (t_gpu_assigned task) as [g|]; cbn [res_bind].
    + pose proof (py_setitem_outcome
                    (c_gpu (computer_set_cpu (c_cpu c - t_cpu task) c)) g
                    (t_id task)) as Hset.
      destruct (py_setitem _ g (t_id task)) as [gpu|e] eqn:Hgpu;
        cbn [res_bind].
      * apply py_setitem_length in Hgpu. destruct Hset as [Hr _].
        split.
        -- apply Hkeep.
           destruct (distr_info _) as [di|]; try destruct (decide _);
             repeat split; cbn; exact Hgpu.
        -- intros a' [= <-]. exists c. split; [done|]. split; [done|].
           by intros g' [= <-].
      * destruct Hset as [-> Hr]. exists a. split; [done|]. right.
        split; [done|]. exists c, g. by repeat split.
    + split.
      * apply Hkeep.
        destruct (distr_info _) as [di|]; try destruct (decide _);
          by repeat split.
      * intros a' [= <-]. exists c. split; [done|]. split; [done|]. done.
  - apply list_find_None in Hfind. exists a. split; [done|]. left.
    split; [done|]. rewrite list_elem_of_fmap. intros (c & Hc & Hin).
    rewrite Forall_forall in Hfind. by apply (Hfind c Hin).
Qed.

Lemma account_tasks_outcome (tasks : list Task) :
  forall cs : list Computer,
    match account_tasks tasks cs with
    | Ok cs' => Forall2 same_slots cs cs' /\ Forall (accountable cs) tasks
    | Raise e =>
        exists task a,
          task ∈ tasks
          /\ t_computer_assigned task = Some a
          /\ ((e = KeyError /\ a ∉ map c_name cs)
              \/ (e = IndexError
                  /\ exists c g,
                      c ∈ cs
                      /\ c_name c = a
                      /\ t_gpu_assigned task = Some g
                      /\ ~ (- Z.of_nat (length (c_gpu c)) <= g
                            < Z.of_nat (length (c_gpu c)))))
    end.
Proof.
  induction tasks as [|task tasks IH]; intros cs; cbn [account_tasks].
  - split; [apply same_slots_refl | constructor].
  - pose proof (account_task_outcome task cs) as Hstep.
    destruct (account_task task cs) as [cs1|e]; cbn [res_bind].
    + destruct Hstep as [Hslots Hacc]. specialize (IH cs1).
      destruct (account_tasks tasks cs1) as [cs'|e].
      * destruct IH as [Hslots' Hall].
        split; [eapply same_slots_trans; eauto|].
        constructor; [done|]. eapply Forall_impl; [exact Hall|].
        intros u. apply accountable_same_slots. by apply same_slots_sym.
      * destruct IH as (u & a & Hin & Ha & Hcase). exists u, a.
        split; [by right|]. split; [done|].
        destruct Hcase as [[-> Hout] | (-> & c & g & Hc & Hn & Hg & Hr)].
        -- left. split; [done|]. by rewrite <- (same_slots_names _ _ Hslots).
        -- right. split; [done|].
           apply list_elem_of_lookup_1 in Hc as [i Hi].
           destruct (Forall2_lookup_r _ _ _ _ _ Hslots Hi)
             as (c0 & Hi0 & Hn0 & _ & Hl0).
           exists c0, g. split; [by eapply list_elem_of_lookup_2|].
           split; [congruence|]. split; [done|]. by rewrite <- Hl0.
    + destruct Hstep as (a & Ha & Hcase). exists task, a.
      split; [left|]. split; done.
Qed.

Lemma names_unique (cs : list Computer) (c1 c2 : Computer) :
  NoDup (map c_name cs) ->
  c1 ∈ cs -> c2 ∈ cs -> c_name c1 = c_name c2 -> c1 = c2.
Proof.
  intros Hnd H1 H2 Heq.
  apply list_elem_of_lookup_1 in H1 as [i Hi].
  apply list_elem_of_lookup_1 in H2 as [j Hj].
  assert (i = j) as ->; [|congruence].
  apply (NoDup_lookup (map c_name cs) i j (c_name c1)); [done | |].
  - by rewrite list_lookup_fmap, Hi.
  - by rewrite list_lookup_fmap, Hj, Heq.
Qed.

(** [load_computers] returns exactly when every Queued or InProgress
    task that is assigned to a computer is assigned to a registered one
    and, if it holds a GPU, to an index of that computer's slots (from
    minus their number, as Python lists allow).  Otherwise it raises:
    [KeyError] for a task on an unregistered computer, [IndexError] for a
    GPU index out of range. *)
Theorem load_computers_outcome (s : Supervisor) :
  NoDup (map r_name (db_computers s)) ->
  let running := List.filter (status_in [Queued; InProgress]) (db_tasks s) in
  ((load_computers s).1 = Ok tt
   <-> Forall (accountable (map init_computer (db_computers s))) running)
  /\ forall e,
       (load_computers s).1 = Raise e ->
       exists task a,
         task ∈ running
         /\ t_computer_assigned task = Some a
         /\ ((e = KeyError /\ a ∉ map r_name (db_computers s))
             \/ (e = IndexError /\ a ∈ map r_name (db_computers s))).
Proof.
  intros Hnd running.
  assert (Hnames : map c_name (map init_computer (db_computers s))
                   = map r_name (db_computers s)) by (by rewrite map_map).
  assert (Hrun : (load_computers s).1
                 = res_bind
                     (account_tasks running
                        (map init_computer (db_computers s)))
                     (fun _ => Ok tt)).
  { unfold load_computers, bind, gets, lift, modify. cbn.
    rewrite objects_by_status. fold running.
    by destruct (account_tasks running _). }
  rewrite Hrun.
  pose proof (account_tasks_outcome running
                (map init_computer (db_computers s))) as Hout.
  destruct (account_tasks running _) as [cs'|e0]; cbn [res_bind].
  - split; [|intros e; discriminate]. split; [intros _; apply Hout | done].
  - destruct Hout as (task & a & Hin & Ha & Hcase). split.
    + split; [discriminate|]. intros Hall. exfalso.
      rewrite Forall_forall in Hall.
      destruct (Hall task Hin a Ha) as (c & Hc & Hn & Hg).
      destruct Hcase as [[_ Hmiss] | (_ & c' & g & Hc' & Hn' & Hg' & Hr)].
      * apply Hmiss. rewrite <- Hn. by apply list_elem_of_fmap_2.
      * assert (c' = c) as ->.
        { apply (names_unique (map init_computer (db_computers s)));
            [by rewrite Hnames | done | done | congruence]. }
        by apply Hr, Hg.
    + intros e [= <-]. exists task, a. split; [done|]. split; [done|].
      destruct Hcase as [[-> Hmiss] | (-> & c & g & Hc & Hn & _)].
      * left. by rewrite <- Hnames.
      * right. split; [done|]. rewrite <- Hnames, <- Hn.
        by apply list_elem_of_fmap_2.
Qed.

Lemma load_computers_outcome_witness :
  (load_computers Ex.unregistered).1 = Raise KeyError
  /\ ~ Forall (accountable (map init_computer (db_computers Ex.unregistered)))
         (List.filter (status_in [Queued; InProgress])
            (db_tasks Ex.unregistered)).
Proof.
  split; [vm_compute; reflexivity|].
  intros Hall.
  assert (Hnd : NoDup (map r_name (db_computers Ex.unregistered))).
  { apply (bool_decide_unpack _). vm_compute. exact I. }
  apply (proj2 (proj1 (load_computers_outcome Ex.unregistered Hnd))) in Hall.
  vm_compute in Hall. discriminate.
Defined.

(** One step of the accounting loop changes the slots of the computer the
    task is assigned to, at the GPU index of the task, and no other. *)
Lemma account_task_slots (task : Task) (cs cs1 : list Computer) :
  account_task task cs = Ok cs1 ->
  forall k c',
    cs1 !! k = Some c' ->
    exists c,
      cs !! k = Some c
      /\ c_name c' = c_name c
      /\ c_ip c' = c_ip c
      /\ c_gpu_total c' = c_gpu_total c
      /\ length (c_gpu c') = length (c_gpu c)
      /\ forall j g,
           c_gpu c' !! j = Some g ->
           c_gpu c !! j = Some g
           \/ (g = t_id task
               /\ t_computer_assigned task = Some (c_name c)
               /\ exists gi,
                   t_gpu_assigned task = Some gi
                   /\ (gi = Z.of_nat j
                       \/ gi = Z.of_nat j - Z.of_nat (length (c_gpu c)))).
Proof.
  unfold account_task.
  destruct (t_computer_assigned task) as [a|];
    [|intros [= <-] k c' Hk; exists c'; repeat split; auto].
  destruct (list_find _ cs) as [[i c]|] eqn:Hfind; [|discriminate].
  apply list_find_Some in Hfind as (Hi & Hname & _). subst a.
  assert (Hother : forall (c4 : Computer) k c',
             <[i := c4]> cs !! k = Some c' -> k <> i ->
             exists c0,
               cs !! k = Some c0
               /\ c_name c' = c_name c0
               /\ c_ip c' = c_ip c0
               /\ c_gpu_total c' = c_gpu_total c0
               /\ length (c_gpu c') = length (c_gpu c0)
               /\ forall j g,
                    c_gpu c' !! j = Some g ->
                    c_gpu c0 !! j = Some g
                    \/ (g = t_id task
                        /\ Some (c_name c) = Some (c_name c0)
                        /\ exists gi,
                            t_gpu_assigned task = Some gi
                            /\ (gi = Z.of_nat j
                                \/ gi = Z.of_nat j
                                        - Z.of_nat (length (c_gpu c0))))).
  { intros c4 k c' Hk Hne. rewrite list_lookup_insert_ne in Hk by done.
    exists c'. repeat split; auto. }
  destruct (t_gpu_assigned task) as [g|]; cbn [res_bind].
  - pose proof (py_setitem_outcome
                  (c_gpu (computer_set_cpu (c_cpu c - t_cpu task) c)) g
                  (t_id task)) as Hset.
    destruct (py_setitem _ g (t_id task)) as [gpu|e] eqn:Hgpu;
      cbn [res_bind]; [|discriminate].
    apply py_setitem_length in Hgpu. destruct Hset as [_ Hslots].
    cbn in Hgpu, Hslots.
    intros [= <-] k c' Hk.
    destruct (decide (k = i)) as [->|Hne]; [|by eapply Hother].
    rewrite list_lookup_insert_eq in Hk by (by apply lookup_lt_Some in Hi).
    injection Hk as <-. exists c. split; [done|].
    assert (Hshape : forall c4 : Computer,
               c_name c4 = c_name c -> c_ip c4 = c_ip c ->
               c_gpu_total c4 = c_gpu_total c -> c_gpu c4 = gpu ->
               c_name c4 = c_name c
               /\ c_ip c4 = c_ip c
               /\ c_gpu_total c4 = c_gpu_total c
               /\ length (c_gpu c4) = length (c_gpu c)
               /\ forall j g0,
                    c_gpu c4 !! j = Some g0 ->
                    c_gpu c !! j = Some g0
                    \/ (g0 = t_id task
                        /\ Some (c_name c) = Some (c_name c)
                        /\ exists gi,
                            Some g = Some gi
                            /\ (gi = Z.of_nat j
                                \/ gi = Z.of_nat j
                                        - Z.of_nat (length (c_gpu c))))).
    { intros c4 H1 H2 H3 H4. rewrite H4. repeat split; auto.
      intros j g0 Hj. destruct (Hslots j g0 Hj) as [?|[-> Hidx]];
        [by left|]. right. split; [done|]. split; [done|]. eauto. }
    destruct (distr_info _) as [di|]; try destruct (decide _);
      by apply Hshape.
  - intros [= <-] k c' Hk.
    destruct (decide (k = i)) as [->|Hne]; [|by eapply Hother].
    rewrite list_lookup_insert_eq in Hk by (by apply lookup_lt_Some in Hi).
    injection Hk as <-. exists c. split; [done|].
    destruct (distr_info _) as [di|]; try destruct (decide _);
      repeat split; auto.
Qed.

Lemma account_tasks_slots (tasks : list Task) :
  forall cs cs' : list Computer,
    account_tasks tasks cs = Ok cs' ->
    forall k c',
      cs' !! k = Some c' ->
      exists c,
        cs !! k = Some c
        /\ c_name c' = c_name c
        /\ c_ip c' = c_ip c
        /\ c_gpu_total c' = c_gpu_total c
        /\ length (c_gpu c') = length (c_gpu c)
        /\ forall j g,
             c_gpu c' !! j = Some g ->
             c_gpu c !! j = Some g
             \/ exists task gi,
                 task ∈ tasks
                 /\ g = t_id task
                 /\ t_computer_assigned task = Some (c_name c)
                 /\ t_gpu_assigned task = Some gi
                 /\ (gi = Z.of_nat j
                     \/ gi = Z.of_nat j - Z.of_nat (length (c_gpu c))).
Proof.
  induction tasks as [|task tasks IH]; intros cs cs'; cbn [account_tasks].
  - intros [= <-] k c' Hk. exists c'. repeat split; auto.
  - destruct (account_task task cs) as [cs1|] eqn:Hstep; cbn [res_bind];
      [|discriminate].
    intros Hrest k c' Hk.
    destruct (IH _ _ Hrest k c' Hk)
      as (c1 & Hk1 & Hn1 & Hi1 & Ht1 & Hl1 & Hs1).
    destruct (account_task_slots _ _ _ Hstep k c1 Hk1)
      as (c & Hk0 & Hn0 & Hi0 & Ht0 & Hl0 & Hs0).
    exists c. split; [done|]. split; [congruence|]. split; [congruence|].
    split; [congruence|]. split; [congruence|].
    intros j g Hj.
    destruct (Hs1 j g Hj) as [Hold | (u & gi & Hu & -> & Ha & Hg & Hidx)].
    + destruct (Hs0 j g Hold) as [?|(-> & Ha & gi & Hg & Hidx)];
        [by left|].
      right. exists task, gi. split; [left|]. by repeat split.
    + right. exists u, gi. split; [by right|].
      rewrite <- Hn0, <- Hl0. by repeat split.
Qed.

(** When [load_computers] returns, each computer has as many GPU slots as
    it was registered with, and every slot is free (0) or holds the id of a
    Queued or InProgress task that is assigned to that computer with the
    GPU index of the slot. *)
Theorem load_computers_slots (s s' : Supervisor) :
  load_computers s = (Ok tt, s') ->
  forall k c,
    computers s' !! k = Some c ->
    exists r,
      db_computers s !! k = Some r
      /\ c_name c = r_name r
      /\ c_ip c = r_ip r
      /\ c_gpu_total c = Z.max 0 (r_gpu r)
      /\ Z.of_nat (length (c_gpu c)) = c_gpu_total c
      /\ forall j g,
           c_gpu c !! j = Some g ->
           g = 0
           \/ exists task gi,
               task ∈ db_tasks s
               /\ t_status task ∈ [Queued; InProgress]
               /\ t_id task = g
               /\ t_computer_assigned task = Some (c_name c)
               /\ t_gpu_assigned task = Some gi
               /\ (gi = Z.of_nat j \/ gi = Z.of_nat j - c_gpu_total c).
Proof.
  unfold load_computers, bind, gets, lift, modify. cbn.
  rewrite objects_by_status.
  destruct (account_tasks _ _) as [cs'|] eqn:Hacc; [|discriminate].
  intros [= <-] k c Hk. cbn in Hk.
  destruct (account_tasks_slots _ _ _ Hacc k c Hk)
    as (c0 & Hk0 & Hn & Hip & Htot & Hlen & Hslots).
  rewrite list_lookup_fmap in Hk0.
  destruct (db_computers s !! k) as [r|]; [|discriminate].
  injection Hk0 as <-. cbn in *. rewrite length_replicate in *.
  exists r. split; [done|]. split; [done|]. split; [done|].
  split; [lia|]. split; [lia|].
  intros j g Hj.
  destruct (Hslots j g Hj) as [Hzero | (task & gi & Hin & -> & Ha & Hg & Hidx)].
  - left. by apply lookup_replicate in Hzero as [-> _].
  - right. exists task, gi.
    apply list_elem_of_In, filter_In in Hin as [Hin Hst].
    split; [by apply list_elem_of_In|].
    split; [unfold status_in in Hst; by apply bool_decide_eq_true in Hst|].
    split; [done|]. split; [by rewrite Hn|]. split; [done|].
    rewrite Htot. exact Hidx.
Qed.

Lemma load_computers_slots_witness :
  (c_gpu <$> computers (load_computers Ex.scenario_gpu).2) = [[7; 0]]
  /\ exists r,
       db_computers Ex.scenario_gpu !! 0%nat = Some r
       /\ r_gpu r = 2.
Proof.
  split; [vm_compute; reflexivity|].
  destruct (load_computers_slots Ex.scenario_gpu
              (load_computers Ex.scenario_gpu).2
              ltac:(vm_compute; reflexivity) 0
              (mkComputer "A" "10.0.0.1" 7 15 [7; 0] ∅ 8 16 2)
              ltac:(vm_compute; reflexivity))
    as (r & Hr & _).
  exists r. split; [exact Hr|].
  injection Hr as <-. reflexivity.
Defined.

(** ** Changing a status and querying by status *)

(** [change_status] then [by_status]: the query returns the task whose
    status was changed exactly when the new status is among those asked
    for, and any other task exactly when it did before.  The change stamps
    [started] for InProgress and [finished] for Failed, Stopped and
    Success, and no time for the other statuses (Skipped among them). *)
Theorem change_status_by_status (s : Supervisor) (i : nat) (t : Task)
    (st : TaskStatus) :
  db_tasks s !! i = Some t ->
  (change_status i st s).1 = Ok tt
  /\ (exists t',
        db_tasks (change_status i st s).2 !! i = Some t'
        /\ t_status t' = st
        /\ t_started t'
           = (if decide (st = InProgress) then Some (clock s)
              else t_started t)
        /\ t_finished t'
           = (if bool_decide (st ∈ [Failed; Stopped; Success])
              then Some (clock s) else t_finished t))
  /\ forall sts j,
       j ∈ by_status sts (change_status i st s).2
       <-> (j = i /\ st ∈ sts) \/ (j <> i /\ j ∈ by_status sts s).
Proof.
  intros Hi.
  assert (Hrun : (change_status i st s).1 = Ok tt).
  { unfold change_status, bind, gets, update_task, modify, ret.
    destruct (decide (st = InProgress));
      [|destruct (bool_decide (st ∈ [Failed; Stopped; Success]))]; done. }
  assert (Hnew : exists t',
             db_tasks (change_status i st s).2 !! i = Some t'
             /\ t_status t' = st
             /\ t_started t'
                = (if decide (st = InProgress) then Some (clock s)
                   else t_started t)
             /\ t_finished t'
                = (if bool_decide (st ∈ [Failed; Stopped; Success])
                   then Some (clock s) else t_finished t)).
  { unfold change_status, bind, gets, update_task, modify, ret.
    destruct (decide (st = InProgress)) as [->|Hne];
      [|destruct (bool_decide (st ∈ [Failed; Stopped; Success]))];
      cbn; rewrite ?list_lookup_alter_eq, Hi; cbn;
      eexists; (split; [reflexivity|]); by repeat split. }
  assert (Hother : forall j,
             j <> i ->
             db_tasks (change_status i st s).2 !! j = db_tasks s !! j).
  { intros j Hne.
    unfold change_status, bind, gets, update_task, modify, ret.
    destruct (decide (st = InProgress));
      [|destruct (bool_decide (st ∈ [Failed; Stopped; Success]))];
      cbn; by rewrite ?list_lookup_alter_ne by done. }
  split; [exact Hrun|]. split; [exact Hnew|].
  intros sts j. unfold by_status. rewrite !positions_from_lookup.
  rewrite !Nat.sub_0_r.
  destruct (decide (j = i)) as [->|Hne].
  - destruct Hnew as (t' & Hi' & Hst & _). rewrite Hi'. split.
    + intros (_ & x & [= <-] & Hx). left. split; [done|].
      unfold status_in in Hx. apply bool_decide_eq_true in Hx. congruence.
    + intros [[_ Hin] | [? _]]; [|done]. split; [lia|]. exists t'.
      split; [done|]. unfold status_in. apply bool_decide_eq_true_2.
      congruence.
  - rewrite (Hother j Hne). split.
    + intros H. right. by split.
    + intros [[? _] | [_ H]]; [done | exact H].
Qed.

Lemma change_status_by_status_witness :
  by_status [Skipped] (change_status 0 Skipped (Ex.gated Failed)).2
  = [0%nat]
  /\ (0%nat ∈ by_status [NotRan; Skipped]
               (change_status 0 Skipped (Ex.gated Failed)).2).
Proof.
  split; [vm_compute; reflexivity|].
  apply (proj2 (proj2 (change_status_by_status (Ex.gated Failed) 0
                         (Ex.task 1 NotRan 1 1 0) Skipped eq_refl))).
  left. split; [reflexivity|]. right. left.
Defined.

(** ** The effects of a dispatch, in the order they happen *)

(** [process_to_celery] submits the job and marks the task object Queued,
    with the computer and the job handle, in every case.  After that a
    task without an assigned GPU leaves the computer's dict alone; a task
    with one takes the slot and its CPU and memory are subtracted, unless
    the GPU index is outside the computer's slots: then [IndexError] is
    raised with the job already submitted, the task already Queued and the
    computer's dict unchanged. *)
Theorem process_to_celery_effects (s : Supervisor) (j : nat) (queue : string)
    (k : nat) (t : Task) (c : Computer) :
  db_tasks s !! j = Some t ->
  computers s !! k = Some c ->
  let res := (process_to_celery j queue k s).1 in
  let s' := (process_to_celery j queue k s).2 in
  db_tasks s'
  = alter (dispatched (Z.of_nat (length (celery s))) (c_name c)) j
      (db_tasks s)
  /\ celery s' = celery s ++ [mkSent j (t_id t) queue]
  /\ match t_gpu_assigned t with
     | None => res = Ok tt /\ computers s' = computers s
     | Some g =>
         match py_setitem (c_gpu c) g (t_id t) with
         | Ok gpu =>
             res = Ok tt
             /\ - Z.of_nat (length (c_gpu c)) <= g
                < Z.of_nat (length (c_gpu c))
             /\ computers s'
                = <[k := mkComputer (c_name c) (c_ip c)
                           (c_cpu c - t_cpu t)
                           (c_memory c - t_memory t)%float
                           gpu (c_ports c) (c_cpu_total c)
                           (c_memory_total c) (c_gpu_total c)]>
                    (computers s)
         | Raise e =>
             res = Raise IndexError
             /\ ~ (- Z.of_nat (length (c_gpu c)) <= g
                   < Z.of_nat (length (c_gpu c)))
             /\ computers s' = computers s
         end
     end.
Proof.
  intros Hj Hk. cbn zeta.
  unfold process_to_celery, bind, get_task, get_computer, apply_async,
    update_task, update_computer, modify, lift, ret.
  rewrite Hj. cbn. rewrite Hk. cbn.
  destruct (t_gpu_assigned t) as [g|]; cbn; [|done].
  pose proof (py_setitem_outcome (c_gpu c) g (t_id t)) as Hset.
  destruct (py_setitem (c_gpu c) g (t_id t)) as [gpu|e]; cbn.
  - destruct Hset as [Hr _]. split; [done|]. split; [done|].
    split; [done|]. split; [done|].
    apply list_eq. intros i. destruct (decide (i = k)) as [->|Hne].
    + rewrite !list_lookup_alter_eq, Hk.
      rewrite list_lookup_insert_eq by (by apply lookup_lt_Some in Hk).
      reflexivity.
    + rewrite !list_lookup_alter_ne by done.
      by rewrite list_lookup_insert_ne by done.
  - destruct Hset as [-> Hr]. done.
Qed.

Lemma process_to_celery_effects_witness :
  (process_to_celery 0 "A_default" 0 (Ex.loaded Ex.out_of_range)).1
  = Raise IndexError
  /\ (t_status <$> db_tasks
        (process_to_celery 0 "A_default" 0 (Ex.loaded Ex.out_of_range)).2)
     = [Queued]
  /\ celery (process_to_celery 0 "A_default" 0 (Ex.loaded Ex.out_of_range)).2
     = [mkSent 0 1 "A_default"].
Proof.
  split; [vm_compute; reflexivity|]. split; [vm_compute; reflexivity|].
  exact (proj1 (proj2 (process_to_celery_effects (Ex.loaded Ex.out_of_range)
                         0 "A_default" 0 _ _ eq_refl eq_refl))).
Defined.

(** ** The times of a row of the status aggregator *)

Lemma opt_min_fold (l : list (option Z)) :
  match foldr opt_min None l with
  | None => forall o, o ∈ l -> o = None
  | Some x => Some x ∈ l /\ forall y, Some y ∈ l -> x <= y
  end.
Proof.
  induction l as [|o l IH]; cbn [foldr]; [intros o Ho; inversion Ho|].
  destruct (foldr opt_min None l) as [m|]; destruct o as [a|]; cbn.
  - destruct IH as [Hin Hmin]. split.
    + destruct (Z.min_spec a m) as [[_ ->]|[_ ->]]; [left | by right].
    + intros y Hy. apply elem_of_cons in Hy as [[= ->]|Hy]; [lia|].
      specialize (Hmin y Hy). lia.
  - destruct IH as [Hin Hmin]. split; [by right|].
    intros y Hy. apply elem_of_cons in Hy as [?|Hy]; [done | by apply Hmin].
  - split; [left|]. intros y Hy.
    apply elem_of_cons in Hy as [[= ->]|Hy]; [lia|]. by apply IH in Hy.
  - intros o Ho. apply elem_of_cons in Ho as [->|Ho]; [done | by apply IH].
Qed.

Lemma opt_max_fold (l : list (option Z)) :
  match foldr opt_max None l with
  | None => forall o, o ∈ l -> o = None
  | Some x => Some x ∈ l /\ forall y, Some y ∈ l -> y <= x
  end.
Proof.
  induction l as [|o l IH]; cbn [foldr]; [intros o Ho; inversion Ho|].
  destruct (foldr opt_max None l) as [m|]; destruct o as [a|]; cbn.
  - destruct IH as [Hin Hmax]. split.
    + destruct (Z.max_spec a m) as [[_ ->]|[_ ->]]; [by right | left].
    + intros y Hy. apply elem_of_cons in Hy as [[= ->]|Hy]; [lia|].
      specialize (Hmax y Hy). lia.
  - destruct IH as [Hin Hmax]. split; [by right|].
    intros y Hy. apply elem_of_cons in Hy as [?|Hy]; [done | by apply Hmax].
  - split; [left|]. intros y Hy.
    apply elem_of_cons in Hy as [[= ->]|Hy]; [lia|]. by apply IH in Hy.
  - intros o Ho. apply elem_of_cons in Ho as [->|Ho]; [done | by apply IH].
Qed.

(** On a row of [parent_tasks_stats], [started] is the earliest start
    among the children that have one and [finished] the latest finish among
    those that have one; either is missing exactly when no child has
    it. *)
Theorem parent_tasks_stats_times (db : list Task) (i : nat)
    (started finished : option Z) (statuses : list (TaskStatus * Z)) :
  (i, started, finished, statuses) ∈ parent_tasks_stats db ->
  exists task,
    db !! i = Some task
    /\ match started with
       | None => forall c, c ∈ children_of db task -> t_started c = None
       | Some x =>
           (exists c, c ∈ children_of db task /\ t_started c = Some x)
           /\ forall c y,
                c ∈ children_of db task -> t_started c = Some y -> x <= y
       end
    /\ match finished with
       | None => forall c, c ∈ children_of db task -> t_finished c = None
       | Some x =>
           (exists c, c ∈ children_of db task /\ t_finished c = Some x)
           /\ forall c y,
                c ∈ children_of db task -> t_finished c = Some y -> y <= x
       end.
Proof.
  unfold parent_tasks_stats. rewrite list_elem_of_In, in_flat_map.
  intros (j & Hj & Hrow).
  apply list_elem_of_In, positions_from_lookup in Hj as (_ & x & Hx & _).
  rewrite Nat.sub_0_r in Hx. rewrite Hx in Hrow.
  destruct (children_of db x) as [|c0 cs] eqn:Hch; [inversion Hrow|].
  destruct Hrow as [Heq | []]. inversion Heq; subst. clear Heq.
  exists x. split; [done|]. rewrite Hch.
  set (children := c0 :: cs).
  change (opt_min (t_started c0) (foldr opt_min None (map t_started cs)))
    with (foldr opt_min None (map t_started children)).
  change (opt_max (t_finished c0) (foldr opt_max None (map t_finished cs)))
    with (foldr opt_max None (map t_finished children)).
  split.
  - pose proof (opt_min_fold (map t_started children)) as Hmin.
    destruct (foldr opt_min None (map t_started children)) as [m|].
    + destruct Hmin as [Hin Hleast]. split.
      * apply list_elem_of_fmap in Hin as (c & Hc & Hin). eauto.
      * intros c y Hc Hy. apply Hleast. rewrite <- Hy.
        by apply list_elem_of_fmap_2.
    + intros c Hc. apply Hmin. by apply list_elem_of_fmap_2.
  - pose proof (opt_max_fold (map t_finished children)) as Hmax.
    destruct (foldr opt_max None (map t_finished children)) as [m|].
    + destruct Hmax as [Hin Hmost]. split.
      * apply list_elem_of_fmap in Hin as (c & Hc & Hin). eauto.
      * intros c y Hc Hy. apply Hmost. rewrite <- Hy.
        by apply list_elem_of_fmap_2.
    + intros c Hc. apply Hmax. by apply list_elem_of_fmap_2.
Qed.

Lemma parent_tasks_stats_times_witness :
  parent_tasks_stats Ex.timed
  = [(0%nat, Some 3, Some 9, status_counts [Success; InProgress; Queued])]
  /\ exists c, c ∈ children_of Ex.timed (Ex.task 1 InProgress 1 1 0)
               /\ t_started c = Some 3.
Proof.
  split; [vm_compute; reflexivity|].
  destruct (parent_tasks_stats_times Ex.timed 0 (Some 3) (Some 9)
              (status_counts [Success; InProgress; Queued]))
    as (task & Hi & Hstarted & _).
  { vm_compute. left. }
  injection Hi as <-. exact (proj1 Hstarted).
Defined.

(** ** One task at a time *)








(** ** No task object is submitted twice *)

Lemma submits_same (allowed : list nat) (s s' : Supervisor) :
  length (db_tasks s') = length (db_tasks s) ->
  celery s' = celery s ->
  submits allowed s s'.
Proof.
  intros Hl Hc. split; [lia|]. exists []. rewrite app_nil_r.
  split; [done|]. split; constructor.
Qed.

Lemma submits_mono (a1 a2 : list nat) (s s' : Supervisor) :
  (forall x, x ∈ a1 -> x ∈ a2) -> submits a1 s s' -> submits a2 s s'.
Proof.
  intros Hsub (Hlen & new & Hc & Hnd & Hall). split; [done|].
  exists new. split; [done|]. split; [done|].
  eapply Forall_impl; [exact Hall|]. cbn beta. intros e [?|?]; auto.
Qed.

Lemma submits_trans (a1 a2 : list nat) (s1 s2 s3 : Supervisor) :
  (forall x, x ∈ a1 -> x ∉ a2) ->
  (forall x, x ∈ a1 ++ a2 -> (x < length (db_tasks s1))%nat) ->
  submits a1 s1 s2 -> submits a2 s2 s3 -> submits (a1 ++ a2) s1 s3.
Proof.
  intros Hdisj Hbound (Hl1 & new1 & Hc1 & Hnd1 & Hall1)
    (Hl2 & new2 & Hc2 & Hnd2 & Hall2).
  split; [lia|]. exists (new1 ++ new2).
  split; [by rewrite Hc2, Hc1, <- app_assoc|].
  rewrite Forall_forall in Hall1, Hall2. split.
  - rewrite fmap_app. apply NoDup_app. split; [done|]. split; [|done].
    intros r Hr1 Hr2.
    apply list_elem_of_fmap in Hr1 as (e1 & -> & He1).
    apply list_elem_of_fmap in Hr2 as (e2 & Heq & He2).
    destruct (Hall1 e1 He1) as [Ha1 | Hn1];
      destruct (Hall2 e2 He2) as [Ha2 | Hn2]; rewrite <- Heq in *.
    + by apply (Hdisj _ Ha1).
    + assert (sent_task e1 < length (db_tasks s1))%nat
        by (apply Hbound, elem_of_app; by left).
      lia.
    + assert (sent_task e1 < length (db_tasks s1))%nat
        by (apply Hbound, elem_of_app; by right).
      lia.
    + lia.
  - apply Forall_forall. intros e He.
    apply elem_of_app in He as [He|He].
    + destruct (Hall1 e He) as [?|?];
        [left; apply elem_of_app; by left | right; lia].
    + destruct (Hall2 e He) as [?|?];
        [left; apply elem_of_app; by right | right; lia].
Qed.

(** A dispatch submits at most one job, for the task dispatched. *)
Lemma process_to_celery_sends (j : nat) (queue : string) (k : nat)
    (s : Supervisor) :
  length (db_tasks (process_to_celery j queue k s).2) = length (db_tasks s)
  /\ (celery (process_to_celery j queue k s).2 = celery s
      \/ exists id,
          celery (process_to_celery j queue k s).2
          = celery s ++ [mkSent j id queue]).
Proof.
  split; [apply process_to_celery_length|].
  unfold process_to_celery, bind, get_task, get_computer, apply_async,
    update_task, update_computer, commit, modify, lift, ret.
  destruct (db_tasks s !! j) as [t|]; cbn; [|by left].
  destruct (computers s !! k) as [c|]; cbn; [|by left].
  destruct (t_gpu_assigned t) as [g|]; cbn; [|eauto].
  destruct (py_setitem _ _ _); cbn; eauto.
Qed.

Lemma process_to_celery_submits (j : nat) (queue : string) (k : nat)
    (s : Supervisor) :
  submits [j] s (process_to_celery j queue k s).2.
Proof.
  destruct (process_to_celery_sends j queue k s) as [Hl [Hc | [id Hc]]];
    [by apply submits_same|].
  split; [lia|]. exists [mkSent j id queue]. split; [done|].
  split; [apply NoDup_singleton|].
  constructor; [|constructor]. left. cbn. left.
Qed.

Lemma send_one_submits (task : nat) (world_size : Z) (main_cmp : nat)
    (master_port : Z) (taken : gmap string (list Z)) (rank : Z)
    (entry : Assignment) (s : Supervisor) :
  submits []
    s (send_one task world_size main_cmp master_port taken rank entry s).2.
Proof.
  destruct entry as [[k q] idx].
  unfold send_one, bind, get_computer, lift.
  destruct (computers s !! k) as [c|]; cbn; [|by apply submits_same].
  destruct (computers s !! main_cmp) as [m|]; cbn; [|by apply submits_same].
  destruct (py_index _ idx) as [local|]; cbn; [|by apply submits_same].
  unfold create_service_task, bind, get_task, gets, commit, modify, ret.
  destruct (db_tasks s !! task) as [t|]; cbn; [|by apply submits_same].
  set (s1 := with_dag_rel_loaded _ _).
  assert (Hl1 : length (db_tasks s1) = S (length (db_tasks s))).
  { unfold s1. cbn. rewrite length_app. cbn. lia. }
  assert (Hc1 : celery s1 = celery s) by done.
  destruct (process_to_celery_sends (length (db_tasks s)) q k s1)
    as [Hl [Hc | [id Hc]]].
  - split; [lia|]. exists []. rewrite app_nil_r.
    split; [congruence|]. split; constructor.
  - split; [lia|]. exists [mkSent (length (db_tasks s)) id q].
    split; [congruence|]. split; [apply NoDup_singleton|].
    constructor; [|constructor]. right. cbn. lia.
Qed.

Lemma send_loop_submits (task : nat) (world_size : Z) (main_cmp : nat)
    (master_port : Z) (taken : gmap string (list Z))
    (to_send : list Assignment) :
  forall rank s,
    submits []
      s (send_loop task world_size main_cmp master_port taken rank to_send
           s).2.
Proof.
  induction to_send as [|entry rest IH]; intros rank s; cbn [send_loop].
  - by apply submits_same.
  - unfold bind.
    pose proof (send_one_submits task world_size main_cmp master_port taken
                  rank entry s) as H1.
    destruct (send_one _ _ _ _ _ _ _ s) as [[[]|e] s1]; cbn [snd] in *;
      [|exact H1].
    apply (submits_trans [] [] s s1); [| |exact H1 | apply IH].
    + intros x Hx. inversion Hx.
    + intros x Hx. inversion Hx.
Qed.

Lemma place_loop_submits (task : nat) (t : Task) (dag_rel : option Dag)
    (cands : list nat) :
  forall to_send taken s,
    submits [task] s (place_loop task t dag_rel cands to_send taken s).2.
Proof.
  induction cands as [|k cands IH]; intros to_send taken s;
    cbn [place_loop]; [by apply submits_same|].
  unfold bind, get_computer, lift.
  destruct (computers s !! k) as [c|]; cbn [fst snd];
    [|by apply submits_same].
  destruct (queue_of dag_rel c) as [queue|]; cbn [fst snd];
    [|by apply submits_same].
  destruct (0 <? t_gpu t).
  - destruct (take_slots _ _ _ _ _ _ _ _) as [to_send' taken'].
    destruct (_ >=? _); [by apply submits_same | apply IH].
  - pose proof (process_to_celery_submits task queue k s) as H1.
    by destruct (process_to_celery task queue k s) as [[[]|e] s1].
Qed.

Lemma process_task_submits (task : nat) (s : Supervisor) :
  submits [task] s (process_task task s).2.
Proof.
  unfold process_task, bind, get_task, gets, lift.
  destruct (db_tasks s !! task) as [t|] eqn:Ht; cbn [fst snd];
    [|by apply submits_same].
  destruct (valid_computers _ _ _ _ _) as [cands|]; cbn [fst snd];
    [|by apply submits_same].
  destruct (_ <? _); [by apply submits_same|].
  pose proof (place_loop_submits task t (dag_rel_of s t) cands [] ∅ s)
    as H1.
  destruct (place_loop _ _ _ _ _ _ s) as [[[to_send taken]|e] s1];
    cbn [fst snd] in *; [|exact H1].
  destruct to_send as [|[[main_cmp queue] idx] rest]; [exact H1|].
  assert (Hstay : forall s2 : Supervisor,
             length (db_tasks s2) = length (db_tasks s1) ->
             celery s2 = celery s1 -> submits [task] s s2).
  { intros s2 Hl Hc. destruct H1 as (Hl1 & new & Hc1 & Hnd & Hall).
    split; [lia|]. exists new. split; [congruence|]. split; [done|].
    eapply Forall_impl; [exact Hall|]. cbn beta. intros e [?|?]; [by left|].
    right. lia. }
  unfold get_computer.
  destruct (computers s1 !! main_cmp) as [m|]; cbn [fst snd];
    [|by apply Hstay].
  destruct (docker_of_queue queue) as [docker_name|]; cbn [fst snd];
    [|by apply Hstay].
  destruct (find_port _ _ _) as [master_port|]; cbn [fst snd];
    [|by apply Hstay].
  pose proof (send_loop_submits task (t_gpu t) main_cmp master_port taken
                ((main_cmp, queue, idx) :: rest) 0 s1) as H2.
  assert (H12 : forall s2 : Supervisor,
             submits [] s1 s2 -> submits [task] s s2).
  { intros s2 H. apply (submits_trans [task] [] s s1 s2); [| |done|done].
    - intros x _ Hx. inversion Hx.
    - intros x Hx. rewrite app_nil_r in Hx.
      apply list_elem_of_singleton in Hx as ->.
      by apply lookup_lt_Some in Ht. }
  destruct (send_loop _ _ _ _ _ _ _ s1) as [[[]|e] s2]; cbn [fst snd] in *;
    [|by apply H12].
  unfold update_task, commit, modify. cbn [fst snd].
  destruct (H12 s2 H2) as (Hl & new & Hc & Hnd & Hall).
  split; [cbn; rewrite length_alter; lia|]. exists new.
  split; [done|]. split; [done|].
  eapply Forall_impl; [exact Hall|]. cbn beta. intros e [?|?]; [by left|].
  right. cbn. rewrite length_alter. lia.
Qed.

Lemma process_tasks_step_submits (task : nat) (s : Supervisor) :
  submits [task] s (process_tasks_step task s).2.
Proof.
  unfold process_tasks_step, bind, get_task, gets.
  destruct (db_tasks s !! task) as [t|]; cbn [fst snd];
    [|by apply submits_same].
  destruct (dag_rel_of s t) as [d|]; cbn [fst snd];
    [|by apply submits_same].
  destruct (dep_status s !! t_id t) as [ds|]; cbn [fst snd];
    [|by apply submits_same].
  destruct (_ || _).
  - apply submits_same;
      unfold change_status, bind, gets, update_task, commit, modify, ret;
      destruct (decide (Skipped = InProgress));
      try destruct (bool_decide (Skipped ∈ [Failed; Stopped; Success]));
      cbn; by rewrite ?length_alter.
  - destruct (_ && _); [by apply submits_same | apply process_task_submits].
Qed.

Lemma process_tasks_loop_submits (tasks : list nat) :
  forall s,
    NoDup tasks ->
    (forall x, x ∈ tasks -> (x < length (db_tasks s))%nat) ->
    submits tasks s (process_tasks_loop tasks s).2.
Proof.
  induction tasks as [|task tasks IH]; intros s Hnd Hbound;
    cbn [process_tasks_loop]; [by apply submits_same|].
  apply NoDup_cons in Hnd as [Hfresh Hnd].
  pose proof (process_tasks_step_submits task s) as H1. unfold bind.
  destruct (process_tasks_step task s) as [[[]|e] s1]; cbn [snd] in *.
  - apply (submits_trans [task] tasks s s1); [| |exact H1|].
    + intros x Hx. by apply list_elem_of_singleton in Hx as ->.
    + exact Hbound.
    + apply IH; [done|]. intros x Hx. destruct H1 as [Hl _].
      assert (x < length (db_tasks s))%nat by (apply Hbound; by right).
      lia.
  - eapply submits_mono; [|exact H1].
    intros x Hx. apply list_elem_of_singleton in Hx as ->. left.
Qed.

(** Within one tick, whatever its outcome, no two jobs are submitted for
    the same task object, and a job is submitted only for a task that was
    NotRan and not debug when the tick began or for a task object the tick
    created. *)
Theorem schedule_submits_once (s : Supervisor) :
  exists new,
    celery (schedule s).2 = celery s ++ new
    /\ NoDup (sent_task <$> new)
    /\ Forall
         (fun e =>
            (exists t,
               db_tasks s !! sent_task e = Some t
               /\ t_status t = NotRan
               /\ t_debug t = false)
            \/ (length (db_tasks s) <= sent_task e
                < length (db_tasks (schedule s).2))%nat)
         new.
Proof.
  assert (Hnil : forall s0 : Supervisor,
             celery s0 = celery s ->
             exists new,
               celery s0 = celery s ++ new
               /\ NoDup (sent_task <$> new)
               /\ Forall
                    (fun e =>
                       (exists t,
                          db_tasks s !! sent_task e = Some t
                          /\ t_status t = NotRan
                          /\ t_debug t = false)
                       \/ (length (db_tasks s) <= sent_task e
                           < length (db_tasks s0))%nat)
                    new).
  { intros s0 Hc. exists []. rewrite app_nil_r. split; [done|].
    split; constructor. }
  pose proof (not_ran_tasks_sublist s) as Hsub.
  pose proof (not_ran_tasks_members s) as Hmem.
  destruct (load_tasks_fields s) as (Ht1 & Hc1 & _).
  unfold schedule, bind.
  destruct (load_tasks s) as [[[]|e1] s1]; cbn [fst snd] in *;
    [|by apply Hnil].
  destruct (load_computers_fields s1) as (Ht2 & Hc2 & Hn2).
  destruct (load_computers s1) as [[[]|e2] s2]; cbn [fst snd] in *;
    [|apply Hnil; congruence].
  assert (Hnd : NoDup (not_ran_tasks s2)).
  { rewrite Hn2. eapply sublist_NoDup; [apply NoDup_seq | exact Hsub]. }
  assert (Hbound : forall x,
             x ∈ not_ran_tasks s2 -> (x < length (db_tasks s2))%nat).
  { intros x Hx. rewrite Hn2 in Hx. apply Hmem in Hx as (t & Hx & _).
    rewrite Ht2, Ht1. by apply lookup_lt_Some in Hx. }
  destruct (process_tasks_loop_submits (not_ran_tasks s2) s2 Hnd Hbound)
    as (Hl & new & Hc & Hnd' & Hall).
  unfold process_tasks, bind, gets. cbn [fst snd].
  exists new. split; [by rewrite Hc, Hc2, Hc1|]. split; [done|].
  eapply Forall_impl; [exact Hall|]. cbn beta. intros e [Hin | Hnew].
  - left. rewrite Hn2 in Hin. by apply Hmem.
  - right. rewrite Ht2, Ht1 in Hnew. exact Hnew.
Qed.
